(** * Case lifecycle and advocate matching: a shallow embedding

    The development follows the Python sources:

    - [backend/app/services/matching_service.py]  (module [Backend])
    - [advocate_bot_complete.py]                   (module [Bot])
    - [backend/app/api/client.py]                  (module [Client])
    - [backend/app/api/advocate.py]                (module [Advocate])
    - [backend/app/models/*.py]                    (one module per model)

    Conventions.

    - Scores are Python floats that are only ever built from the
      increments 20, 10, 7, 5, 4, 3, 2, 1 and multiples of 0.5, so
      they are represented exactly as integers counting half points:
      [pts n] is the score [n], and [(years - min_years) * 0.5] is
      [years - min_years] half points.
    - Decimal columns, float ratings and the workload ratio are exact
      rationals ([Q]); the thresholds 0.5, 0.7, 0.9, 4.5, 4.0 are compared
      as rationals.  For case loads that fit a database integer the
      rounded float quotient compares with the float literals the same way.
    - Values read out of a [Dict[str, Any]] keep their dynamic type
      ([pyval]); an operation that raises in Python returns [Raise].
    - Match reasons are kept as tagged values, one constructor per
      f-string of the source; [reason_text] gives the text. *)

From Stdlib Require Import Ascii String ZArith QArith Qround Lia.
From stdpp Require Import gmap strings list fin_maps pretty sorting.

Local Open Scope Z_scope.

(** ** Python values and exceptions

    The values that a case-profile dictionary holds: [None], booleans,
    integers, strings and lists of strings. *)

Inductive pyval :=
| PNone
| PBool (b : bool)
| PInt (z : Z)
| PStr (s : string)
| PList (l : list string).

Inductive pyexn :=
| TypeError
| AttributeError
| ZeroDivisionError
| NoResultFound
| MultipleResultsFound
| DBAPIError
| HTTPException (status_code : Z) (detail : string).

Inductive res (A : Type) :=
| Ok (a : A)
| Raise (e : pyexn).
Arguments Ok {A} a.
Arguments Raise {A} e.

#[global] Instance res_ret : MRet res := fun A a => Ok a.
#[global] Instance res_bind : MBind res := fun A B f m =>
  match m with Ok a => f a | Raise e => Raise e end.

#[global] Instance pyval_eq_dec : EqDecision pyval.
Proof. solve_decision. Defined.

(** [bool(v)] *)
Definition truthy (v : pyval) : bool :=
  match v with
  | PNone => false
  | PBool b => b
  | PInt z => negb (z =? 0)
  | PStr s => negb (String.eqb s "")
  | PList l => match l with [] => false | _ => true end
  end.

(** [v in l] for a list of strings [l] *)
Definition py_in (v : pyval) (l : list string) : bool :=
  match v with
  | PStr s => bool_decide (s ∈ l)
  | _ => false
  end.

(** [v == s] for a string literal [s] *)
Definition py_eq_str (v : pyval) (s : string) : bool :=
  match v with
  | PStr t => String.eqb t s
  | _ => false
  end.

Fixpoint chars (s : string) : list string :=
  match s with
  | EmptyString => []
  | String c s' => String c EmptyString :: chars s'
  end.

(** [for x in v]: a list yields its items, a string its characters,
    anything else is not iterable. *)
Definition py_iter (v : pyval) : res (list string) :=
  match v with
  | PList l => Ok l
  | PStr s => Ok (chars s)
  | _ => Raise TypeError
  end.

(** [d.get(k, default)] *)
Definition get (d : gmap string pyval) (k : string) (default : pyval) : pyval :=
  match d !! k with
  | Some v => v
  | None => default
  end.

(** ** Strings: [str.lower] and the substring test [a in b]

    Strings are byte strings; [lower] maps the ASCII capitals. *)

Definition lower_ascii (c : ascii) : ascii :=
  let n := nat_of_ascii c in
  if (Nat.leb 65 n && Nat.leb n 90)%bool then ascii_of_nat (n + 32) else c.

Fixpoint lower (s : string) : string :=
  match s with
  | EmptyString => EmptyString
  | String c s' => String (lower_ascii c) (lower s')
  end.

Fixpoint is_prefix (a b : string) : bool :=
  match a, b with
  | EmptyString, _ => true
  | String x a', String y b' => (Ascii.eqb x y && is_prefix a' b')%bool
  | String _ _, EmptyString => false
  end.

Fixpoint contains (a b : string) : bool :=
  (is_prefix a b ||
   match b with
   | EmptyString => false
   | String _ b' => contains a b'
   end)%bool.

(** [v.lower()] *)
Definition py_lower (v : pyval) : res string :=
  match v with
  | PStr s => Ok (lower s)
  | _ => Raise AttributeError
  end.

(** [len(s.split(','))]: one more than the number of commas *)
Fixpoint count_commas (s : string) : Z :=
  match s with
  | EmptyString => 0
  | String c s' => (if Ascii.eqb c "," then 1 else 0) + count_commas s'
  end.

Definition split_len (s : string) : Z := count_commas s + 1.

(** ** Scores and reasons *)

Definition pts (n : Z) : Z := 2 * n.

Inductive reason :=
| NotAvailableIn (state : pyval)
| NotAccepting
| SpecializesIn (matter_type : string)
| ExpertIn (expertise : string)
| HandlesRegularly (sub_category : string)
| HasExperienceWith (expertise : string)
| PracticesIn (state : string)
| FamiliarWith (district : string)
| HomeCourtIs (home_court : string)
| YearsOfPractice (years : Z)
| SeniorCounsel
| HighCourtExperience
| ReportedJudgments (n : Z)
| ExcellentAvailability
| GoodAvailability
| ModerateAvailability
| FeeMatches (fee : string)
| FeeCompatible (fee : string)
| Speaks (langs : list string)
| HighlyRated (rating : Q) (reviews : option Z)
| WellRated (rating : Q)
| SelectedByClient.




Definition acc : Type := Z * list reason.

Definition nothing : acc := (0, []).

Definition add (a b : acc) : acc := (a.1 + b.1, a.2 ++ b.2).

(** [set(a) & set(b)]: the distinct items of [a] that occur in [b].  The
    iteration order of a Python set is unspecified; the model lists the
    items in order of first occurrence in [a]. *)
Definition set_inter (a b : list string) : list string :=
  remove_dups (filter (fun x => x ∈ b) a).

(** [x < y], [x >= y] on rationals *)
Definition Qltb (x y : Q) : bool := negb (Qle_bool y x).
Definition Qgeb (x y : Q) : bool := Qle_bool y x.

(** The first item of [specific_expertise] that occurs, lower-cased, inside
    some lower-cased sub-specialization. *)
Definition first_expertise (expertise : list string) (subs : list string)
  : option string :=
  List.find (fun e => existsb (fun sub => contains (lower e) (lower sub)) subs)
    expertise.

(** The four-entry tables of both scorers; an unhashable key raises. *)
Definition complexity_requirements (complexity : pyval) : res Z :=
  match complexity with
  | PList _ => Raise TypeError
  | PStr s =>
      Ok (if String.eqb s "simple" then 3
          else if String.eqb s "moderate" then 5
          else if String.eqb s "complex" then 10
          else if String.eqb s "highly_complex" then 15
          else 5)
  | _ => Ok 5
  end.

Definition fee_mapping (budget : pyval) : res (list string) :=
  match budget with
  | PList _ => Raise TypeError
  | PStr s =>
      Ok (if String.eqb s "pro_bono" then ["affordable"; "pro_bono"]
          else if String.eqb s "affordable" then ["affordable"; "standard"]
          else if String.eqb s "standard" then ["standard"; "affordable"; "premium"]
          else if String.eqb s "premium" then ["premium"; "standard"]
          else ["standard"])
  | _ => Ok ["standard"]
  end.

(** ** The backend's models ([backend/app/models])

    Only the columns read or written by the code below are kept.  A
    nullable column is an [option]; identifiers are opaque numbers and
    timestamps are integers. *)

Abbreviation uuid := N (only parsing).
Abbreviation datetime := Z (only parsing).

Module User.
Record t := mk {
  id : uuid;
  full_name : string;
  is_active : bool
}.
End User.

Module AdvocateProfile.
Inductive FeeCategory := PREMIUM | STANDARD | AFFORDABLE | PRO_BONO.

Definition value (f : FeeCategory) : string :=
  match f with
  | PREMIUM => "premium"
  | STANDARD => "standard"
  | AFFORDABLE => "affordable"
  | PRO_BONO => "pro_bono"
  end.

(** The [Integer] columns ([experience_years], [current_case_load],
    [max_case_capacity], [review_count]) are integers here; a value that a
    handler writes is checked against the column's 32-bit range when it is
    flushed ([flush_Integer] below). *)
Record t := mk {
  id : uuid;
  user_id : uuid;
  states : option (list string);
  districts : option (list string);
  home_court : option string;
  primary_specializations : option (list string);
  sub_specializations : option (list string);
  experience_years : option Z;
  landmark_cases : option string;
  success_rate : option Q;
  current_case_load : option Z;
  max_case_capacity : option Z;
  fee_category : option FeeCategory;
  languages : option (list string);
  rating : option Q;
  review_count : option Z;
  is_available : option bool
}.

Definition set_current_case_load v (c : t) : t :=
  mk (id c) (user_id c) (states c) (districts c) (home_court c)
     (primary_specializations c) (sub_specializations c) (experience_years c)
     (landmark_cases c) (success_rate c) v (max_case_capacity c) (fee_category c)
     (languages c) (rating c) (review_count c) (is_available c).
Definition set_is_available v (c : t) : t :=
  mk (id c) (user_id c) (states c) (districts c) (home_court c) (primary_specializations
     c) (sub_specializations c) (experience_years c) (landmark_cases c) (success_rate c)
     (current_case_load c) (max_case_capacity c) (fee_category c) (languages c) (rating
     c) (review_count c) v.
Definition set_experience_years v (c : t) : t :=
  mk (id c) (user_id c) (states c) (districts c) (home_court c) (primary_specializations
     c) (sub_specializations c) v (landmark_cases c) (success_rate c) (current_case_load
     c) (max_case_capacity c) (fee_category c) (languages c) (rating c) (review_count c)
     (is_available c).
Definition set_rating v (c : t) : t :=
  mk (id c) (user_id c) (states c) (districts c) (home_court c) (primary_specializations
     c) (sub_specializations c) (experience_years c) (landmark_cases c) (success_rate c)
     (current_case_load c) (max_case_capacity c) (fee_category c) (languages c) v
     (review_count c) (is_available c).
End AdvocateProfile.

(** [x or d] for a nullable list, integer or string column *)
Definition or_list (x : option (list string)) : list string :=
  match x with Some l => l | None => [] end.

Definition or_int (x : option Z) (d : Z) : Z :=
  match x with
  | Some z => if z =? 0 then d else z
  | None => d
  end.

Definition str_truthy (x : option string) : bool :=
  match x with
  | Some s => negb (String.eqb s "")
  | None => false
  end.

Definition dec_truthy (x : option Q) : bool :=
  match x with
  | Some q => negb (Qeq_bool q 0)
  | None => false
  end.

Definition bool_truthy (x : option bool) : bool :=
  match x with
  | Some b => b
  | None => false
  end.

Definition nonempty {A} (l : list A) : bool :=
  match l with [] => false | _ => true end.

Module Case.
Inductive CaseStatus :=
| AI_CONVERSATION
| PENDING_ADVOCATE
| ADVOCATE_ASSIGNED
| ADVOCATE_REJECTED
| IN_PROGRESS
| COMPLETED
| CLOSED.

Inductive AdvocateResponse := PENDING | ACCEPTED | REJECTED.

(** The case-profile columns hold what was extracted, as a Python value
    ([PNone] for NULL). *)
Record t := mk {
  id : uuid;
  client_id : uuid;
  advocate_id : option uuid;
  conversation_id : option uuid;
  matter_type : pyval;
  sub_category : pyval;
  state : pyval;
  district : pyval;
  court_level : pyval;
  complexity : pyval;
  urgency : pyval;
  amount_in_dispute : pyval;
  case_summary : pyval;
  extracted_facts : option (gmap string pyval);
  status : CaseStatus;
  selected_advocate_id : option uuid;
  advocate_response : option AdvocateResponse;
  rejection_reason : option string;
  updated_at : option datetime
}.

#[global] Instance CaseStatus_eq_dec : EqDecision CaseStatus.
Proof. solve_decision. Defined.

Definition set_advocate_id v (c : t) : t :=
  mk (id c) (client_id c) v (conversation_id c) (matter_type c) (sub_category c)
     (state c) (district c) (court_level c) (complexity c) (urgency c)
     (amount_in_dispute c) (case_summary c) (extracted_facts c) (status c)
     (selected_advocate_id c) (advocate_response c) (rejection_reason c) (updated_at
     c).
Definition set_matter_type v (c : t) : t :=
  mk (id c) (client_id c) (advocate_id c) (conversation_id c) v (sub_category c)
     (state c) (district c) (court_level c) (complexity c) (urgency c)
     (amount_in_dispute c) (case_summary c) (extracted_facts c) (status c)
     (selected_advocate_id c) (advocate_response c) (rejection_reason c) (updated_at
     c).
Definition set_sub_category v (c : t) : t :=
  mk (id c) (client_id c) (advocate_id c) (conversation_id c) (matter_type c) v (state
     c) (district c) (court_level c) (complexity c) (urgency c) (amount_in_dispute c)
     (case_summary c) (extracted_facts c) (status c) (selected_advocate_id c)
     (advocate_response c) (rejection_reason c) (updated_at c).
Definition set_state v (c : t) : t :=
  mk (id c) (client_id c) (advocate_id c) (conversation_id c) (matter_type c)
     (sub_category c) v (district c) (court_level c) (complexity c) (urgency c)
     (amount_in_dispute c) (case_summary c) (extracted_facts c) (status c)
     (selected_advocate_id c) (advocate_response c) (rejection_reason c) (updated_at
     c).
Definition set_district v (c : t) : t :=
  mk (id c) (client_id c) (advocate_id c) (conversation_id c) (matter_type c)
     (sub_category c) (state c) v (court_level c) (complexity c) (urgency c)
     (amount_in_dispute c) (case_summary c) (extracted_facts c) (status c)
     (selected_advocate_id c) (advocate_response c) (rejection_reason c) (updated_at
     c).
Definition set_court_level v (c : t) : t :=
  mk (id c) (client_id c) (advocate_id c) (conversation_id c) (matter_type c)
     (sub_category c) (state c) (district c) v (complexity c) (urgency c)
     (amount_in_dispute c) (case_summary c) (extracted_facts c) (status c)
     (selected_advocate_id c) (advocate_response c) (rejection_reason c) (updated_at
     c).
Definition set_complexity v (c : t) : t :=
  mk (id c) (client_id c) (advocate_id c) (conversation_id c) (matter_type c)
     (sub_category c) (state c) (district c) (court_level c) v (urgency c)
     (amount_in_dispute c) (case_summary c) (extracted_facts c) (status c)
     (selected_advocate_id c) (advocate_response c) (rejection_reason c) (updated_at
     c).
Definition set_urgency v (c : t) : t :=
  mk (id c) (client_id c) (advocate_id c) (conversation_id c) (matter_type c)
     (sub_category c) (state c) (district c) (court_level c) (complexity c) v
     (amount_in_dispute c) (case_summary c) (extracted_facts c) (status c)
     (selected_advocate_id c) (advocate_response c) (rejection_reason c) (updated_at
     c).
Definition set_amount_in_dispute v (c : t) : t :=
  mk (id c) (client_id c) (advocate_id c) (conversation_id c) (matter_type c)
     (sub_category c) (state c) (district c) (court_level c) (complexity c) (urgency
     c) v (case_summary c) (extracted_facts c) (status c) (selected_advocate_id c)
     (advocate_response c) (rejection_reason c) (updated_at c).
Definition set_case_summary v (c : t) : t :=
  mk (id c) (client_id c) (advocate_id c) (conversation_id c) (matter_type c)
     (sub_category c) (state c) (district c) (court_level c) (complexity c) (urgency
     c) (amount_in_dispute c) v (extracted_facts c) (status c) (selected_advocate_id
     c) (advocate_response c) (rejection_reason c) (updated_at c).
Definition set_status v (c : t) : t :=
  mk (id c) (client_id c) (advocate_id c) (conversation_id c) (matter_type c)
     (sub_category c) (state c) (district c) (court_level c) (complexity c) (urgency
     c) (amount_in_dispute c) (case_summary c) (extracted_facts c) v
     (selected_advocate_id c) (advocate_response c) (rejection_reason c) (updated_at
     c).
Definition set_selected_advocate_id v (c : t) : t :=
  mk (id c) (client_id c) (advocate_id c) (conversation_id c) (matter_type c)
     (sub_category c) (state c) (district c) (court_level c) (complexity c) (urgency
     c) (amount_in_dispute c) (case_summary c) (extracted_facts c) (status c) v
     (advocate_response c) (rejection_reason c) (updated_at c).
Definition set_advocate_response v (c : t) : t :=
  mk (id c) (client_id c) (advocate_id c) (conversation_id c) (matter_type c)
     (sub_category c) (state c) (district c) (court_level c) (complexity c) (urgency
     c) (amount_in_dispute c) (case_summary c) (extracted_facts c) (status c)
     (selected_advocate_id c) v (rejection_reason c) (updated_at c).
Definition set_rejection_reason v (c : t) : t :=
  mk (id c) (client_id c) (advocate_id c) (conversation_id c) (matter_type c)
     (sub_category c) (state c) (district c) (court_level c) (complexity c) (urgency
     c) (amount_in_dispute c) (case_summary c) (extracted_facts c) (status c)
     (selected_advocate_id c) (advocate_response c) v (updated_at c).
Definition set_updated_at v (c : t) : t :=
  mk (id c) (client_id c) (advocate_id c) (conversation_id c) (matter_type c)
     (sub_category c) (state c) (district c) (court_level c) (complexity c) (urgency
     c) (amount_in_dispute c) (case_summary c) (extracted_facts c) (status c)
     (selected_advocate_id c) (advocate_response c) (rejection_reason c) v.

(** [hasattr(case, key)] and [setattr(case, key, value)] for the
    case-profile columns.  The extraction dictionary is assumed not to
    name the other attributes of [Case]. *)
Definition setattr (key : string) (value : pyval) (c : t) : option t :=
  if String.eqb key "matter_type" then Some (set_matter_type value c)
  else if String.eqb key "sub_category" then Some (set_sub_category value c)
  else if String.eqb key "state" then Some (set_state value c)
  else if String.eqb key "district" then Some (set_district value c)
  else if String.eqb key "court_level" then Some (set_court_level value c)
  else if String.eqb key "complexity" then Some (set_complexity value c)
  else if String.eqb key "urgency" then Some (set_urgency value c)
  else if String.eqb key "amount_in_dispute" then Some (set_amount_in_dispute value c)
  else if String.eqb key "case_summary" then Some (set_case_summary value c)
  else None.
End Case.

Module AdvocateCaseRequest.
Inductive RequestStatus := PENDING | ACCEPTED | REJECTED.

#[global] Instance RequestStatus_eq_dec : EqDecision RequestStatus.
Proof. solve_decision. Defined.

(** [match_explanation] is the list of reasons that the source joins
    with ["; "]. *)
Record t := mk {
  id : uuid;
  case_id : uuid;
  advocate_id : uuid;
  client_id : uuid;
  match_score : option Z;
  match_explanation : list reason;
  status : RequestStatus;
  response_at : option datetime;
  rejection_reason : option string
}.

Definition set_status v (c : t) : t :=
  mk (id c) (case_id c) (advocate_id c) (client_id c) (match_score c)
     (match_explanation c) v (response_at c) (rejection_reason c).
Definition set_response_at v (c : t) : t :=
  mk (id c) (case_id c) (advocate_id c) (client_id c) (match_score c)
     (match_explanation c) (status c) v (rejection_reason c).
Definition set_rejection_reason v (c : t) : t :=
  mk (id c) (case_id c) (advocate_id c) (client_id c) (match_score c)
     (match_explanation c) (status c) (response_at c) v.
End AdvocateCaseRequest.

Module Conversation.
Inductive ConversationPhase :=
| AI_INTERVIEW
| AI_COUNSELLING
| AI_DRAFTING
| ADVOCATE_REVIEW
| ADVOCATE_ACTIVE.

#[global] Instance ConversationPhase_eq_dec : EqDecision ConversationPhase.
Proof. solve_decision. Defined.

Record t := mk {
  id : uuid;
  case_id : option uuid;
  client_id : uuid;
  phase : ConversationPhase;
  updated_at : option datetime
}.

Definition set_case_id v (c : t) : t :=
  mk (id c) v (client_id c) (phase c) (updated_at c).
Definition set_phase v (c : t) : t :=
  mk (id c) (case_id c) (client_id c) v (updated_at c).
Definition set_updated_at v (c : t) : t :=
  mk (id c) (case_id c) (client_id c) (phase c) v.
End Conversation.

Module Message.
Inductive SenderType := CLIENT | AI | ADVOCATE.
Inductive MessageType := TEXT | FILE | DOCUMENT | SYSTEM.

Record t := mk {
  conversation_id : uuid;
  sender_type : SenderType;
  sender_id : option uuid;
  message_type : MessageType
}.
End Message.

Module Notification.
Record t := mk {
  user_id : uuid;
  type : string
}.
End Notification.

(** ** The database

    Cases and conversations are looked up by primary key; the other
    tables are row lists in storage order. *)

Record db := mkdb {
  users : list User.t;
  advocate_profiles : list AdvocateProfile.t;
  cases : gmap N Case.t;
  conversations : gmap N Conversation.t;
  advocate_case_requests : list AdvocateCaseRequest.t;
  messages : list Message.t;
  notifications : list Notification.t
}.

Definition set_advocate_profiles v (d : db) : db :=
  mkdb (users d) v (cases d) (conversations d) (advocate_case_requests d) (messages d)
     (notifications d).
Definition set_cases v (d : db) : db :=
  mkdb (users d) (advocate_profiles d) v (conversations d) (advocate_case_requests d)
     (messages d) (notifications d).
Definition set_conversations v (d : db) : db :=
  mkdb (users d) (advocate_profiles d) (cases d) v (advocate_case_requests d) (messages
     d) (notifications d).
Definition set_advocate_case_requests v (d : db) : db :=
  mkdb (users d) (advocate_profiles d) (cases d) (conversations d) v (messages d)
     (notifications d).
Definition set_messages v (d : db) : db :=
  mkdb (users d) (advocate_profiles d) (cases d) (conversations d)
     (advocate_case_requests d) v (notifications d).
Definition set_notifications v (d : db) : db :=
  mkdb (users d) (advocate_profiles d) (cases d) (conversations d)
     (advocate_case_requests d) (messages d) v.

(** [Result.scalar_one_or_none], [Result.scalar_one], [Result.first] *)
Definition scalar_one_or_none {A} (rows : list A) : res (option A) :=
  match rows with
  | [] => Ok None
  | [x] => Ok (Some x)
  | _ => Raise MultipleResultsFound
  end.

Definition scalar_one {A} (rows : list A) : res A :=
  match rows with
  | [] => Raise NoResultFound
  | [x] => Ok x
  | _ => Raise MultipleResultsFound
  end.

Definition first {A} (rows : list A) : option A :=
  match rows with
  | [] => None
  | x :: _ => Some x
  end.

(** [select(AdvocateProfile, User).join(User, AdvocateProfile.user_id == User.id)] *)
Definition join_profiles_users (d : db) : list (AdvocateProfile.t * User.t) :=
  p ← advocate_profiles d;
  u ← users d;
  if bool_decide (AdvocateProfile.user_id p = User.id u) then [(p, u)] else [].

(** ** Ranking *)

(** The fields of a recommendation dictionary that the ranking and its
    callers read; [I] is the type of advocate identifiers. *)
Record recommendation (I : Type) := mkrec {
  advocate_id : I;
  match_score : Z;
  match_reasons : list reason;
  rating : Q;
  review_count : option Z
}.
Arguments mkrec {I}.
Arguments advocate_id {I}.
Arguments match_score {I}.
Arguments match_reasons {I}.
Arguments rating {I}.
Arguments review_count {I}.

(** [l.sort(key=lambda x: x["match_score"], reverse=True)]: Python's sort
    is stable, also with [reverse=True]. *)
Fixpoint insert_desc {A} (key : A -> Z) (x : A) (l : list A) : list A :=
  match l with
  | [] => [x]
  | y :: l' => if key x <? key y then y :: insert_desc key x l' else x :: y :: l'
  end.

Definition sort_desc {A} (key : A -> Z) (l : list A) : list A :=
  foldr (insert_desc key) [] l.

(** [l[:limit]] *)
Definition slice_to {A} (limit : Z) (l : list A) : list A :=
  if 0 <=? limit then take (Z.to_nat limit) l
  else take (List.length l - Z.to_nat (- limit)) l.

(** ** The clauses shared by both scorers

    Each banner section of the two score functions is one definition; it
    returns the points it adds and the reasons it appends. *)

(** The text that an f-string inserts for a value known to be a [str] *)
Definition str_of (v : pyval) : string :=
  match v with PStr s => s | _ => "" end.

(** The loop over [specific_expertise] with its [break] *)
Definition expertise_loop (specific_expertise : pyval) (sub_specs : list string)
    (bonus : Z) (r : string -> reason) : res acc :=
  items ← py_iter specific_expertise;
  match first_expertise items sub_specs with
  | Some expertise => Ok (pts bonus, [r expertise])
  | None => Ok nothing
  end.

(** [if sub_category:] and the loop over the sub-specializations with its
    [break]; [sub_category.lower()] is evaluated inside the loop. *)
Definition sub_category_loop (sub_category : pyval) (sub_specs : list string)
  : res acc :=
  if truthy sub_category then
    match sub_specs with
    | [] => Ok nothing
    | _ :: _ =>
        sc ← py_lower sub_category;
        if existsb (fun sub => contains sc (lower sub) || contains (lower sub) sc)
             sub_specs
        then Ok (pts 5, [HandlesRegularly (str_of sub_category)])
        else Ok nothing
    end
  else Ok nothing.

Definition experience_alignment (complexity : pyval) (years : Z) : res acc :=
  min_years ← complexity_requirements complexity;
  if min_years <=? years
  then Ok (Z.min (pts 15) (pts 8 + (years - min_years)), [YearsOfPractice years])
  else Ok (pts 5, []).

Definition availability (workload_ratio : Q) (urgency : pyval) : acc :=
  if Qltb workload_ratio (5 # 10) then (pts 10, [ExcellentAvailability])
  else if Qltb workload_ratio (7 # 10) then (pts 7, [GoodAvailability])
  else if Qltb workload_ratio (9 # 10) then (pts 4, [ModerateAvailability])
  else if py_eq_str urgency "urgent" then (pts 2 - pts 5, [])
  else (pts 2, []).

Definition fee_alignment (budget : pyval) (advocate_fee : string) : res acc :=
  acceptable_fees ← fee_mapping budget;
  if bool_decide (advocate_fee ∈ acceptable_fees) then
    if py_eq_str budget advocate_fee
    then Ok (pts 10, [FeeMatches advocate_fee])
    else Ok (pts 6, [FeeCompatible advocate_fee])
  else Ok (pts 2, []).

Definition language_match (requested advocate_languages : list string) : acc :=
  let matching_languages := set_inter requested advocate_languages in
  if nonempty matching_languages
  then (Z.min (pts 5) (pts (Z.of_nat (List.length matching_languages) * 2)),
        [Speaks matching_languages])
  else nothing.

Definition rating_bonus (rating : Q) (reviews : option Z) : acc :=
  if Qgeb rating (45 # 10) then (pts 5, [HighlyRated rating reviews])
  else if Qgeb rating (40 # 10) then (pts 3, [WellRated rating])
  else nothing.

(** ** [MatchingService._calculate_match_score] *)

Module Backend.
Import AdvocateProfile.

Definition specialization_match (matter_type sub_category specific_expertise : pyval)
    (advocate_specializations advocate_sub_specs : list string) : res acc :=
  if truthy matter_type && py_in matter_type advocate_specializations then
    e ← (if truthy specific_expertise
         then expertise_loop specific_expertise advocate_sub_specs 5 ExpertIn
         else Ok nothing);
    s ← sub_category_loop sub_category advocate_sub_specs;
    Ok (add (add (pts 20, [SpecializesIn (str_of matter_type)]) e) s)
  else if truthy specific_expertise
  then expertise_loop specific_expertise advocate_sub_specs 10 HasExperienceWith
  else Ok nothing.

Definition geographic_match (profile : AdvocateProfile.t)
    (state district court_level : pyval)
    (advocate_states advocate_districts : list string) : res acc :=
  let a :=
    if py_in state advocate_states
    then (pts 10, [PracticesIn (str_of state)])
    else nothing in
  let b :=
    if truthy district && py_in district advocate_districts
    then (pts 10, [FamiliarWith (str_of district)])
    else nothing in
  c ← (if py_eq_str court_level "high_court" && str_truthy (home_court profile) then
         st ← py_lower state;
         let hc := default "" (home_court profile) in
         if contains st (lower hc)
         then Ok (pts 5, [HomeCourtIs hc])
         else Ok nothing
       else Ok nothing);
  Ok (add (add a b) c).

Definition court_level_experience (profile : AdvocateProfile.t) (court_level : pyval)
  : acc :=
  if py_eq_str court_level "high_court" && str_truthy (landmark_cases profile) then
    let landmark_count := split_len (default "" (landmark_cases profile)) in
    if 5 <? landmark_count then (pts 3, [HighCourtExperience]) else nothing
  else nothing.

Definition workload_ratio (profile : AdvocateProfile.t) : Q :=
  let max_capacity := or_int (max_case_capacity profile) 20 in
  let current_load := or_int (current_case_load profile) 0 in
  if 0 <? max_capacity
  then (inject_Z current_load / inject_Z max_capacity)%Q
  else 0%Q.

Definition success_rate_bonus (profile : AdvocateProfile.t) : acc :=
  if dec_truthy (success_rate profile) then
    let success_rate := default 0%Q (success_rate profile) in
    if Qgeb success_rate 80 then (pts 3, [])
    else if Qgeb success_rate 60 then (pts 1, [])
    else nothing
  else nothing.

(** [advocate_fee] and [rating], two locals of the function *)
Definition advocate_fee (profile : AdvocateProfile.t) : string :=
  match fee_category profile with
  | Some f => value f
  | None => "standard"
  end.

Definition rating_value (profile : AdvocateProfile.t) : Q :=
  if dec_truthy (rating profile) then default 0%Q (rating profile) else 0%Q.

(** The body of [_calculate_match_score] past the hard filters, before
    the final [min(100.0, score)]. *)
Definition clauses (profile : AdvocateProfile.t) (case_profile : gmap string pyval)
  : res acc :=
  let matter_type := get case_profile "matter_type" (PStr "") in
  let sub_category := get case_profile "sub_category" (PStr "") in
  let state := get case_profile "state" (PStr "") in
  let district := get case_profile "district" (PStr "") in
  let court_level := get case_profile "court_level" (PStr "district") in
  let complexity :=
    get case_profile "complexity"
      (get case_profile "estimated_complexity" (PStr "moderate")) in
  let urgency :=
    get case_profile "urgency"
      (get case_profile "urgency_level" (PStr "normal")) in
  let languages :=
    get case_profile "preferred_languages" (PList ["Hindi"; "English"]) in
  let budget := get case_profile "budget_category" (PStr "standard") in
  let specific_expertise := get case_profile "specific_expertise_needed" (PList []) in
  let advocate_states := or_list (states profile) in
  let advocate_districts := or_list (districts profile) in
  let advocate_specializations := or_list (primary_specializations profile) in
  let advocate_sub_specs := or_list (sub_specializations profile) in
  let advocate_languages := or_list (AdvocateProfile.languages profile) in
  c1 ← specialization_match matter_type sub_category specific_expertise
         advocate_specializations advocate_sub_specs;
  c2 ← geographic_match profile state district court_level
         advocate_states advocate_districts;
  c3 ← experience_alignment complexity (or_int (experience_years profile) 0);
  let c4 := court_level_experience profile court_level in
  let c5 := availability (workload_ratio profile) urgency in
  c6 ← fee_alignment budget (advocate_fee profile);
  requested ← (if truthy languages then py_iter languages else Ok []);
  let c7 := language_match requested advocate_languages in
  let c8 := rating_bonus (rating_value profile) (review_count profile) in
  let c9 := success_rate_bonus profile in
  Ok (add (add (add (add (add (add (add (add c1 c2) c3) c4) c5) c6) c7) c8) c9).

(** The first hard filter:
    [state and advocate_states and state not in advocate_states] *)
Definition excluded_by_jurisdiction (profile : AdvocateProfile.t)
    (case_profile : gmap string pyval) : bool :=
  let state := get case_profile "state" (PStr "") in
  let advocate_states := or_list (states profile) in
  truthy state && nonempty advocate_states && negb (py_in state advocate_states).

Definition _calculate_match_score (profile : AdvocateProfile.t) (user : User.t)
    (case_profile : gmap string pyval) : res acc :=
  let state := get case_profile "state" (PStr "") in
  if excluded_by_jurisdiction profile case_profile
  then Ok (0, [NotAvailableIn state])
  else if negb (bool_truthy (is_available profile))
  then Ok (0, [NotAccepting])
  else
    '(score, reasons) ← clauses profile case_profile;
    Ok (Z.min (pts 100) score, reasons).

(** The scoring loop of [get_recommendations]; [round(score, 1)] leaves a
    multiple of 0.5 unchanged. *)
Fixpoint score_rows (rows : list (AdvocateProfile.t * User.t))
    (case_profile : gmap string pyval) : res (list (recommendation N)) :=
  match rows with
  | [] => Ok []
  | (advocate_profile, user) :: rest =>
      '(score, reasons) ← _calculate_match_score advocate_profile user case_profile;
      recommendations ← score_rows rest case_profile;
      if 0 <? score
      then Ok (mkrec (User.id user) score reasons
                 (rating_value advocate_profile)
                 (AdvocateProfile.review_count advocate_profile)
               :: recommendations)
      else Ok recommendations
  end.

(** The query of [get_recommendations]: available profiles of active users *)
Definition available_advocates (d : db) : list (AdvocateProfile.t * User.t) :=
  filter (fun '(p, u) => AdvocateProfile.is_available p = Some true
                         ∧ User.is_active u = true)
    (join_profiles_users d).

(** [limit] is [None] when the caller omits the argument ([limit: int = 5]). *)
Definition get_recommendations (d : db) (case_profile : gmap string pyval)
    (limit : option Z) : res (list (recommendation N)) :=
  let advocates := available_advocates d in
  recommendations ← score_rows advocates case_profile;
  Ok (slice_to (default 5 limit) (sort_desc match_score recommendations)).

Definition get_advocate_by_id (d : db) (advocate_id : N)
  : option (AdvocateProfile.t * User.t) :=
  first (filter (fun '(p, u) => User.id u = advocate_id) (join_profiles_users d)).

(** [_get_availability_status]; the ratio is computed as in the scorer. *)
Definition _get_availability_status (profile : AdvocateProfile.t) : string :=
  let ratio := workload_ratio profile in
  if Qltb ratio (5 # 10) then "High"
  else if Qltb ratio (8 # 10) then "Moderate"
  else "Limited".
End Backend.

(** ** [calculate_advocate_match_score] of the bot *)

Module Bot.
Record AdvocateProfile := mk {
  advocate_id : string;
  name : string;
  practicing_states : list string;
  practicing_districts : list string;
  home_court : string;
  specializations : list string;
  sub_specializations : list string;
  years_of_practice : Z;
  landmark_cases : Z;
  success_rate_category : string;
  current_case_load : Z;
  max_case_load : Z;
  available_for_new_cases : bool;
  fee_category : string;
  languages : list string;
  rating : Q;
  total_reviews : Z
}.

Definition specialization_match (advocate : AdvocateProfile)
    (matter_type sub_category specific_expertise : pyval) : res acc :=
  if py_in matter_type (specializations advocate) then
    e ← expertise_loop specific_expertise (sub_specializations advocate) 5 ExpertIn;
    s ← sub_category_loop sub_category (sub_specializations advocate);
    Ok (add (add (pts 20, [SpecializesIn (str_of matter_type)]) e) s)
  else
    expertise_loop specific_expertise (sub_specializations advocate)
      10 HasExperienceWith.

Definition geographic_match (advocate : AdvocateProfile)
    (state district court_level : pyval) : res acc :=
  let a := (pts 10, [PracticesIn (str_of state)]) in
  let b :=
    if py_in district (practicing_districts advocate)
    then (pts 10, [FamiliarWith (str_of district)])
    else nothing in
  c ← (if py_eq_str court_level "high_court" then
         st ← py_lower state;
         if contains st (lower (home_court advocate))
         then Ok (pts 5, [HomeCourtIs (home_court advocate)])
         else Ok nothing
       else Ok nothing);
  Ok (add (add a b) c).

Definition senior_counsel (advocate : AdvocateProfile) (requires_senior : pyval)
  : acc :=
  if truthy requires_senior && (15 <=? years_of_practice advocate)
  then (pts 5, [SeniorCounsel])
  else nothing.

Definition court_level_experience (advocate : AdvocateProfile) (court_level : pyval)
  : acc :=
  if py_eq_str court_level "high_court" && (5 <? landmark_cases advocate)
  then (pts 3, [ReportedJudgments (landmark_cases advocate)])
  else nothing.

Definition workload_ratio (advocate : AdvocateProfile) : res Q :=
  if max_case_load advocate =? 0 then Raise ZeroDivisionError
  else Ok (inject_Z (current_case_load advocate)
           / inject_Z (max_case_load advocate))%Q.

Definition success_rate_bonus (advocate : AdvocateProfile) : acc :=
  if String.eqb (success_rate_category advocate) "excellent" then (pts 3, [])
  else if String.eqb (success_rate_category advocate) "good" then (pts 1, [])
  else nothing.

(** The body of [calculate_advocate_match_score] past the hard filters,
    before the final [min(100.0, score)]. *)
Definition clauses (advocate : AdvocateProfile) (case_profile : gmap string pyval)
  : res acc :=
  let matter_type := get case_profile "matter_type" (PStr "") in
  let sub_category := get case_profile "sub_category" (PStr "") in
  let state := get case_profile "state" (PStr "") in
  let district := get case_profile "district" (PStr "") in
  let court_level := get case_profile "court_level" (PStr "district") in
  let complexity := get case_profile "estimated_complexity" (PStr "moderate") in
  let urgency := get case_profile "urgency_level" (PStr "normal") in
  let languages :=
    get case_profile "preferred_languages" (PList ["Hindi"; "English"]) in
  let budget := get case_profile "budget_category" (PStr "standard") in
  let requires_senior := get case_profile "requires_senior_counsel" (PBool false) in
  let specific_expertise := get case_profile "specific_expertise_needed" (PList []) in
  c1 ← specialization_match advocate matter_type sub_category specific_expertise;
  c2 ← geographic_match advocate state district court_level;
  c3 ← experience_alignment complexity (years_of_practice advocate);
  let c3s := senior_counsel advocate requires_senior in
  let c4 := court_level_experience advocate court_level in
  ratio ← workload_ratio advocate;
  let c5 := availability ratio urgency in
  c6 ← fee_alignment budget (fee_category advocate);
  requested ← py_iter languages;
  let c7 := language_match requested (Bot.languages advocate) in
  let c8 := rating_bonus (rating advocate) (Some (total_reviews advocate)) in
  let c9 := success_rate_bonus advocate in
  Ok (add (add (add (add (add (add (add (add (add c1 c2) c3) c3s) c4) c5) c6) c7)
             c8) c9).

(** The first hard filter: [state not in advocate.practicing_states] *)
Definition excluded_by_jurisdiction (advocate : AdvocateProfile)
    (case_profile : gmap string pyval) : bool :=
  negb (py_in (get case_profile "state" (PStr "")) (practicing_states advocate)).

Definition calculate_advocate_match_score (advocate : AdvocateProfile)
    (case_profile : gmap string pyval) : res acc :=
  let state := get case_profile "state" (PStr "") in
  if excluded_by_jurisdiction advocate case_profile then
    match state with
    | PStr _ => Ok (0, [NotAvailableIn state])
    | _ => Raise TypeError
    end
  else if negb (available_for_new_cases advocate)
  then Ok (0, [NotAccepting])
  else
    '(score, reasons) ← clauses advocate case_profile;
    Ok (Z.min (pts 100) score, reasons).

(** The loop of [execute_recommend_advocates_tool] over the registry, a
    dictionary listed in insertion order. *)
Fixpoint score_registry (registry : list (string * AdvocateProfile))
    (tool_input : gmap string pyval) : res (list (recommendation string)) :=
  match registry with
  | [] => Ok []
  | (adv_id, advocate) :: rest =>
      '(score, reasons) ← calculate_advocate_match_score advocate tool_input;
      recommendations ← score_registry rest tool_input;
      if 0 <? score
      then Ok (mkrec adv_id score reasons (rating advocate)
                 (Some (total_reviews advocate)) :: recommendations)
      else Ok recommendations
  end.

(** The ["recommendations"] entry of the tool's result *)
Definition execute_recommend_advocates_tool (registry : list (string * AdvocateProfile))
    (tool_input : gmap string pyval) : res (list (recommendation string)) :=
  recommendations ← score_registry registry tool_input;
  Ok (slice_to 5 (sort_desc match_score recommendations)).
End Bot.

(** ** Sessions

    A request handler works on the session's view of the database;
    [commit] makes that view durable.  When the handler raises, the session
    is closed and what was not committed is lost, so the database after a
    request is the last committed one. *)

Record session := mks { committed : db; working : db }.

Definition M (A : Type) : Type := session -> res A * session.

#[global] Instance M_ret : MRet M := fun A a s => (Ok a, s).
#[global] Instance M_bind : MBind M := fun A B f m s =>
  match m s with
  | (Ok a, s') => f a s'
  | (Raise e, s') => (Raise e, s')
  end.

Definition raise {A} (e : pyexn) : M A := fun s => (Raise e, s).
Definition lift {A} (r : res A) : M A := fun s => (r, s).
Definition read : M db := fun s => (Ok (working s), s).
Definition modify (f : db -> db) : M unit :=
  fun s => (Ok tt, mks (committed s) (f (working s))).
Definition commit : M unit :=
  fun s => (Ok tt, mks (working s) (working s)).

Definition run {A} (m : M A) (d : db) : res A * db :=
  let '(r, s) := m (mks d d) in (r, committed s).

(** [NotificationService.create_notification]: the row is added and
    committed; real-time delivery is outside the database. *)
Definition create_notification (user_id : N) (notification_type : string) : M unit :=
  modify (fun d => set_notifications
                     (notifications d ++ [Notification.mk user_id notification_type]) d);;
  commit.

(** In-place updates of loaded rows.  A case or conversation is the row
    under the key it was loaded by; a request or profile row is found again
    by its primary key. *)
Definition update_request (f : AdvocateCaseRequest.t -> AdvocateCaseRequest.t)
    (request_id : N) : M unit :=
  modify (fun d => set_advocate_case_requests
                     (map (fun r => if bool_decide (AdvocateCaseRequest.id r = request_id)
                                    then f r else r)
                        (advocate_case_requests d)) d).

Definition update_case (f : Case.t -> Case.t) (case_id : N) : M unit :=
  modify (fun d => set_cases (alter f case_id (cases d)) d).

Definition update_conversation (f : Conversation.t -> Conversation.t)
    (conversation_id : N) : M unit :=
  modify (fun d => set_conversations (alter f conversation_id (conversations d)) d).

Definition update_profile (f : AdvocateProfile.t -> AdvocateProfile.t)
    (profile_id : N) : M unit :=
  modify (fun d => set_advocate_profiles
                     (map (fun p => if bool_decide (AdvocateProfile.id p = profile_id)
                                    then f p else p)
                        (advocate_profiles d)) d).

(** An [Integer] column holds a signed 32-bit value.  The flush of a row
    that was given a value outside that range fails
    ([sqlalchemy.exc.DBAPIError], the driver's "value out of int32 range"),
    and the commit with it; the handlers do not catch it.  The only
    [Integer] a handler computes from a stored one is the case load that
    accept increments. *)
Definition Integer_min : Z := -2147483648.
Definition Integer_max : Z := 2147483647.

Definition fits_Integer (z : Z) : bool := (Integer_min <=? z) && (z <=? Integer_max).

Definition flush_Integer (z : Z) : M unit :=
  if fits_Integer z then mret tt else raise DBAPIError.

(** [x or d] on a column value *)
Definition py_or (x : pyval) (d : pyval) : pyval := if truthy x then x else d.

(** ** The client API ([backend/app/api/client.py]) *)

Module Client.

(** The [case_profile] dictionary that [select_advocate] builds *)
Definition select_case_profile (case : Case.t) : gmap string pyval :=
  <["matter_type" := Case.matter_type case]>
  (<["sub_category" := Case.sub_category case]>
  (<["state" := Case.state case]>
  (<["district" := Case.district case]>
  (<["court_level" := py_or (Case.court_level case) (PStr "district")]>
  (<["complexity" := py_or (Case.complexity case) (PStr "moderate")]>
   ∅))))).

(** [select_advocate]; [new_id] is the primary key that the database gives
    the new request.  The half-point score [h] is positive, so [int] of it
    is [h `quot` 2]. *)
Definition select_advocate (case_id : N) (request_advocate_id : N)
    (current_user : User.t) (new_id : N) : M N :=
  d ← read;
  case ← lift (scalar_one_or_none
                 (filter (fun c => Case.client_id c = User.id current_user)
                    (option_list (cases d !! case_id))));
  match case with
  | None => raise (HTTPException 404 "Case not found")
  | Some case =>
      if bool_decide (Case.status case = Case.ADVOCATE_ASSIGNED)
      then raise (HTTPException 400 "An advocate has already been assigned to this case")
      else
        pending_result ← lift (scalar_one_or_none
                                 (filter (fun r => AdvocateCaseRequest.case_id r = case_id
                                                   ∧ AdvocateCaseRequest.status r
                                                     = AdvocateCaseRequest.PENDING)
                                    (advocate_case_requests d)));
        match pending_result with
        | Some _ =>
            raise (HTTPException 400 "There is already a pending request for this case")
        | None =>
            match Backend.get_advocate_by_id d request_advocate_id with
            | None => raise (HTTPException 404 "Advocate not found")
            | Some advocate_data =>
                let case_profile := select_case_profile case in
                recommendations ← lift (Backend.get_recommendations d case_profile (Some 20));
                let match_info :=
                  match List.find (fun r => bool_decide (advocate_id r = request_advocate_id))
                          recommendations with
                  | Some r => (match_score r, match_reasons r)
                  | None => (pts 50, [SelectedByClient])
                  end in
                let case_request :=
                  AdvocateCaseRequest.mk new_id case_id request_advocate_id
                    (User.id current_user)
                    (Some (match_info.1 `quot` 2)) match_info.2
                    AdvocateCaseRequest.PENDING None None in
                modify (fun d => set_advocate_case_requests
                                   (advocate_case_requests d ++ [case_request]) d);;
                update_case (fun c => Case.set_advocate_response (Some Case.PENDING)
                                        (Case.set_selected_advocate_id (Some request_advocate_id)
                                           (Case.set_status Case.PENDING_ADVOCATE c)))
                  case_id;;
                commit;;
                create_notification request_advocate_id "case_request";;
                mret new_id
            end
        end
  end.

(** The profile update loop of [send_message]:
    [for key, value in case_profile.items(): if hasattr(case, key) and value: setattr(...)].
    The keys of a dictionary are distinct, so the order of iteration does
    not matter. *)
Definition update_case_profile (case_profile : gmap string pyval) (case : Case.t)
  : Case.t :=
  map_fold (fun key value case =>
              if truthy value then default case (Case.setattr key value case) else case)
    case case_profile.

(** The [Case(...)] that [send_message] creates when the conversation has no
    case; [case_profile.get(key)] is [None] for a missing key. *)
Definition new_case (new_id : N) (current_user : User.t) (conversation_id : N)
    (case_profile : gmap string pyval) : Case.t :=
  Case.mk new_id (User.id current_user) None (Some conversation_id)
    (get case_profile "matter_type" PNone)
    (get case_profile "sub_category" PNone)
    (get case_profile "state" PNone)
    (get case_profile "district" PNone)
    (get case_profile "court_level" PNone)
    (get case_profile "complexity" PNone)
    PNone PNone
    (get case_profile "case_summary" PNone)
    (Some case_profile) Case.AI_CONVERSATION None None None None.

(** [send_message] from the point where the assistant has answered:
    [case_profile] is the extraction ([None] when there is none), [new_id]
    the primary key of a case created here.  The message rows keep sender and
    type only. *)
Definition send_message (conversation_id : N) (current_user : User.t)
    (case_profile : option (gmap string pyval)) (new_id : N) (now : Z) : M unit :=
  d ← read;
  conversation ← lift (scalar_one_or_none
                         (filter (fun c => Conversation.client_id c = User.id current_user)
                            (option_list (conversations d !! conversation_id))));
  match conversation with
  | None => raise (HTTPException 404 "Conversation not found")
  | Some conversation =>
      if bool_decide (Conversation.phase conversation
                        ∈ [Conversation.AI_INTERVIEW; Conversation.AI_COUNSELLING;
                           Conversation.AI_DRAFTING])
      then
        modify (fun d => set_messages
                           (messages d ++ [Message.mk conversation_id Message.CLIENT
                                             (Some (User.id current_user)) Message.TEXT]) d);;
        commit;;
        modify (fun d => set_messages
                           (messages d ++ [Message.mk conversation_id Message.AI
                                             None Message.TEXT]) d);;
        match case_profile with
        | Some case_profile =>
            if bool_decide (case_profile = ∅) then mret tt
            else
              match Conversation.case_id conversation with
              | Some cid =>
                  d ← read;
                  case ← lift (scalar_one_or_none (option_list (cases d !! cid)));
                  match case with
                  | Some case => update_case (update_case_profile case_profile) cid
                  | None => mret tt
                  end
              | None =>
                  let case := new_case new_id current_user conversation_id case_profile in
                  modify (fun d => set_cases (<[new_id := case]> (cases d)) d);;
                  commit;;
                  update_conversation (Conversation.set_case_id (Some new_id))
                    conversation_id
              end
        | None => mret tt
        end;;
        update_conversation (Conversation.set_updated_at (Some now)) conversation_id;;
        commit
      else raise (HTTPException 400
             "This conversation is now with an advocate. AI responses are disabled.")
  end.

(** The [case_profile] dictionary of the recommendations endpoint:
    seven columns, overridden by the extracted facts when there are any
    ([case_profile.update(case.extracted_facts)]). *)
Definition recommendation_case_profile (case : Case.t) : gmap string pyval :=
  let case_profile : gmap string pyval :=
    <["matter_type" := Case.matter_type case]>
    (<["sub_category" := Case.sub_category case]>
    (<["state" := Case.state case]>
    (<["district" := Case.district case]>
    (<["court_level" := py_or (Case.court_level case) (PStr "district")]>
    (<["complexity" := py_or (Case.complexity case) (PStr "moderate")]>
    (<["urgency" := py_or (Case.urgency case) (PStr "normal")]>
     ∅)))))) in
  match Case.extracted_facts case with
  | Some facts => if bool_decide (facts = ∅) then case_profile else facts ∪ case_profile
  | None => case_profile
  end.

(** The advocates with a rejected request for the case *)
Definition rejected_ids (d : db) (case_id : N) : list N :=
  AdvocateCaseRequest.advocate_id
    <$> filter (fun r => AdvocateCaseRequest.case_id r = case_id
                         ∧ AdvocateCaseRequest.status r = AdvocateCaseRequest.REJECTED)
          (advocate_case_requests d).

(** [get_recommendations], the endpoint; it returns the ["recommendations"]
    entry of its result. *)
Definition get_recommendations (case_id : N) (current_user : User.t)
  : M (list (recommendation N)) :=
  d ← read;
  case ← lift (scalar_one_or_none
                 (filter (fun c => Case.client_id c = User.id current_user)
                    (option_list (cases d !! case_id))));
  match case with
  | None => raise (HTTPException 404 "Case not found")
  | Some case =>
      let case_profile := recommendation_case_profile case in
      recommendations ← lift (Backend.get_recommendations d case_profile None);
      let rejected := rejected_ids d case_id in
      mret (filter (fun r => advocate_id r ∉ rejected) recommendations)
  end.

(** [create_conversation]; [new_id] is the primary key of the new row. *)
Definition create_conversation (current_user : User.t) (new_id : N) : M N :=
  modify (fun d => set_conversations
                     (<[new_id := Conversation.mk new_id None (User.id current_user)
                                    Conversation.AI_INTERVIEW None]>
                        (conversations d)) d);;
  commit;;
  modify (fun d => set_messages
                     (messages d ++ [Message.mk new_id Message.AI None Message.TEXT]) d);;
  commit;;
  mret new_id.

End Client.

(** ** The advocate API ([backend/app/api/advocate.py]) *)

Module Advocate.

Definition find_request (d : db) (request_id : N) (current_user : User.t)
  : res (option AdvocateCaseRequest.t) :=
  scalar_one_or_none
    (filter (fun r => AdvocateCaseRequest.id r = request_id
                      ∧ AdvocateCaseRequest.advocate_id r = User.id current_user)
       (advocate_case_requests d)).

(** [accept_case_request]; [now] stands for the readings of
    [datetime.utcnow()]. *)
Definition accept_case_request (request_id : N) (current_user : User.t) (now : Z)
  : M (N * option N) :=
  d ← read;
  case_request ← lift (find_request d request_id current_user);
  match case_request with
  | None => raise (HTTPException 404 "Case request not found")
  | Some case_request =>
      if bool_decide (AdvocateCaseRequest.status case_request
                        ≠ AdvocateCaseRequest.PENDING)
      then raise (HTTPException 400 "This request has already been processed")
      else
        update_request
          (fun r => AdvocateCaseRequest.set_response_at (Some now)
                      (AdvocateCaseRequest.set_status AdvocateCaseRequest.ACCEPTED r))
          (AdvocateCaseRequest.id case_request);;
        d ← read;
        case ← lift (scalar_one
                       (option_list (cases d !! AdvocateCaseRequest.case_id case_request)));
        update_case
          (fun c => Case.set_updated_at (Some now)
                      (Case.set_advocate_response (Some Case.ACCEPTED)
                         (Case.set_status Case.ADVOCATE_ASSIGNED
                            (Case.set_advocate_id (Some (User.id current_user)) c))))
          (AdvocateCaseRequest.case_id case_request);;
        match Case.conversation_id case with
        | Some conversation_id =>
            d ← read;
            conversation ← lift (scalar_one_or_none
                                   (option_list (conversations d !! conversation_id)));
            match conversation with
            | Some conversation =>
                update_conversation
                  (fun c => Conversation.set_updated_at (Some now)
                              (Conversation.set_phase Conversation.ADVOCATE_ACTIVE c))
                  conversation_id;;
                modify (fun d => set_messages
                                   (messages d
                                    ++ [Message.mk (Conversation.id conversation)
                                          Message.ADVOCATE (Some (User.id current_user))
                                          Message.SYSTEM]) d)
            | None => mret tt
            end
        | None => mret tt
        end;;
        d ← read;
        profile ← lift (scalar_one_or_none
                          (filter (fun p => AdvocateProfile.user_id p = User.id current_user)
                             (advocate_profiles d)));
        match profile with
        | Some profile =>
            update_profile
              (fun p => AdvocateProfile.set_current_case_load
                          (Some (or_int (AdvocateProfile.current_case_load p) 0 + 1)) p)
              (AdvocateProfile.id profile);;
            flush_Integer (or_int (AdvocateProfile.current_case_load profile) 0 + 1)
        | None => mret tt
        end;;
        commit;;
        create_notification (AdvocateCaseRequest.client_id case_request)
          "advocate_accepted";;
        mret (Case.id case, Case.conversation_id case)
  end.

(** [reject_case_request] *)
Definition reject_case_request (request_id : N) (action_rejection_reason : option string)
    (current_user : User.t) (now : Z) : M N :=
  d ← read;
  case_request ← lift (find_request d request_id current_user);
  match case_request with
  | None => raise (HTTPException 404 "Case request not found")
  | Some case_request =>
      if bool_decide (AdvocateCaseRequest.status case_request
                        ≠ AdvocateCaseRequest.PENDING)
      then raise (HTTPException 400 "This request has already been processed")
      else
        update_request
          (fun r => AdvocateCaseRequest.set_rejection_reason action_rejection_reason
                      (AdvocateCaseRequest.set_response_at (Some now)
                         (AdvocateCaseRequest.set_status AdvocateCaseRequest.REJECTED r)))
          (AdvocateCaseRequest.id case_request);;
        d ← read;
        case ← lift (scalar_one
                       (option_list (cases d !! AdvocateCaseRequest.case_id case_request)));
        update_case
          (fun c => Case.set_updated_at (Some now)
                      (Case.set_rejection_reason action_rejection_reason
                         (Case.set_advocate_response (Some Case.REJECTED)
                            (Case.set_status Case.ADVOCATE_REJECTED c))))
          (AdvocateCaseRequest.case_id case_request);;
        commit;;
        create_notification (AdvocateCaseRequest.client_id case_request)
          "advocate_rejected";;
        mret (Case.id case)
  end.

(** [update_availability] *)
Definition update_availability (data_is_available : bool) (current_user : User.t)
  : M bool :=
  d ← read;
  profile ← lift (scalar_one_or_none
                    (filter (fun p => AdvocateProfile.user_id p = User.id current_user)
                       (advocate_profiles d)));
  match profile with
  | None => raise (HTTPException 404 "Profile not found")
  | Some profile =>
      update_profile (AdvocateProfile.set_is_available (Some data_is_available))
        (AdvocateProfile.id profile);;
      commit;;
      mret data_is_available
  end.

(** [send_message_to_client]; the broadcast to the open connections is
    outside the database. *)
Definition send_message_to_client (case_id : N) (message_type : Message.MessageType)
    (current_user : User.t) (now : Z) : M unit :=
  d ← read;
  case ← lift (scalar_one_or_none
                 (filter (fun c => Case.advocate_id c = Some (User.id current_user))
                    (option_list (cases d !! case_id))));
  match case with
  | None => raise (HTTPException 404 "Case not found")
  | Some case =>
      match Case.conversation_id case with
      | None => raise (HTTPException 400 "No conversation associated with this case")
      | Some conversation_id =>
          modify (fun d => set_messages
                             (messages d
                              ++ [Message.mk conversation_id Message.ADVOCATE
                                    (Some (User.id current_user)) message_type]) d);;
          d ← read;
          conversation ← lift (scalar_one_or_none
                                 (option_list (conversations d !! conversation_id)));
          match conversation with
          | Some _ =>
              update_conversation (Conversation.set_updated_at (Some now))
                conversation_id
          | None => mret tt
          end;;
          commit;;
          create_notification (Case.client_id case) "new_message"
      end
  end.

End Advocate.

(** ** Lifecycle operations as a transition system *)

Inductive op :=
| SelectAdvocate (case_id advocate_id : N) (current_user : User.t) (new_id : N)
| Accept (request_id : N) (current_user : User.t) (now : Z)
| Reject (request_id : N) (reason : option string) (current_user : User.t) (now : Z).

(** The database after one request, whether it succeeded or failed *)
Definition exec (o : op) (d : db) : db :=
  match o with
  | SelectAdvocate case_id advocate_id current_user new_id =>
      (run (Client.select_advocate case_id advocate_id current_user new_id) d).2
  | Accept request_id current_user now =>
      (run (Advocate.accept_case_request request_id current_user now) d).2
  | Reject request_id reason current_user now =>
      (run (Advocate.reject_case_request request_id reason current_user now) d).2
  end.

Inductive reachable (d0 : db) : db -> Prop :=
| reachable_start : reachable d0 d0
| reachable_step d o : reachable d0 d -> reachable d0 (exec o d).

Definition is_pending_for (case_id : N) (r : AdvocateCaseRequest.t) : Prop :=
  AdvocateCaseRequest.case_id r = case_id
  ∧ AdvocateCaseRequest.status r = AdvocateCaseRequest.PENDING.

#[global] Instance is_pending_for_dec case_id r : Decision (is_pending_for case_id r).
Proof. unfold is_pending_for. apply _. Defined.

Definition pending_requests (case_id : N) (d : db) : list AdvocateCaseRequest.t :=
  filter (is_pending_for case_id) (advocate_case_requests d).

Definition at_most_one_pending (d : db) : Prop :=
  forall case_id, (List.length (pending_requests case_id d) <= 1)%nat.

(** ** Row transformations and post-states used in the statements *)

Definition on_row {A} (key : A -> N) (k : N) (f : A -> A) (x : A) : A :=
  if bool_decide (key x = k) then f x else x.

Definition accepted_request (now : Z) (r : AdvocateCaseRequest.t) : AdvocateCaseRequest.t :=
  AdvocateCaseRequest.set_response_at (Some now)
    (AdvocateCaseRequest.set_status AdvocateCaseRequest.ACCEPTED r).

Definition assigned_case (advocate : N) (now : Z) (c : Case.t) : Case.t :=
  Case.set_updated_at (Some now)
    (Case.set_advocate_response (Some Case.ACCEPTED)
       (Case.set_status Case.ADVOCATE_ASSIGNED
          (Case.set_advocate_id (Some advocate) c))).

Definition active_conversation (now : Z) (c : Conversation.t) : Conversation.t :=
  Conversation.set_updated_at (Some now)
    (Conversation.set_phase Conversation.ADVOCATE_ACTIVE c).

Definition one_more_case (p : AdvocateProfile.t) : AdvocateProfile.t :=
  AdvocateProfile.set_current_case_load
    (Some (or_int (AdvocateProfile.current_case_load p) 0 + 1)) p.

Definition rejected_request (reason : option string) (now : Z)
    (r : AdvocateCaseRequest.t) : AdvocateCaseRequest.t :=
  AdvocateCaseRequest.set_rejection_reason reason
    (AdvocateCaseRequest.set_response_at (Some now)
       (AdvocateCaseRequest.set_status AdvocateCaseRequest.REJECTED r)).

Definition rejected_case (reason : option string) (now : Z) (c : Case.t) : Case.t :=
  Case.set_updated_at (Some now)
    (Case.set_rejection_reason reason
       (Case.set_advocate_response (Some Case.REJECTED)
          (Case.set_status Case.ADVOCATE_REJECTED c))).

(** Everything that [accept_case_request] changes, applied together *)
Definition accept_applied (d d' : db) (request_id : N) (u : User.t) (now : Z) : Prop :=
  exists cr c,
    Advocate.find_request d request_id u = Ok (Some cr)
    ∧ AdvocateCaseRequest.status cr = AdvocateCaseRequest.PENDING
    ∧ cases d !! AdvocateCaseRequest.case_id cr = Some c
    ∧ advocate_case_requests d'
      = map (on_row AdvocateCaseRequest.id (AdvocateCaseRequest.id cr)
               (accepted_request now))
          (advocate_case_requests d)
    ∧ cases d'
      = alter (assigned_case (User.id u) now) (AdvocateCaseRequest.case_id cr) (cases d)
    ∧ conversations d'
      = match Case.conversation_id c with
        | Some cid => alter (active_conversation now) cid (conversations d)
        | None => conversations d
        end
    ∧ advocate_profiles d'
      = match filter (fun p => AdvocateProfile.user_id p = User.id u)
                (advocate_profiles d) with
        | [p] => map (on_row AdvocateProfile.id (AdvocateProfile.id p) one_more_case)
                   (advocate_profiles d)
        | _ => advocate_profiles d
        end
    ∧ users d' = users d.

(** Everything that [reject_case_request] changes, applied together *)
Definition reject_applied (d d' : db) (request_id : N) (reason : option string)
    (u : User.t) (now : Z) : Prop :=
  exists cr c,
    Advocate.find_request d request_id u = Ok (Some cr)
    ∧ AdvocateCaseRequest.status cr = AdvocateCaseRequest.PENDING
    ∧ cases d !! AdvocateCaseRequest.case_id cr = Some c
    ∧ advocate_case_requests d'
      = map (on_row AdvocateCaseRequest.id (AdvocateCaseRequest.id cr)
               (rejected_request reason now))
          (advocate_case_requests d)
    ∧ cases d'
      = alter (rejected_case reason now) (AdvocateCaseRequest.case_id cr) (cases d)
    ∧ conversations d' = conversations d
    ∧ advocate_profiles d' = advocate_profiles d
    ∧ users d' = users d.

Definition already_processed : pyexn :=
  HTTPException 400 "This request has already been processed".

(** ** Sample data *)

(** Scenario A: the advocate, with the district list left open *)
Definition scenario_A_profile (districts : option (list string)) : AdvocateProfile.t :=
  AdvocateProfile.mk 1 10 (Some ["Delhi"]) districts None (Some ["civil"]) None
    (Some 19) None None (Some 28) (Some 40) (Some AdvocateProfile.PREMIUM) None
    (Some (48 # 10)) None (Some true).

Definition scenario_A_user : User.t := User.mk 10 "Advocate A" true.

Definition scenario_A_case : gmap string pyval :=
  <["matter_type" := PStr "civil"]>
  (<["state" := PStr "Delhi"]>
  (<["district" := PStr "South Delhi"]>
  (<["court_level" := PStr "district"]>
  (<["complexity" := PStr "moderate"]>
  (<["budget_category" := PStr "premium"]> ∅))))).

Definition scenario_A_reasons : list reason :=
  [SpecializesIn "civil"; PracticesIn "Delhi"; FamiliarWith "South Delhi";
   YearsOfPractice 19; ModerateAvailability; FeeMatches "premium";
   HighlyRated (48 # 10) None].

(** The same advocate as a registry entry of the bot *)
Definition scenario_A_bot : Bot.AdvocateProfile :=
  Bot.mk "ADV" "Advocate A" ["Delhi"] ["South Delhi"] "" ["civil"] [] 19 0 "average"
    28 40 true "premium" [] (48 # 10) 0.

Definition scenario_A_bot_case : gmap string pyval :=
  <["matter_type" := PStr "civil"]>
  (<["state" := PStr "Delhi"]>
  (<["district" := PStr "South Delhi"]>
  (<["court_level" := PStr "district"]>
  (<["estimated_complexity" := PStr "moderate"]>
  (<["budget_category" := PStr "premium"]> ∅))))).

(** An advocate of Delhi who is not accepting cases, and a case filed in Goa *)
Definition closed_profile : AdvocateProfile.t :=
  AdvocateProfile.mk 2 20 (Some ["Delhi"]) None None (Some ["civil"]) None
    (Some 19) None None (Some 28) (Some 40) (Some AdvocateProfile.PREMIUM) None
    (Some (48 # 10)) None (Some false).

Definition closed_user : User.t := User.mk 20 "Advocate B" true.


(** Two advocates that differ in rating and review count only, both rated
    4.5 or more *)
Definition tie_profile (id user_id : N) (rating : Q) (reviews : Z) : AdvocateProfile.t :=
  AdvocateProfile.mk id user_id (Some ["Delhi"]) (Some ["South Delhi"]) None
    (Some ["civil"]) None (Some 19) None None (Some 28) (Some 40)
    (Some AdvocateProfile.PREMIUM) None (Some rating) (Some reviews) (Some true).

Definition tie_db (first second : AdvocateProfile.t) : db :=
  mkdb [User.mk 11 "Low" true; User.mk 12 "High" true] [first; second] ∅ ∅ [] [] [].

Definition low_rated : AdvocateProfile.t := tie_profile 1 11 (46 # 10) 10.
Definition high_rated : AdvocateProfile.t := tie_profile 2 12 (48 # 10) 200.

(** A client with one case and one conversation, and one advocate *)
Definition client_user : User.t := User.mk 1 "Client" true.

Definition sample_case : Case.t :=
  Case.mk 100 1 None (Some 200%N) (PStr "civil") PNone (PStr "Delhi") (PStr "South Delhi")
    PNone PNone PNone PNone PNone None Case.AI_CONVERSATION None None None None.

Definition sample_conversation : Conversation.t :=
  Conversation.mk 200 (Some 100%N) 1 Conversation.AI_INTERVIEW None.

Definition sample_db (profile : AdvocateProfile.t) (user : User.t) : db :=
  mkdb [client_user; user] [profile] {[ 100%N := sample_case ]}
    {[ 200%N := sample_conversation ]} [] [] [].

Definition open_db : db :=
  sample_db (scenario_A_profile (Some ["South Delhi"])) scenario_A_user.

Definition closed_db : db := sample_db closed_profile closed_user.

(** A conversation that has no case yet, and an extraction that names the
    urgency *)
Definition fresh_conversation : Conversation.t :=
  Conversation.mk 200 None 1 Conversation.AI_INTERVIEW None.

Definition fresh_db : db :=
  mkdb [client_user] [] ∅ {[ 200%N := fresh_conversation ]} [] [] [].

Definition urgent_extraction : gmap string pyval :=
  <["matter_type" := PStr "civil"]>
  (<["state" := PStr "Delhi"]>
  (<["urgency" := PStr "urgent"]> ∅)).

(** ** Correspondence between a registry entry of the bot and a backend row *)

Definition success_corresponds (category : string) (success_rate : option Q) : Prop :=
  (category = "excellent" <-> dec_truthy success_rate = true
                              ∧ Qgeb (default 0%Q success_rate) 80 = true)
  ∧ (category = "good" <-> dec_truthy success_rate = true
                           ∧ Qgeb (default 0%Q success_rate) 80 = false
                           ∧ Qgeb (default 0%Q success_rate) 60 = true).

Record corresponds (a : Bot.AdvocateProfile) (p : AdvocateProfile.t) : Prop := {
  corr_states : or_list (AdvocateProfile.states p) = Bot.practicing_states a;
  corr_districts : or_list (AdvocateProfile.districts p) = Bot.practicing_districts a;
  corr_home_court : default "" (AdvocateProfile.home_court p) = Bot.home_court a;
  corr_specializations :
    or_list (AdvocateProfile.primary_specializations p) = Bot.specializations a;
  corr_sub_specializations :
    or_list (AdvocateProfile.sub_specializations p) = Bot.sub_specializations a;
  corr_years : or_int (AdvocateProfile.experience_years p) 0 = Bot.years_of_practice a;
  corr_load : or_int (AdvocateProfile.current_case_load p) 0 = Bot.current_case_load a;
  corr_capacity : or_int (AdvocateProfile.max_case_capacity p) 20 = Bot.max_case_load a;
  corr_available :
    bool_truthy (AdvocateProfile.is_available p) = Bot.available_for_new_cases a;
  corr_fee : Backend.advocate_fee p = Bot.fee_category a;
  corr_languages : or_list (AdvocateProfile.languages p) = Bot.languages a;
  corr_rating : Backend.rating_value p = Bot.rating a;
  corr_reviews : AdvocateProfile.review_count p = Some (Bot.total_reviews a);
  corr_success :
    success_corresponds (Bot.success_rate_category a) (AdvocateProfile.success_rate p)
}.

(** The case profiles on which the two scorers are compared *)
Record comparable (a : Bot.AdvocateProfile) (p : AdvocateProfile.t)
    (case_profile : gmap string pyval) : Prop := {
  cmp_complexity : case_profile !! "complexity" = None;
  cmp_urgency : case_profile !! "urgency" = None;
  cmp_state : exists s, get case_profile "state" (PStr "") = PStr s ∧ s ≠ "";
  cmp_states : Bot.practicing_states a ≠ [];
  cmp_specializations : "" ∉ Bot.specializations a;
  cmp_districts : "" ∉ Bot.practicing_districts a;
  cmp_expertise :
    exists l, get case_profile "specific_expertise_needed" (PList []) = PList l;
  cmp_languages :
    exists l, get case_profile "preferred_languages" (PList ["Hindi"; "English"])
              = PList l;
  cmp_senior :
    truthy (get case_profile "requires_senior_counsel" (PBool false)) = false
    ∨ Bot.years_of_practice a < 15;
  cmp_landmark :
    py_eq_str (get case_profile "court_level" (PStr "district")) "high_court" = true ->
    Bot.landmark_cases a <= 5
    ∧ (str_truthy (AdvocateProfile.landmark_cases p) = true ->
       split_len (default "" (AdvocateProfile.landmark_cases p)) <= 5);
  cmp_capacity : 0 < Bot.max_case_load a
}.

(** An advocate whose case load is the largest value of the column *)
Definition full_profile : AdvocateProfile.t :=
  AdvocateProfile.mk 1 10 (Some ["Delhi"]) (Some ["South Delhi"]) None (Some ["civil"])
    None (Some 19) None None (Some Integer_max) (Some Integer_max)
    (Some AdvocateProfile.PREMIUM) None (Some (48 # 10)) None (Some true).

(** A request for the sample case, pending and then answered *)
Definition sample_request : AdvocateCaseRequest.t :=
  AdvocateCaseRequest.mk 300 100 10 1 (Some 74) scenario_A_reasons
    AdvocateCaseRequest.PENDING None None.

Definition requested_db : db := set_advocate_case_requests [sample_request] open_db.

Definition full_db : db :=
  set_advocate_case_requests [sample_request] (sample_db full_profile scenario_A_user).

Definition answered_db : db :=
  set_advocate_case_requests [accepted_request 5 sample_request] open_db.

(** What the claim on accept asks of the database [d'] after the request
    [cr] on the case [c] was accepted by [u] *)
Definition accept_postcondition (d d' : db) (request_id : N) (u : User.t) (now : Z)
    (cr : AdvocateCaseRequest.t) (c : Case.t) : Prop :=
  (forall r, r ∈ advocate_case_requests d' ->
             AdvocateCaseRequest.id r = request_id ->
             AdvocateCaseRequest.status r = AdvocateCaseRequest.ACCEPTED
             ∧ AdvocateCaseRequest.response_at r = Some now)
  ∧ (exists c', cases d' !! AdvocateCaseRequest.case_id cr = Some c'
                ∧ Case.status c' = Case.ADVOCATE_ASSIGNED
                ∧ Case.advocate_id c' = Some (User.id u))
  ∧ (forall cid cv, Case.conversation_id c = Some cid ->
                    conversations d !! cid = Some cv ->
                    exists cv', conversations d' !! cid = Some cv'
                                ∧ Conversation.phase cv' = Conversation.ADVOCATE_ACTIVE)
  ∧ (forall i p, advocate_profiles d !! i = Some p ->
                 AdvocateProfile.user_id p = User.id u ->
                 exists p', advocate_profiles d' !! i = Some p'
                            ∧ AdvocateProfile.current_case_load p'
                              = Some (or_int (AdvocateProfile.current_case_load p) 0 + 1)).

(** ** Ranked lists *)

(** Descending order of the sort key *)
Definition desc {A} (key : A -> Z) (x y : A) : Prop := key y <= key x.

(** [recs] is what is left of [scored] after the stable descending sort by
    match score and the cut at [limit]: the sorted list has the same
    entries, is in descending score order, and keeps entries of equal score
    in the order they have in [scored]. *)
Definition ranked_prefix {I} (limit : Z) (scored recs : list (recommendation I))
  : Prop :=
  exists ranked,
    ranked ≡ₚ scored
    ∧ StronglySorted (desc match_score) ranked
    ∧ (forall k, filter (fun e => match_score e = k) ranked
                 = filter (fun e => match_score e = k) scored)
    ∧ recs = slice_to limit ranked.

(** The entries of the candidates with a positive result, in the order of
    the candidates; [results] holds the result of each candidate. *)
Definition positive_entries {R I} (entry : R -> Z -> list reason -> recommendation I)
    (rows : list R) (results : list acc) : list (recommendation I) :=
  omap (fun '(row, (s, rs)) => if 0 <? s then Some (entry row s rs) else None)
    (zip rows results).

(** The entry that the backend ranks for a row, and the bot for a registry
    item, when the row scores [s] with reasons [rs] *)
Definition backend_entry (row : AdvocateProfile.t * User.t) (s : Z) (rs : list reason)
  : recommendation N :=
  mkrec (User.id row.2) s rs (Backend.rating_value row.1)
    (AdvocateProfile.review_count row.1).

Definition bot_entry (item : string * Bot.AdvocateProfile) (s : Z) (rs : list reason)
  : recommendation string :=
  mkrec item.1 s rs (Bot.rating item.2) (Some (Bot.total_reviews item.2)).

(** Advocate, score and rating of each entry of a ranking *)
Definition ranking_summary (r : res (list (recommendation N))) : res (list (N * Z * Q)) :=
  recs ← r;
  Ok (map (fun e => (advocate_id e, match_score e, rating e)) recs).

(** ** More sample data *)

(** The Scenario A case with the senior-counsel requirement added *)
Definition senior_case : gmap string pyval :=
  <["requires_senior_counsel" := PBool true]> scenario_A_bot_case.

(** The backend row that corresponds to [scenario_A_bot] *)
Definition twin_profile : AdvocateProfile.t :=
  AdvocateProfile.mk 1 10 (Some ["Delhi"]) (Some ["South Delhi"]) None (Some ["civil"])
    None (Some 19) None None (Some 28) (Some 40) (Some AdvocateProfile.PREMIUM) None
    (Some (48 # 10)) (Some 0) (Some true).

Definition twin_reasons : list reason :=
  [SpecializesIn "civil"; PracticesIn "Delhi"; FamiliarWith "South Delhi";
   YearsOfPractice 19; ModerateAvailability; FeeMatches "premium";
   HighlyRated (48 # 10) (Some 0)].

Definition twin_senior_reasons : list reason :=
  [SpecializesIn "civil"; PracticesIn "Delhi"; FamiliarWith "South Delhi";
   YearsOfPractice 19; SeniorCounsel; ModerateAvailability; FeeMatches "premium";
   HighlyRated (48 # 10) (Some 0)].

(** The reasons of an advocate of [tie_db] for the Scenario A case *)
Definition tie_reasons (rating : Q) (reviews : Z) : list reason :=
  [SpecializesIn "civil"; PracticesIn "Delhi"; FamiliarWith "South Delhi";
   YearsOfPractice 19; ModerateAvailability; FeeMatches "premium";
   HighlyRated rating (Some reviews)].

(** The scorer's results for the two advocates of [tie_db low_rated
    high_rated], in directory order *)
Definition tie_results : list acc :=
  [(pts 74, tie_reasons (46 # 10) 10); (pts 74, tie_reasons (48 # 10) 200)].

(** The request that [select_advocate] stores for the advocate who is not
    accepting cases *)
Definition default_request : AdvocateCaseRequest.t :=
  AdvocateCaseRequest.mk 300 100 20 1 (Some 50) [SelectedByClient]
    AdvocateCaseRequest.PENDING None None.

(** The database after the extraction [urgent_extraction] was ingested once
    and twice in the conversation without a case *)
Definition ingest_once : db :=
  (run (Client.send_message 200 client_user (Some urgent_extraction) 500 1) fresh_db).2.

Definition ingest_twice : db :=
  (run (Client.send_message 200 client_user (Some urgent_extraction) 500 1) ingest_once).2.

(** ** The merge rule in the words of the specification

    A column takes the extracted value when the extraction has the key with
    a non-null (truthy) value, and keeps its value otherwise. *)

Definition merge_column (case_profile : gmap string pyval) (key : string) (old : pyval)
  : pyval :=
  match case_profile !! key with
  | Some v => if truthy v then v else old
  | None => old
  end.

Definition merged_case (cp : gmap string pyval) (c : Case.t) : Case.t :=
  Case.mk (Case.id c) (Case.client_id c) (Case.advocate_id c) (Case.conversation_id c)
    (merge_column cp "matter_type" (Case.matter_type c))
    (merge_column cp "sub_category" (Case.sub_category c))
    (merge_column cp "state" (Case.state c))
    (merge_column cp "district" (Case.district c))
    (merge_column cp "court_level" (Case.court_level c))
    (merge_column cp "complexity" (Case.complexity c))
    (merge_column cp "urgency" (Case.urgency c))
    (merge_column cp "amount_in_dispute" (Case.amount_in_dispute c))
    (merge_column cp "case_summary" (Case.case_summary c))
    (Case.extracted_facts c) (Case.status c) (Case.selected_advocate_id c)
    (Case.advocate_response c) (Case.rejection_reason c) (Case.updated_at c).

(** ** The match data of a new request

    What [select_advocate] stores in the request it appends: the entry of
    the selected advocate in the ranking of the first twenty, with the score
    truncated to an integer, or the default when the ranking has no such
    entry. *)
Definition select_match_post (case_id adv : N) (d d' : db) : Prop :=
  exists c recs r,
    cases d !! case_id = Some c
    ∧ Backend.get_recommendations d (Client.select_case_profile c) (Some 20) = Ok recs
    ∧ advocate_case_requests d' = advocate_case_requests d ++ [r]
    ∧ AdvocateCaseRequest.advocate_id r = adv
    ∧ AdvocateCaseRequest.status r = AdvocateCaseRequest.PENDING
    ∧ match List.find (fun e => bool_decide (advocate_id e = adv)) recs with
      | Some e =>
          AdvocateCaseRequest.match_score r = Some (match_score e `quot` 2)
          ∧ AdvocateCaseRequest.match_explanation r = match_reasons e
          ∧ exists row,
              row ∈ Backend.available_advocates d
              ∧ User.id row.2 = adv
              ∧ Backend._calculate_match_score row.1 row.2
                  (Client.select_case_profile c)
                = Ok (match_score e, match_reasons e)
              ∧ 0 < match_score e
      | None =>
          AdvocateCaseRequest.match_score r = Some 50
          ∧ AdvocateCaseRequest.match_explanation r = [SelectedByClient]
      end.

(** ** The connection manager ([backend/app/utils/websocket_manager.py])

    A WebSocket is an opaque number; the two registers are a dictionary of
    lists and a dictionary of sets. *)

Module ConnectionManager.

Record t := mk {
  active_connections : gmap string (list N);
  user_connections : gmap string (gset N)
}.

(** [list.remove(x)]: the first occurrence goes *)
Fixpoint remove_first (x : N) (l : list N) : list N :=
  match l with
  | [] => []
  | y :: l' => if bool_decide (x = y) then l' else y :: remove_first x l'
  end.

(** [connect], after [websocket.accept()] *)
Definition connect (websocket : N) (conversation_id user_id : string) (m : t) : t :=
  let ac := active_connections m in
  let ac := match ac !! conversation_id with
            | Some _ => ac
            | None => <[conversation_id := []]> ac
            end in
  let ac := alter (fun l => l ++ [websocket]) conversation_id ac in
  let uc := user_connections m in
  let uc := match uc !! user_id with
            | Some _ => uc
            | None => <[user_id := ∅]> uc
            end in
  let uc := alter (fun s => s ∪ {[websocket]}) user_id uc in
  mk ac uc.

Definition disconnect (websocket : N) (conversation_id user_id : string) (m : t) : t :=
  let ac := active_connections m in
  let ac :=
    match ac !! conversation_id with
    | Some l =>
        let l := if bool_decide (websocket ∈ l) then remove_first websocket l else l in
        match l with
        | [] => delete conversation_id ac
        | _ :: _ => <[conversation_id := l]> ac
        end
    | None => ac
    end in
  let uc := user_connections m in
  let uc :=
    match uc !! user_id with
    | Some s =>
        let s := s ∖ {[websocket]} in
        if bool_decide (s = ∅) then delete user_id uc else <[user_id := s]> uc
    | None => uc
    end in
  mk ac uc.

(** The connections that [broadcast_to_conversation] and [send_to_user]
    write to; a failing [send_json] is swallowed and the loop goes on. *)
Definition broadcast_to_conversation (conversation_id : string) (m : t) : list N :=
  default [] (active_connections m !! conversation_id).

Definition send_to_user (user_id : string) (m : t) : gset N :=
  default ∅ (user_connections m !! user_id).

(** The registration of [websocket_notifications] and its clean-up on
    disconnect ([backend/app/api/websocket.py]) *)
Definition register_notifications (websocket : N) (user_id : string) (m : t) : t :=
  let uc := user_connections m in
  let uc := match uc !! user_id with
            | Some _ => uc
            | None => <[user_id := ∅]> uc
            end in
  mk (active_connections m) (alter (fun s => s ∪ {[websocket]}) user_id uc).

Definition unregister_notifications (websocket : N) (user_id : string) (m : t) : t :=
  mk (active_connections m)
    (alter (fun s => s ∖ {[websocket]}) user_id (user_connections m)).

(** No key is left with an empty list or set *)
Definition no_empty_entry (m : t) : Prop :=
  (forall k l, active_connections m !! k = Some l -> l ≠ [])
  ∧ (forall k s, user_connections m !! k = Some s -> s ≠ ∅).

End ConnectionManager.

(** ** [AIService._build_messages] ([backend/app/services/ai_service.py]) *)

Module AIService.

Record message := mk { role : string; content : pyval }.

(** [history[-20:]] *)
Definition last_20 {A} (history : list A) : list A :=
  drop (List.length history - 20) history.

Definition _build_messages (history : list (gmap string pyval)) (new_message : string)
  : list message :=
  map (fun msg =>
         mk (if py_eq_str (get msg "sender_type" PNone) "client"
             then "user" else "assistant")
            (get msg "content" (PStr "")))
      (last_20 history)
  ++ [mk "user" (PStr new_message)].

(** The history entry that [send_message] builds for a client message *)
Definition client_entry (content : string) : gmap string pyval :=
  <["sender_type" := PStr "client"]> (<["content" := PStr content]> ∅).

End AIService.

(** ** All modelled requests as one transition system *)

Inductive request :=
| SelectAdvocateRequest (case_id advocate_id : N) (current_user : User.t) (new_id : N)
| AcceptRequest (request_id : N) (current_user : User.t) (now : Z)
| RejectRequest (request_id : N) (reason : option string) (current_user : User.t)
    (now : Z)
| SendMessageRequest (conversation_id : N) (current_user : User.t)
    (case_profile : option (gmap string pyval)) (new_id : N) (now : Z)
| CreateConversationRequest (current_user : User.t) (new_id : N)
| RecommendationsRequest (case_id : N) (current_user : User.t)
| UpdateAvailabilityRequest (is_available : bool) (current_user : User.t)
| MessageToClientRequest (case_id : N) (message_type : Message.MessageType)
    (current_user : User.t) (now : Z).

(** The database after a request, whether it succeeded or failed *)
Definition handle (r : request) (d : db) : db :=
  match r with
  | SelectAdvocateRequest case_id advocate_id current_user new_id =>
      (run (Client.select_advocate case_id advocate_id current_user new_id) d).2
  | AcceptRequest request_id current_user now =>
      (run (Advocate.accept_case_request request_id current_user now) d).2
  | RejectRequest request_id reason current_user now =>
      (run (Advocate.reject_case_request request_id reason current_user now) d).2
  | SendMessageRequest conversation_id current_user case_profile new_id now =>
      (run (Client.send_message conversation_id current_user case_profile new_id now) d).2
  | CreateConversationRequest current_user new_id =>
      (run (Client.create_conversation current_user new_id) d).2
  | RecommendationsRequest case_id current_user =>
      (run (Client.get_recommendations case_id current_user) d).2
  | UpdateAvailabilityRequest is_available current_user =>
      (run (Advocate.update_availability is_available current_user) d).2
  | MessageToClientRequest case_id message_type current_user now =>
      (run (Advocate.send_message_to_client case_id message_type current_user now) d).2
  end.

Inductive served (d0 : db) : db -> Prop :=
| served_start : served d0 d0
| served_step d r : served d0 d -> served d0 (handle r d).

(** ** Definitions for the further properties *)

(** Two profiles that differ at most in experience, load and rating *)
Definition same_practice (p p' : AdvocateProfile.t) : Prop :=
  AdvocateProfile.states p = AdvocateProfile.states p'
  ∧ AdvocateProfile.districts p = AdvocateProfile.districts p'
  ∧ AdvocateProfile.home_court p = AdvocateProfile.home_court p'
  ∧ AdvocateProfile.primary_specializations p = AdvocateProfile.primary_specializations p'
  ∧ AdvocateProfile.sub_specializations p = AdvocateProfile.sub_specializations p'
  ∧ AdvocateProfile.landmark_cases p = AdvocateProfile.landmark_cases p'
  ∧ AdvocateProfile.success_rate p = AdvocateProfile.success_rate p'
  ∧ AdvocateProfile.fee_category p = AdvocateProfile.fee_category p'
  ∧ AdvocateProfile.languages p = AdvocateProfile.languages p'
  ∧ AdvocateProfile.is_available p = AdvocateProfile.is_available p'.

(** ** Errors of the handlers *)

Definition already_pending : pyexn :=
  HTTPException 400 "There is already a pending request for this case".

Definition already_assigned : pyexn :=
  HTTPException 400 "An advocate has already been assigned to this case".

Definition request_not_found : pyexn := HTTPException 404 "Case request not found".

(** The database after a successful reject *)
Definition rejected_db (d : db) (cr : AdvocateCaseRequest.t) (reason : option string)
    (now : Z) : db :=
  mkdb (users d) (advocate_profiles d)
    (alter (rejected_case reason now) (AdvocateCaseRequest.case_id cr) (cases d))
    (conversations d)
    (map (on_row AdvocateCaseRequest.id (AdvocateCaseRequest.id cr)
            (rejected_request reason now))
       (advocate_case_requests d))
    (messages d)
    (notifications d
     ++ [Notification.mk (AdvocateCaseRequest.client_id cr) "advocate_rejected"]).

Definition case_not_found : pyexn := HTTPException 404 "Case not found".

(** Two advocates of equal score, the first with a pending request for the
    sample case *)
Definition low_user : User.t := User.mk 11 "Low" true.

Definition contested_request : AdvocateCaseRequest.t :=
  AdvocateCaseRequest.mk 300 100 11 1 (Some 70) [SelectedByClient]
    AdvocateCaseRequest.PENDING None None.

Definition contested_db : db :=
  mkdb [client_user; low_user; User.mk 12 "High" true] [low_rated; high_rated]
    {[ 100%N := sample_case ]} {[ 200%N := sample_conversation ]}
    [contested_request] [] [].

Definition high_entry (score : Z) (fee : reason) : recommendation N :=
  mkrec 12%N score
    [SpecializesIn "civil"; PracticesIn "Delhi"; FamiliarWith "South Delhi";
     YearsOfPractice 19; ModerateAvailability; fee; HighlyRated (48 # 10) (Some 200)]
    (48 # 10)%Q (Some 200).

Definition ai_disabled : pyexn :=
  HTTPException 400
    "This conversation is now with an advocate. AI responses are disabled.".

(** A phase in which [send_message] lets the assistant answer *)
Definition ai_phase (p : Conversation.ConversationPhase) : Prop :=
  p ∈ [Conversation.AI_INTERVIEW; Conversation.AI_COUNSELLING; Conversation.AI_DRAFTING].

(** * Theorems *)

Ltac run_unfold :=
  unfold run, mbind, M_bind, mret, M_ret, raise, lift, read, modify, commit,
    flush_Integer, create_notification, update_request, update_case,
    update_conversation,
    update_profile, set_advocate_profiles, set_cases, set_conversations,
    set_advocate_case_requests, set_messages, set_notifications in *.

Ltac unchanged := right; eexists; reflexivity.

(** ** Outcomes of the three lifecycle handlers *)

Lemma select_advocate_outcome case_id adv u nid d :
  (exists r c,
      run (Client.select_advocate case_id adv u nid) d
      = (Ok nid,
         mkdb (users d) (advocate_profiles d)
           (alter (fun c => Case.set_advocate_response (Some Case.PENDING)
                              (Case.set_selected_advocate_id (Some adv)
                                 (Case.set_status Case.PENDING_ADVOCATE c)))
              case_id (cases d))
           (conversations d) (advocate_case_requests d ++ [r]) (messages d)
           (notifications d ++ [Notification.mk adv "case_request"]))
      ∧ pending_requests case_id d = []
      ∧ is_pending_for case_id r
      ∧ AdvocateCaseRequest.advocate_id r = adv
      ∧ cases d !! case_id = Some c
      ∧ Case.client_id c = User.id u
      ∧ Case.status c ≠ Case.ADVOCATE_ASSIGNED)
  ∨ (exists e, run (Client.select_advocate case_id adv u nid) d = (Raise e, d)).
Proof.
  unfold Client.select_advocate. run_unfold. simpl.
  destruct (cases d !! case_id) as [c|] eqn:Hc; simpl; [|unchanged].
  rewrite filter_cons, filter_nil.
  destruct (decide (Case.client_id c = User.id u)) as [Hcl|]; simpl; [|unchanged].
  case_bool_decide as Hst; [unchanged|].
  fold (is_pending_for case_id).
  change (filter _ (advocate_case_requests d)) with (pending_requests case_id d).
  destruct (pending_requests case_id d) as [|p [|p' ps]] eqn:Hp; simpl;
    try unchanged.
  destruct (Backend.get_advocate_by_id d adv); simpl; [|unchanged].
  destruct (Backend.get_recommendations d _ (Some 20)) as [recs|e]; simpl;
    [|unchanged].
  left. eexists _, c. split; [reflexivity|]. by repeat split.
Qed.

Lemma accept_outcome request_id u now d :
  (exists v d', run (Advocate.accept_case_request request_id u now) d = (Ok v, d')
                ∧ accept_applied d d' request_id u now)
  ∨ (exists e, run (Advocate.accept_case_request request_id u now) d = (Raise e, d)).
Proof.
  unfold Advocate.accept_case_request. run_unfold. cbn.
  destruct (Advocate.find_request d request_id u) as [[cr|]|e] eqn:Hf; cbn;
    try unchanged.
  case_bool_decide as Hst; [unchanged|].
  destruct (cases d !! AdvocateCaseRequest.case_id cr) as [c|] eqn:Hc; cbn;
    rewrite ?Hc; cbn; [|unchanged].
  destruct (filter (fun p => AdvocateProfile.user_id p = User.id u)
              (advocate_profiles d)) as [|p [|p' ps]] eqn:Hp.
  all: destruct (Case.conversation_id c) as [cid|] eqn:Hcid; cbn.
  all: try (destruct (conversations d !! cid) as [cv|] eqn:Hcv; cbn;
            rewrite ?Hcv; cbn).
  all: rewrite ?Hp; cbn.
  all: try destruct (fits_Integer _); cbn.
  all: try unchanged.
  all: left; eexists _, _; (split; [reflexivity|]);
         exists cr, c; rewrite ?Hcid, ?Hp; repeat split; try done.
  all: cbn; symmetry; apply map_eq; intros i; rewrite lookup_alter;
         case_decide; subst; by rewrite ?Hcv.
Qed.

Lemma reject_outcome request_id reason u now d :
  (exists v d', run (Advocate.reject_case_request request_id reason u now) d = (Ok v, d')
                ∧ reject_applied d d' request_id reason u now)
  ∨ (exists e, run (Advocate.reject_case_request request_id reason u now) d
               = (Raise e, d)).
Proof.
  unfold Advocate.reject_case_request. run_unfold. cbn.
  destruct (Advocate.find_request d request_id u) as [[cr|]|e] eqn:Hf; cbn;
    try unchanged.
  case_bool_decide as Hst; [unchanged|].
  destruct (cases d !! AdvocateCaseRequest.case_id cr) as [c|] eqn:Hc; cbn;
    rewrite ?Hc; cbn; [|unchanged].
  left; eexists _, _; (split; [reflexivity|]). exists cr, c. by repeat split.
Qed.

Lemma find_request_id d request_id u cr :
  Advocate.find_request d request_id u = Ok (Some cr) ->
  AdvocateCaseRequest.id cr = request_id
  ∧ AdvocateCaseRequest.advocate_id cr = User.id u
  ∧ cr ∈ advocate_case_requests d.
Proof.
  unfold Advocate.find_request. intros Hfind.
  destruct (filter _ (advocate_case_requests d)) as [|r [|r' rs]] eqn:Hfl;
    simplify_eq/=.
  assert (Hin : cr ∈ filter (fun r => AdvocateCaseRequest.id r = request_id
                                      ∧ AdvocateCaseRequest.advocate_id r = User.id u)
                       (advocate_case_requests d))
    by (rewrite Hfl; left).
  apply list_elem_of_filter in Hin as [[? ?] ?]. done.
Qed.

(** ** The pending-request invariant *)

Lemma pending_after_update (f : AdvocateCaseRequest.t -> AdvocateCaseRequest.t)
    case_id l :
  (forall r, is_pending_for case_id (f r) -> is_pending_for case_id r) ->
  (List.length (filter (is_pending_for case_id) (map f l))
   <= List.length (filter (is_pending_for case_id) l))%nat.
Proof.
  intros Hf. induction l as [|r l IH]; [done|].
  cbn [map]. rewrite !filter_cons.
  destruct (decide (is_pending_for case_id (f r))) as [Hp|Hp].
  - apply Hf in Hp. rewrite decide_True by done. cbn. lia.
  - destruct (decide (is_pending_for case_id r)); cbn; lia.
Qed.

Lemma on_row_not_pending case_id k
    (f : AdvocateCaseRequest.t -> AdvocateCaseRequest.t) r :
  (forall r, AdvocateCaseRequest.status (f r) ≠ AdvocateCaseRequest.PENDING) ->
  is_pending_for case_id (on_row AdvocateCaseRequest.id k f r) ->
  is_pending_for case_id r.
Proof.
  intros Hf. unfold on_row. case_bool_decide; [|done].
  intros [_ Hs]. by apply Hf in Hs.
Qed.

Lemma exec_preserves d o :
  at_most_one_pending d -> at_most_one_pending (exec o d).
Proof.
  intros Hinv cid. specialize (Hinv cid) as Hc. unfold pending_requests in *.
  destruct o as [case_id adv u nid|rid u now|rid reason u now]; cbn [exec].
  - destruct (select_advocate_outcome case_id adv u nid d)
      as [(r & c & -> & Hnone & [Hr1 Hr2] & _)|[e ->]]; [|done].
    cbn. rewrite filter_app, length_app.
    destruct (decide (cid = case_id)) as [->|Hne].
    + unfold pending_requests in Hnone. rewrite Hnone.
      rewrite filter_cons, filter_nil. case_decide; cbn; lia.
    + rewrite filter_cons, filter_nil, decide_False; [cbn; lia|].
      intros [? _]. congruence.
  - destruct (accept_outcome rid u now d)
      as [(v & d' & -> & cr & c & _ & _ & _ & Hreq & _)|[e ->]]; [|done].
    cbn. rewrite Hreq. etrans; [|exact Hc].
    apply pending_after_update. intros r. by apply on_row_not_pending.
  - destruct (reject_outcome rid reason u now d)
      as [(v & d' & -> & cr & c & _ & _ & _ & Hreq & _)|[e ->]]; [|done].
    cbn. rewrite Hreq. etrans; [|exact Hc].
    apply pending_after_update. intros r. by apply on_row_not_pending.
Qed.

Lemma reachable_invariant d0 d :
  at_most_one_pending d0 -> reachable d0 d -> at_most_one_pending d.
Proof. intros H0 Hr. induction Hr; [done|]. by apply exec_preserves. Qed.

Lemma select_advocate_conflict case_id adv u nid d c :
  at_most_one_pending d ->
  cases d !! case_id = Some c ->
  Case.client_id c = User.id u ->
  Case.status c = Case.ADVOCATE_ASSIGNED ∨ pending_requests case_id d ≠ [] ->
  exists detail,
    run (Client.select_advocate case_id adv u nid) d
    = (Raise (HTTPException 400 detail), d).
Proof.
  intros Hinv Hc Hcl Hor.
  unfold Client.select_advocate. run_unfold. cbn. rewrite Hc. cbn.
  rewrite decide_True by done. cbn.
  case_bool_decide as Hst; [eexists; reflexivity|].
  destruct Hor as [?|Hp]; [done|].
  specialize (Hinv case_id). unfold pending_requests, is_pending_for in *.
  destruct (filter _ (advocate_case_requests d)) as [|p [|p' ps]]; cbn in *;
    [done|eexists; reflexivity|lia].
Qed.

(** C1.  Starting from a database in which every case has at most one
    pending request, every database reached through [select_advocate],
    accept and reject requests has at most one pending request per case.
    There, a [select_advocate] that succeeds found no pending request for
    the case and a case that is not [advocate_assigned], and appends one
    pending request; when the client's case is [advocate_assigned] or has a
    pending request, the call raises a 400 error and changes nothing. *)
Theorem pending_request_invariant d0 d :
  at_most_one_pending d0 ->
  reachable d0 d ->
  at_most_one_pending d
  ∧ forall case_id adv u nid,
      (forall rid d',
          run (Client.select_advocate case_id adv u nid) d = (Ok rid, d') ->
          pending_requests case_id d = []
          ∧ (exists c, cases d !! case_id = Some c
                       ∧ Case.status c ≠ Case.ADVOCATE_ASSIGNED)
          ∧ exists r, is_pending_for case_id r
                      ∧ advocate_case_requests d' = advocate_case_requests d ++ [r])
      ∧ (forall c,
            cases d !! case_id = Some c ->
            Case.client_id c = User.id u ->
            Case.status c = Case.ADVOCATE_ASSIGNED ∨ pending_requests case_id d ≠ [] ->
            exists detail,
              run (Client.select_advocate case_id adv u nid) d
              = (Raise (HTTPException 400 detail), d)).
Proof.
  intros H0 Hr. pose proof (reachable_invariant _ _ H0 Hr) as Hinv.
  split; [done|]. intros case_id adv u nid. split.
  - intros rid d' Hrun.
    destruct (select_advocate_outcome case_id adv u nid d)
      as [(r & c & Hok & Hnone & Hpend & _ & Hc & _ & Hst)|[e He]];
      [|congruence].
    rewrite Hok in Hrun. injection Hrun as _ <-.
    split; [done|]. split; [by exists c|]. by exists r.
  - intros c Hc Hcl Hor. by eapply select_advocate_conflict.
Qed.

Lemma pending_request_invariant_witness :
  at_most_one_pending (exec (SelectAdvocate 100 10 client_user 300) open_db).
Proof.
  refine (proj1 (pending_request_invariant open_db
                   (exec (SelectAdvocate 100 10 client_user 300) open_db) _ _)).
  - intros case_id. cbn. lia.
  - apply reachable_step, reachable_start.
Defined.

(** ** Accepting and rejecting *)

(** C2 (amended).  When the request found for the advocate is pending
    (its case exists and the advocate has at most one profile row, as the
    foreign key and the unique constraint of the schema have it) and the
    advocate's case load is below the largest value of the [Integer]
    column, accept succeeds and in the database after it the request is
    accepted with the response timestamp, the case is [advocate_assigned]
    to the accepting advocate, the linked conversation is [advocate_active]
    and the advocate's [current_case_load] is one more than before.  When
    the load plus one does not fit the column, accept raises [DBAPIError]
    and nothing is changed.  For every input the handler either applies all
    its changes or leaves the database as it was. *)
Theorem accept_pending_request d request_id u now :
  (forall cr c,
      Advocate.find_request d request_id u = Ok (Some cr) ->
      AdvocateCaseRequest.status cr = AdvocateCaseRequest.PENDING ->
      cases d !! AdvocateCaseRequest.case_id cr = Some c ->
      (List.length (filter (fun p => AdvocateProfile.user_id p = User.id u)
                      (advocate_profiles d)) <= 1)%nat ->
      (forall p, p ∈ advocate_profiles d ->
                 AdvocateProfile.user_id p = User.id u ->
                 Integer_min <= or_int (AdvocateProfile.current_case_load p) 0
                 < Integer_max) ->
      exists v d',
        run (Advocate.accept_case_request request_id u now) d = (Ok v, d')
        ∧ accept_postcondition d d' request_id u now cr c)
  ∧ (forall cr c p,
        Advocate.find_request d request_id u = Ok (Some cr) ->
        AdvocateCaseRequest.status cr = AdvocateCaseRequest.PENDING ->
        cases d !! AdvocateCaseRequest.case_id cr = Some c ->
        filter (fun p => AdvocateProfile.user_id p = User.id u) (advocate_profiles d)
        = [p] ->
        fits_Integer (or_int (AdvocateProfile.current_case_load p) 0 + 1) = false ->
        run (Advocate.accept_case_request request_id u now) d = (Raise DBAPIError, d))
  ∧ ((exists v d', run (Advocate.accept_case_request request_id u now) d = (Ok v, d')
                   ∧ accept_applied d d' request_id u now)
     ∨ (exists e, run (Advocate.accept_case_request request_id u now) d
                  = (Raise e, d))).
Proof.
  split; [|split; [|apply accept_outcome]].
  - intros cr c Hf Hst Hc Hlen Hload.
    destruct (accept_outcome request_id u now d)
      as [(v & d' & Hrun & cr' & c' & Hf' & _ & Hc' & Hreq & Hcases & Hconv & Hprof & _)
         |[e Hrun]].
    + rewrite Hf in Hf'. simplify_eq.
      destruct (find_request_id _ _ _ _ Hf) as (Hid & _ & _).
      exists v, d'. split; [done|]. split; [|split; [|split]].
      * intros r Hr Hrid. rewrite Hreq in Hr.
        apply list_elem_of_fmap in Hr as (r0 & -> & _).
        revert Hrid. unfold on_row. case_bool_decide; [done|]. congruence.
      * rewrite Hcases, lookup_alter, decide_True by done. rewrite Hc. cbn. eauto.
      * intros cid cv Hcid Hcv.
        rewrite Hconv, Hcid, lookup_alter, decide_True by done.
        rewrite Hcv. cbn. eauto.
      * intros i p Hi Hu. rewrite Hprof.
        assert (Hin : p ∈ filter (fun p => AdvocateProfile.user_id p = User.id u)
                            (advocate_profiles d)).
        { apply list_elem_of_filter. split; [done|]. by eapply list_elem_of_lookup_2. }
        destruct (filter _ (advocate_profiles d)) as [|p0 [|p1 ps]]; cbn in Hlen.
        -- by apply elem_of_nil in Hin.
        -- apply list_elem_of_singleton in Hin as ->.
           rewrite list_lookup_fmap, Hi. cbn. unfold on_row.
           rewrite bool_decide_true by done. eauto.
        -- lia.
    + exfalso. revert Hrun.
      unfold Advocate.accept_case_request. run_unfold. cbn.
      rewrite Hf. cbn. rewrite bool_decide_false by (intros ?; done). cbn.
      rewrite Hc. cbn.
      destruct (filter (fun p => AdvocateProfile.user_id p = User.id u)
                  (advocate_profiles d)) as [|p [|p' ps]] eqn:Hp;
        [| |cbn in Hlen; lia].
      2:{ assert (Hfit : fits_Integer
                           (or_int (AdvocateProfile.current_case_load p) 0 + 1) = true).
          { assert (Hin : p ∈ filter (fun p => AdvocateProfile.user_id p = User.id u)
                                (advocate_profiles d)) by (rewrite Hp; left).
            apply list_elem_of_filter in Hin as [Hu Hin].
            specialize (Hload p Hin Hu). unfold fits_Integer.
            apply andb_true_iff. split; [apply Z.leb_le|apply Z.leb_le]; lia. }
          destruct (Case.conversation_id c) as [cid|] eqn:Hcid; cbn.
          all: try (destruct (conversations d !! cid) as [cv|] eqn:Hcv; cbn;
                    rewrite ?Hcv; cbn).
          all: rewrite ?Hp; cbn; rewrite Hfit; cbn; done. }
      destruct (Case.conversation_id c) as [cid|] eqn:Hcid; cbn.
      all: try (destruct (conversations d !! cid) as [cv|] eqn:Hcv; cbn;
                rewrite ?Hcv; cbn).
      all: rewrite ?Hp; cbn; done.
  - intros cr c p Hf Hst Hc Hp Hfit.
    unfold Advocate.accept_case_request. run_unfold. cbn.
    rewrite Hf. cbn. rewrite bool_decide_false by (intros ?; done). cbn.
    rewrite Hc. cbn.
    destruct (Case.conversation_id c) as [cid|] eqn:Hcid; cbn.
    all: try (destruct (conversations d !! cid) as [cv|] eqn:Hcv; cbn;
              rewrite ?Hcv; cbn).
    all: rewrite ?Hp; cbn; rewrite Hfit; cbn; done.
Qed.

Lemma accept_pending_request_witness :
  exists v d',
    run (Advocate.accept_case_request 300 scenario_A_user 5) requested_db = (Ok v, d')
    ∧ accept_postcondition requested_db d' 300 scenario_A_user 5
        sample_request sample_case.
Proof.
  apply (proj1 (accept_pending_request requested_db 300 scenario_A_user 5)).
  - reflexivity.
  - reflexivity.
  - reflexivity.
  - vm_compute. lia.
  - intros p [->|[]%elem_of_nil]%elem_of_cons _. vm_compute. by split.
Defined.

(** C2, counterexample.  For an advocate whose case load is 2147483647, the
    largest value of the column, accept of a pending request raises and the
    database stays as it was: the request is still pending and the load is
    not one greater. *)
Lemma accept_fails_at_Integer_max :
  Advocate.find_request full_db 300 scenario_A_user = Ok (Some sample_request)
  ∧ AdvocateCaseRequest.status sample_request = AdvocateCaseRequest.PENDING
  ∧ AdvocateProfile.current_case_load full_profile = Some Integer_max
  ∧ run (Advocate.accept_case_request 300 scenario_A_user 5) full_db
    = (Raise DBAPIError, full_db).
Proof. repeat split. Qed.

(** C7.  When the request found for the advocate is not pending, accept and
    reject both raise the 400 error "This request has already been
    processed" and the database after the call is the database before it. *)
Theorem non_pending_request_unchanged d request_id reason u now cr :
  Advocate.find_request d request_id u = Ok (Some cr) ->
  AdvocateCaseRequest.status cr ≠ AdvocateCaseRequest.PENDING ->
  run (Advocate.accept_case_request request_id u now) d = (Raise already_processed, d)
  ∧ run (Advocate.reject_case_request request_id reason u now) d
    = (Raise already_processed, d).
Proof.
  intros Hf Hst.
  unfold Advocate.accept_case_request, Advocate.reject_case_request. run_unfold. cbn.
  rewrite Hf. cbn. by rewrite bool_decide_true.
Qed.

Lemma non_pending_request_unchanged_witness :
  run (Advocate.accept_case_request 300 scenario_A_user 9) answered_db
  = (Raise already_processed, answered_db)
  ∧ run (Advocate.reject_case_request 300 (Some "busy") scenario_A_user 9) answered_db
    = (Raise already_processed, answered_db).
Proof.
  apply (non_pending_request_unchanged answered_db 300 (Some "busy") scenario_A_user 9
           (accepted_request 5 sample_request)).
  - reflexivity.
  - discriminate.
Defined.

(** ** Dictionaries and clause sums *)

Lemma get_insert_ne (d : gmap string pyval) k k' v dflt :
  k ≠ k' -> get (<[k := v]> d) k' dflt = get d k' dflt.
Proof. intros. unfold get. by rewrite lookup_insert_ne. Qed.

Lemma get_insert_eq (d : gmap string pyval) k v dflt :
  get (<[k := v]> d) k dflt = v.
Proof. unfold get. by rewrite lookup_insert_eq. Qed.

Lemma get_none (d : gmap string pyval) k dflt : d !! k = None -> get d k dflt = dflt.
Proof. intros Hn. unfold get. by rewrite Hn. Qed.

Lemma add_nothing_r (x : acc) : add x nothing = x.
Proof.
  destruct x as [s rs]. unfold add, nothing. cbn.
  by rewrite Z.add_0_r, app_nil_r.
Qed.

Lemma py_in_elem s l : s ∈ l -> py_in (PStr s) l = true.
Proof. intros. cbn. by rewrite bool_decide_true. Qed.

(** ** The hard filters *)




(** ** Scenario A *)

(** C8.  For the advocate of Scenario A (states [Delhi], specializations
    [civil], 19 years, load 28 of 40, premium fees, rating 4.8, no
    languages and no success rate; the scenario's geography clause 10+10
    has South Delhi among the advocate's districts), the Scenario A case
    scores exactly 74, and the availability clause gives 4 points for the
    ratio 0.7, which is not below 0.7. *)
Theorem scenario_A_score profile user :
  AdvocateProfile.states profile = Some ["Delhi"] ->
  AdvocateProfile.primary_specializations profile = Some ["civil"] ->
  AdvocateProfile.experience_years profile = Some 19 ->
  AdvocateProfile.current_case_load profile = Some 28 ->
  AdvocateProfile.max_case_capacity profile = Some 40 ->
  AdvocateProfile.fee_category profile = Some AdvocateProfile.PREMIUM ->
  AdvocateProfile.rating profile = Some (48 # 10)%Q ->
  AdvocateProfile.is_available profile = Some true ->
  or_list (AdvocateProfile.languages profile) = [] ->
  dec_truthy (AdvocateProfile.success_rate profile) = false ->
  "South Delhi" ∈ or_list (AdvocateProfile.districts profile) ->
  Backend._calculate_match_score profile user scenario_A_case
  = Ok (pts 74,
        [SpecializesIn "civil"; PracticesIn "Delhi"; FamiliarWith "South Delhi";
         YearsOfPractice 19; ModerateAvailability; FeeMatches "premium";
         HighlyRated (48 # 10) (AdvocateProfile.review_count profile)])
  ∧ availability (Backend.workload_ratio profile) (PStr "normal")
    = (pts 4, [ModerateAvailability]).
Proof.
  intros Hst Hsp Hy Hl Hm Hf Hr Ha Hlang Hsucc Hd.
  split.
  - unfold Backend._calculate_match_score, Backend.excluded_by_jurisdiction,
      Backend.clauses, Backend.specialization_match, Backend.geographic_match,
      Backend.court_level_experience, Backend.workload_ratio,
      Backend.success_rate_bonus, Backend.advocate_fee, Backend.rating_value.
    rewrite Hst, Hsp, Hy, Hl, Hm, Hf, Hr, Ha, Hlang, Hsucc.
    change (get scenario_A_case "district" (PStr "")) with (PStr "South Delhi").
    rewrite (py_in_elem _ _ Hd).
    vm_compute. reflexivity.
  - unfold Backend.workload_ratio. rewrite Hl, Hm. reflexivity.
Qed.

Lemma scenario_A_score_witness :
  Backend._calculate_match_score (scenario_A_profile (Some ["South Delhi"]))
    scenario_A_user scenario_A_case
  = Ok (pts 74, scenario_A_reasons)
  ∧ availability (Backend.workload_ratio (scenario_A_profile (Some ["South Delhi"])))
      (PStr "normal")
    = (pts 4, [ModerateAvailability]).
Proof.
  apply (scenario_A_score (scenario_A_profile (Some ["South Delhi"])) scenario_A_user);
    try reflexivity.
  cbn. left.
Defined.

(** ** Senior counsel *)

(** C3 (amended).  In the bot's scorer, for an advocate and a case that
    pass the hard filters, when the case requires senior counsel and the
    advocate has at least 15 years of practice, the sum of the clauses is 5
    more than for the same case without the requirement, the reason "Senior
    counsel experience" is inserted, and the returned score is that sum
    capped at 100.  The backend's scorer has no such clause. *)
Theorem senior_counsel_bonus a cp s rs :
  Bot.excluded_by_jurisdiction a cp = false ->
  Bot.available_for_new_cases a = true ->
  truthy (get cp "requires_senior_counsel" (PBool false)) = true ->
  15 <= Bot.years_of_practice a ->
  Bot.clauses a (<["requires_senior_counsel" := PBool false]> cp) = Ok (s, rs) ->
  exists pre post,
    rs = pre ++ post
    ∧ Bot.clauses a cp = Ok (s + pts 5, pre ++ SeniorCounsel :: post)
    ∧ Bot.calculate_advocate_match_score a
        (<["requires_senior_counsel" := PBool false]> cp)
      = Ok (Z.min (pts 100) s, rs)
    ∧ Bot.calculate_advocate_match_score a cp
      = Ok (Z.min (pts 100) (s + pts 5), pre ++ SeniorCounsel :: post).
Proof.
  intros Hex Hav Hsen Hy Hcl.
  assert (exists pre post,
             rs = pre ++ post
             ∧ Bot.clauses a cp = Ok (s + pts 5, pre ++ SeniorCounsel :: post))
    as (pre & post & Hrs & Hcl').
  { revert Hcl. unfold Bot.clauses.
    rewrite get_insert_eq. rewrite !get_insert_ne by done.
    unfold Bot.senior_counsel. rewrite Hsen.
    cbn [truthy andb].
    rewrite (proj2 (Z.leb_le _ _) Hy). cbn [andb].
    destruct (Bot.specialization_match _ _ _ _) as [c1|]; [|done].
    destruct (Bot.geographic_match _ _ _ _) as [c2|]; [|done].
    destruct (experience_alignment _ _) as [c3|]; [|done].
    destruct (Bot.workload_ratio a) as [ratio|]; [|done].
    destruct (fee_alignment _ _) as [c6|]; [|done].
    destruct (py_iter _) as [requested|]; [|done].
    cbn. intros [= <- <-].
    exists (c1.2 ++ c2.2 ++ c3.2). eexists. split.
    - rewrite <- !app_assoc. cbn. reflexivity.
    - f_equal. unfold add. cbn [fst snd]. f_equal; [lia|].
      rewrite <- !app_assoc. reflexivity. }
  exists pre, post. split; [done|]. split; [done|].
  unfold Bot.calculate_advocate_match_score, Bot.excluded_by_jurisdiction in *.
  rewrite !get_insert_ne by done. rewrite Hex, Hav, Hcl, Hcl'. done.
Qed.

Lemma senior_counsel_bonus_witness :
  exists pre post,
    twin_reasons = pre ++ post
    ∧ Bot.clauses scenario_A_bot senior_case
      = Ok (pts 74 + pts 5, pre ++ SeniorCounsel :: post)
    ∧ Bot.calculate_advocate_match_score scenario_A_bot
        (<["requires_senior_counsel" := PBool false]> senior_case)
      = Ok (Z.min (pts 100) (pts 74), twin_reasons)
    ∧ Bot.calculate_advocate_match_score scenario_A_bot senior_case
      = Ok (Z.min (pts 100) (pts 74 + pts 5), pre ++ SeniorCounsel :: post).
Proof.
  apply (senior_counsel_bonus scenario_A_bot senior_case (pts 74) twin_reasons).
  - reflexivity.
  - reflexivity.
  - reflexivity.
  - cbn. lia.
  - vm_compute. reflexivity.
Defined.

(** C3, counterexample.  The backend's scorer gives the advocate of 19
    years the same 74 points whether or not the case requires senior
    counsel. *)
Lemma backend_ignores_senior_counsel :
  AdvocateProfile.experience_years twin_profile = Some 19
  ∧ Backend._calculate_match_score twin_profile scenario_A_user senior_case
    = Ok (pts 74, twin_reasons)
  ∧ Backend._calculate_match_score twin_profile scenario_A_user scenario_A_bot_case
    = Ok (pts 74, twin_reasons).
Proof. repeat split; vm_compute; reflexivity. Qed.

(** ** The stable descending sort *)

Section Sort.
Context {A : Type} (key : A -> Z).

Lemma insert_desc_perm x l : insert_desc key x l ≡ₚ x :: l.
Proof.
  induction l as [|y l IH]; cbn; [done|].
  case_match; [|done]. rewrite IH. apply Permutation_swap.
Qed.

Lemma sort_desc_perm l : sort_desc key l ≡ₚ l.
Proof.
  induction l as [|x l IH]; cbn; [done|].
  fold (sort_desc key l). by rewrite insert_desc_perm, IH.
Qed.

Lemma insert_desc_sorted x l :
  StronglySorted (desc key) l -> StronglySorted (desc key) (insert_desc key x l).
Proof.
  induction 1 as [|y l Hs IH Hall]; cbn.
  - by repeat constructor.
  - destruct (key x <? key y) eqn:Hlt.
    + apply Z.ltb_lt in Hlt. constructor; [done|].
      rewrite insert_desc_perm. constructor; [unfold desc; lia|done].
    + apply Z.ltb_ge in Hlt. constructor; [by constructor|].
      constructor; [done|].
      eapply Forall_impl; [exact Hall|]. unfold desc. intros; cbn in *; lia.
Qed.

Lemma sort_desc_sorted l : StronglySorted (desc key) (sort_desc key l).
Proof.
  induction l as [|x l IH]; cbn; [constructor|].
  by apply insert_desc_sorted.
Qed.

Lemma insert_desc_stable k x l :
  filter (fun y => key y = k) (insert_desc key x l)
  = filter (fun y => key y = k) (x :: l).
Proof.
  induction l as [|y l IH]; cbn; [done|].
  destruct (key x <? key y) eqn:Hlt; [|done].
  apply Z.ltb_lt in Hlt.
  rewrite (filter_cons _ y), IH, !filter_cons.
  repeat case_decide; try done; lia.
Qed.

Lemma sort_desc_stable k l :
  filter (fun y => key y = k) (sort_desc key l) = filter (fun y => key y = k) l.
Proof.
  induction l as [|x l IH]; cbn; [done|].
  fold (sort_desc key l). rewrite insert_desc_stable, !filter_cons, IH. done.
Qed.

Lemma elem_of_slice_to limit (l : list A) x : x ∈ slice_to limit l -> x ∈ l.
Proof.
  unfold slice_to. case_match; intros Hin; by eapply subseteq_take, Hin.
Qed.
End Sort.

Lemma sort_ranked_prefix {I} limit (scored : list (recommendation I)) :
  ranked_prefix limit scored (slice_to limit (sort_desc match_score scored)).
Proof.
  exists (sort_desc match_score scored). split; [apply sort_desc_perm|].
  split; [apply sort_desc_sorted|]. split; [|done].
  intros k. apply sort_desc_stable.
Qed.

(** ** Rankings *)

Lemma score_rows_elem rows cp scored :
  Backend.score_rows rows cp = Ok scored ->
  forall e, e ∈ scored <->
            exists row s rs,
              row ∈ rows
              ∧ Backend._calculate_match_score row.1 row.2 cp = Ok (s, rs)
              ∧ 0 < s ∧ e = backend_entry row s rs.
Proof.
  revert scored. induction rows as [|[p u] rows IH]; intros scored Hs e; cbn in Hs.
  - simplify_eq. split; [by intros ?%elem_of_nil|].
    by intros (row & ? & ? & ?%elem_of_nil & _).
  - destruct (Backend._calculate_match_score p u cp) as [[s rs]|] eqn:Hc; [|done].
    cbn in Hs. destruct (Backend.score_rows rows cp) as [rest|]; [|done].
    cbn in Hs. specialize (IH rest eq_refl e).
    destruct (0 <? s) eqn:Hpos; simplify_eq.
    + apply Z.ltb_lt in Hpos. rewrite elem_of_cons, IH. split.
      * intros [->|(row & s' & rs' & Hin & ?)].
        -- exists (p, u), s, rs. repeat split; [left|done..].
        -- exists row, s', rs'. split; [by right|done].
      * intros (row & s' & rs' & [->|Hin]%elem_of_cons & Hcalc & Hs' & ->).
        -- left. cbn in Hcalc. rewrite Hc in Hcalc. by simplify_eq.
        -- right. by exists row, s', rs'.
    + apply Z.ltb_ge in Hpos. rewrite IH. split.
      * intros (row & s' & rs' & Hin & ?). exists row, s', rs'.
        split; [by right|done].
      * intros (row & s' & rs' & [->|Hin]%elem_of_cons & Hcalc & Hs' & ->).
        -- cbn in Hcalc. rewrite Hc in Hcalc. simplify_eq. lia.
        -- by exists row, s', rs'.
Qed.

Lemma score_registry_elem registry ti scored :
  Bot.score_registry registry ti = Ok scored ->
  forall e, e ∈ scored <->
            exists item s rs,
              item ∈ registry
              ∧ Bot.calculate_advocate_match_score item.2 ti = Ok (s, rs)
              ∧ 0 < s ∧ e = bot_entry item s rs.
Proof.
  revert scored.
  induction registry as [|[i a] registry IH]; intros scored Hs e; cbn in Hs.
  - simplify_eq. split; [by intros ?%elem_of_nil|].
    by intros (row & ? & ? & ?%elem_of_nil & _).
  - destruct (Bot.calculate_advocate_match_score a ti) as [[s rs]|] eqn:Hc; [|done].
    cbn in Hs. destruct (Bot.score_registry registry ti) as [rest|]; [|done].
    cbn in Hs. specialize (IH rest eq_refl e).
    destruct (0 <? s) eqn:Hpos; simplify_eq.
    + apply Z.ltb_lt in Hpos. rewrite elem_of_cons, IH. split.
      * intros [->|(row & s' & rs' & Hin & ?)].
        -- exists (i, a), s, rs. repeat split; [left|done..].
        -- exists row, s', rs'. split; [by right|done].
      * intros (row & s' & rs' & [->|Hin]%elem_of_cons & Hcalc & Hs' & ->).
        -- left. cbn in Hcalc. rewrite Hc in Hcalc. by simplify_eq.
        -- right. by exists row, s', rs'.
    + apply Z.ltb_ge in Hpos. rewrite IH. split.
      * intros (row & s' & rs' & Hin & ?). exists row, s', rs'.
        split; [by right|done].
      * intros (row & s' & rs' & [->|Hin]%elem_of_cons & Hcalc & Hs' & ->).
        -- cbn in Hcalc. rewrite Hc in Hcalc. simplify_eq. lia.
        -- by exists row, s', rs'.
Qed.

Lemma score_rows_in_order rows cp results :
  Forall2 (fun row res => Backend._calculate_match_score row.1 row.2 cp = Ok res)
    rows results ->
  Backend.score_rows rows cp = Ok (positive_entries backend_entry rows results).
Proof.
  induction 1 as [|[p u] [s rs] rows results Hc _ IH]; [done|].
  cbn in Hc. cbn [Backend.score_rows]. rewrite Hc. cbn. rewrite IH. cbn.
  unfold positive_entries. cbn. by destruct (0 <? s).
Qed.

Lemma score_registry_in_order registry ti results :
  Forall2 (fun item res => Bot.calculate_advocate_match_score item.2 ti = Ok res)
    registry results ->
  Bot.score_registry registry ti = Ok (positive_entries bot_entry registry results).
Proof.
  induction 1 as [|[i a] [s rs] registry results Hc _ IH]; [done|].
  cbn in Hc. cbn [Bot.score_registry]. rewrite Hc. cbn. rewrite IH. cbn.
  unfold positive_entries. cbn. by destruct (0 <? s).
Qed.

(** C5 (amended).  When every candidate can be scored, the ranking
    functions return a list.  The candidates with a positive score and only
    those are kept, in directory order; they are sorted in descending score
    order by a stable sort, so that candidates with equal scores stay in
    directory order; and the list is cut after [limit] entries, 5 when the
    backend's caller gives no limit and always 5 in the bot. *)
Theorem recommendations_ranked :
  (forall d cp limit results,
      Forall2 (fun row res => Backend._calculate_match_score row.1 row.2 cp = Ok res)
        (Backend.available_advocates d) results ->
      exists recs,
        Backend.get_recommendations d cp limit = Ok recs
        ∧ (forall e, e ∈ positive_entries backend_entry (Backend.available_advocates d)
                           results <->
                     exists row s rs,
                       row ∈ Backend.available_advocates d
                       ∧ Backend._calculate_match_score row.1 row.2 cp = Ok (s, rs)
                       ∧ 0 < s ∧ e = backend_entry row s rs)
        ∧ ranked_prefix (default 5 limit)
            (positive_entries backend_entry (Backend.available_advocates d) results)
            recs)
  ∧ (forall registry tool_input results,
        Forall2 (fun item res =>
                   Bot.calculate_advocate_match_score item.2 tool_input = Ok res)
          registry results ->
        exists recs,
          Bot.execute_recommend_advocates_tool registry tool_input = Ok recs
          ∧ (forall e, e ∈ positive_entries bot_entry registry results <->
                       exists item s rs,
                         item ∈ registry
                         ∧ Bot.calculate_advocate_match_score item.2 tool_input
                           = Ok (s, rs)
                         ∧ 0 < s ∧ e = bot_entry item s rs)
          ∧ ranked_prefix 5 (positive_entries bot_entry registry results) recs)
  ∧ (forall I limit (l : list (recommendation I)),
        0 <= limit -> slice_to limit l = take (Z.to_nat limit) l).
Proof.
  split; [|split].
  - intros d cp limit results Hres.
    pose proof (score_rows_in_order _ _ _ Hres) as Hs.
    eexists. split; [|split].
    + unfold Backend.get_recommendations. rewrite Hs. reflexivity.
    + by apply score_rows_elem.
    + apply sort_ranked_prefix.
  - intros registry ti results Hres.
    pose proof (score_registry_in_order _ _ _ Hres) as Hs.
    eexists. split; [|split].
    + unfold Bot.execute_recommend_advocates_tool. rewrite Hs. reflexivity.
    + by apply score_registry_elem.
    + apply sort_ranked_prefix.
  - intros I limit l Hl. unfold slice_to.
    by rewrite (proj2 (Z.leb_le _ _) Hl).
Qed.

Lemma recommendations_ranked_witness :
  exists recs,
    Backend.get_recommendations (tie_db low_rated high_rated) scenario_A_case None
    = Ok recs
    ∧ (forall e, e ∈ positive_entries backend_entry
                       (Backend.available_advocates (tie_db low_rated high_rated))
                       tie_results <->
                 exists row s rs,
                   row ∈ Backend.available_advocates (tie_db low_rated high_rated)
                   ∧ Backend._calculate_match_score row.1 row.2 scenario_A_case
                     = Ok (s, rs)
                   ∧ 0 < s ∧ e = backend_entry row s rs)
    ∧ ranked_prefix 5
        (positive_entries backend_entry
           (Backend.available_advocates (tie_db low_rated high_rated)) tie_results)
        recs.
Proof.
  apply (proj1 recommendations_ranked (tie_db low_rated high_rated) scenario_A_case
           None tie_results).
  assert (Hrows : Backend.available_advocates (tie_db low_rated high_rated)
                  = [(low_rated, User.mk 11 "Low" true);
                     (high_rated, User.mk 12 "High" true)])
    by (vm_compute; reflexivity).
  rewrite Hrows.
  repeat (constructor; [vm_compute; reflexivity|]). constructor.
Defined.

(** C5, counterexample.  Two advocates with the same score of 74 are listed
    in the order of the directory, whichever of them has the higher rating
    and review count: no tie is broken by rating, review count or id. *)
Lemma ties_keep_directory_order :
  ranking_summary (Backend.get_recommendations (tie_db low_rated high_rated)
                     scenario_A_case None)
  = Ok [(11%N, pts 74, 46 # 10); (12%N, pts 74, 48 # 10)]%Q
  ∧ ranking_summary (Backend.get_recommendations (tie_db high_rated low_rated)
                       scenario_A_case None)
    = Ok [(12%N, pts 74, 48 # 10); (11%N, pts 74, 46 # 10)]%Q.
Proof. split; vm_compute; reflexivity. Qed.

(** ** The match data stored by [select_advocate] *)

Lemma get_recommendations_elem d cp limit recs e :
  Backend.get_recommendations d cp limit = Ok recs ->
  e ∈ recs ->
  exists row,
    row ∈ Backend.available_advocates d
    ∧ advocate_id e = User.id row.2
    ∧ Backend._calculate_match_score row.1 row.2 cp
      = Ok (match_score e, match_reasons e)
    ∧ 0 < match_score e.
Proof.
  unfold Backend.get_recommendations. cbn.
  destruct (Backend.score_rows _ cp) as [scored|] eqn:Hs; [|done].
  cbn. intros [= <-] Hin.
  apply elem_of_slice_to in Hin. rewrite sort_desc_perm in Hin.
  apply (score_rows_elem _ _ _ Hs) in Hin as (row & s & rs & Hrow & Hc & Hpos & ->).
  by exists row.
Qed.

(** What [select_advocate] stores.  When it succeeds, the request it
    appends is pending and carries the data of the selected advocate's entry
    in the ranking of the first twenty recommendations for the case: the
    integer part of that entry's score and its reasons, which are the
    scorer's result for that advocate on the six-field case profile; when
    the advocate has no entry in that ranking, it carries the score 50 and
    the reason "Selected by client". *)
Theorem select_advocate_match case_id adv u nid d rid d' :
  run (Client.select_advocate case_id adv u nid) d = (Ok rid, d') ->
  select_match_post case_id adv d d'.
Proof.
  unfold select_match_post, Client.select_advocate. run_unfold. simpl.
  destruct (cases d !! case_id) as [c|] eqn:Hc; simpl; [|done].
  rewrite filter_cons, filter_nil.
  destruct (decide (Case.client_id c = User.id u)) as [Hcl|]; simpl; [|done].
  case_bool_decide as Hst; [done|].
  destruct (filter _ (advocate_case_requests d)) as [|p [|p' ps]]; simpl; try done.
  destruct (Backend.get_advocate_by_id d adv); simpl; [|done].
  destruct (Backend.get_recommendations d _ (Some 20)) as [recs|e] eqn:Hrecs;
    simpl; [|done].
  intros [= <- <-]. eexists c, recs, _. split; [done|]. split; [done|].
  split; [reflexivity|]. split; [reflexivity|]. split; [reflexivity|].
  destruct (List.find _ recs) as [e|] eqn:Hfind; cbn.
  - apply find_some in Hfind as [Hin Hid]. apply bool_decide_eq_true in Hid.
    split; [done|]. split; [done|].
    apply list_elem_of_In in Hin.
    destruct (get_recommendations_elem _ _ _ _ _ Hrecs Hin)
      as (row & ? & Hrid & ? & ?).
    exists row. repeat split; try done. congruence.
  - done.
Qed.

Lemma select_advocate_match_witness :
  select_match_post 100 10 open_db
    (run (Client.select_advocate 100 10 client_user 300) open_db).2.
Proof.
  apply (select_advocate_match 100 10 client_user 300 open_db 300).
  vm_compute. reflexivity.
Defined.

(** C4, the failing input.  Selecting the advocate who is not accepting
    cases succeeds and stores the score 50 with the reason "Selected by
    client", while the scorer's result for that advocate and this case is 0
    with the reason "Currently not accepting new cases": the stored match
    data is not the score computed for the selected advocate. *)
Lemma selected_closed_advocate_gets_default :
  (run (Client.select_advocate 100 20 client_user 300) closed_db).1 = Ok 300%N
  ∧ advocate_case_requests
      (run (Client.select_advocate 100 20 client_user 300) closed_db).2
    = [default_request]
  ∧ Backend._calculate_match_score closed_profile closed_user
      (Client.select_case_profile sample_case)
    = Ok (0, [NotAccepting]).
Proof. repeat split; vm_compute; reflexivity. Qed.

(** ** Ingesting an extracted case profile *)

(** The update loop of [send_message] is the merge rule: extracted values
    that are null, or empty, never replace what a column holds. *)
Lemma update_case_profile_merges cp c :
  Client.update_case_profile cp c = merged_case cp c.
Proof.
  unfold Client.update_case_profile.
  apply (map_fold_weak_ind (fun r m => r = merged_case m c)).
  - by destruct c.
  - intros i x m r Hnone ->.
    unfold Case.setattr.
    unfold merged_case, merge_column.
    repeat match goal with
           | |- context [String.eqb i ?k] =>
               destruct (String.eqb_spec i k) as [->|?];
               [simplify_map_eq; destruct (truthy x); reflexivity|]
           end.
    simplify_map_eq. destruct (truthy x); reflexivity.
Qed.

Lemma merge_column_idem cp key old :
  merge_column cp key (merge_column cp key old) = merge_column cp key old.
Proof.
  unfold merge_column.
  destruct (cp !! key) as [v|]; [by destruct (truthy v)|done].
Qed.

(** On a case that exists, the update is idempotent. *)
Lemma update_case_profile_idempotent cp c :
  Client.update_case_profile cp (Client.update_case_profile cp c)
  = Client.update_case_profile cp c.
Proof.
  rewrite !update_case_profile_merges. unfold merged_case. cbn.
  by rewrite !merge_column_idem.
Qed.

Lemma merge_column_get cp key :
  merge_column cp key (get cp key PNone) = get cp key PNone.
Proof.
  unfold merge_column, get.
  destruct (cp !! key) as [v|]; [by destruct (truthy v)|done].
Qed.

(** A second ingestion leaves a case that the first one created as it is,
    as long as the extraction brings no urgency and no amount in dispute. *)
Lemma update_after_create cp new_id u conversation_id :
  merge_column cp "urgency" PNone = PNone ->
  merge_column cp "amount_in_dispute" PNone = PNone ->
  Client.update_case_profile cp (Client.new_case new_id u conversation_id cp)
  = Client.new_case new_id u conversation_id cp.
Proof.
  intros Hu Ha. rewrite update_case_profile_merges.
  unfold merged_case, Client.new_case. cbn.
  by rewrite !merge_column_get, Hu, Ha.
Qed.

(** C9, the failing input.  In a conversation that has no case yet, the
    extraction [{matter_type: civil, state: Delhi, urgency: urgent}] creates
    a case whose urgency is null; the same extraction ingested again goes
    through the update loop and sets the urgency, so the case after two
    calls differs from the case after one. *)
Lemma ingest_twice_differs :
  Case.urgency <$> cases ingest_once !! 500%N = Some PNone
  ∧ Case.urgency <$> cases ingest_twice !! 500%N = Some (PStr "urgent")
  ∧ cases ingest_once !! 500%N ≠ cases ingest_twice !! 500%N.
Proof.
  split; [vm_compute; reflexivity|]. split; [vm_compute; reflexivity|].
  vm_compute. discriminate.
Qed.

(** ** The two scorers compared *)

Lemma py_in_nonempty v l : "" ∉ l -> py_in v l = true -> truthy v = true.
Proof.
  destruct v as [| | |s|]; cbn; try done.
  intros Hl Hin%bool_decide_eq_true.
  destruct (String.eqb_spec s ""); [by subst|done].
Qed.

Lemma truthy_and_in v l : "" ∉ l -> truthy v && py_in v l = py_in v l.
Proof.
  intros Hl. destruct (py_in v l) eqn:Hin; [|by rewrite andb_false_r].
  by rewrite (py_in_nonempty _ _ Hl Hin).
Qed.

Lemma contains_empty s : s ≠ "" -> contains (lower s) "" = false.
Proof. by destruct s. Qed.

Lemma expertise_guard l subs bonus r :
  (if truthy (PList l) then expertise_loop (PList l) subs bonus r else Ok nothing)
  = expertise_loop (PList l) subs bonus r.
Proof. by destruct l. Qed.

Lemma languages_guard l :
  (if truthy (PList l) then py_iter (PList l) else Ok []) = py_iter (PList l).
Proof. by destruct l. Qed.

Section Equivalence.
Context (a : Bot.AdvocateProfile) (p : AdvocateProfile.t) (cp : gmap string pyval).
Context (Hcorr : corresponds a p) (Hcmp : comparable a p cp).

Lemma specialization_agrees :
  Backend.specialization_match
    (get cp "matter_type" (PStr "")) (get cp "sub_category" (PStr ""))
    (get cp "specific_expertise_needed" (PList []))
    (or_list (AdvocateProfile.primary_specializations p))
    (or_list (AdvocateProfile.sub_specializations p))
  = Bot.specialization_match a
      (get cp "matter_type" (PStr "")) (get cp "sub_category" (PStr ""))
      (get cp "specific_expertise_needed" (PList [])).
Proof.
  unfold Backend.specialization_match, Bot.specialization_match.
  rewrite (corr_specializations _ _ Hcorr), (corr_sub_specializations _ _ Hcorr).
  rewrite (truthy_and_in _ _ (cmp_specializations _ _ _ Hcmp)).
  destruct (cmp_expertise _ _ _ Hcmp) as [l ->].
  by rewrite !expertise_guard.
Qed.

Lemma geographic_agrees :
  py_in (get cp "state" (PStr "")) (Bot.practicing_states a) = true ->
  Backend.geographic_match p
    (get cp "state" (PStr "")) (get cp "district" (PStr ""))
    (get cp "court_level" (PStr "district"))
    (or_list (AdvocateProfile.states p)) (or_list (AdvocateProfile.districts p))
  = Bot.geographic_match a
      (get cp "state" (PStr "")) (get cp "district" (PStr ""))
      (get cp "court_level" (PStr "district")).
Proof.
  intros Hin.
  unfold Backend.geographic_match, Bot.geographic_match.
  rewrite (corr_states _ _ Hcorr), (corr_districts _ _ Hcorr), Hin.
  rewrite (truthy_and_in _ _ (cmp_districts _ _ _ Hcmp)).
  rewrite <- (corr_home_court _ _ Hcorr).
  destruct (cmp_state _ _ _ Hcmp) as (s & -> & Hs).
  destruct (py_eq_str _ "high_court"); [|done]. cbn [andb].
  destruct (str_truthy (AdvocateProfile.home_court p)) eqn:Hhc; [done|].
  assert (default "" (AdvocateProfile.home_court p) = "") as ->.
  { destruct (AdvocateProfile.home_court p) as [hc|]; [|done]. cbn in *.
    destruct (String.eqb_spec hc ""); [done|discriminate]. }
  unfold py_lower. change (lower "") with "". cbn [mbind res_bind].
  by rewrite (contains_empty _ Hs).
Qed.

Lemma landmark_agrees :
  Backend.court_level_experience p (get cp "court_level" (PStr "district")) = nothing
  ∧ Bot.court_level_experience a (get cp "court_level" (PStr "district")) = nothing.
Proof.
  unfold Backend.court_level_experience, Bot.court_level_experience.
  pose proof (cmp_landmark _ _ _ Hcmp) as Hl.
  destruct (py_eq_str _ "high_court"); [|done].
  destruct (Hl eq_refl) as [Hbot Hback]. cbn [andb]. split.
  - destruct (str_truthy (AdvocateProfile.landmark_cases p)); [|done].
    specialize (Hback eq_refl).
    by rewrite (proj2 (Z.ltb_ge _ _) Hback).
  - by rewrite (proj2 (Z.ltb_ge _ _) Hbot).
Qed.

Lemma workload_agrees :
  Bot.workload_ratio a = Ok (Backend.workload_ratio p).
Proof.
  unfold Bot.workload_ratio, Backend.workload_ratio.
  rewrite (corr_capacity _ _ Hcorr), (corr_load _ _ Hcorr).
  pose proof (cmp_capacity _ _ _ Hcmp) as Hpos.
  rewrite (proj2 (Z.ltb_lt _ _) Hpos).
  destruct (Z.eqb_spec (Bot.max_case_load a) 0); [lia|done].
Qed.

Lemma success_agrees :
  Backend.success_rate_bonus p = Bot.success_rate_bonus a.
Proof.
  unfold Backend.success_rate_bonus, Bot.success_rate_bonus.
  destruct (corr_success _ _ Hcorr) as [Hex Hgood].
  destruct (String.eqb_spec (Bot.success_rate_category a) "excellent") as [He|He].
  - apply Hex in He as [-> ->]. done.
  - destruct (String.eqb_spec (Bot.success_rate_category a) "good") as [Hg|Hg].
    + apply Hgood in Hg as (-> & -> & ->). done.
    + destruct (dec_truthy (AdvocateProfile.success_rate p)) eqn:Ht; [|done].
      destruct (Qgeb _ 80) eqn:H80; [by destruct He; apply Hex|].
      destruct (Qgeb _ 60) eqn:H60; [by destruct Hg; apply Hgood|done].
Qed.

Lemma clauses_agree :
  py_in (get cp "state" (PStr "")) (Bot.practicing_states a) = true ->
  Backend.clauses p cp = Bot.clauses a cp.
Proof.
  intros Hin. unfold Backend.clauses, Bot.clauses.
  rewrite specialization_agrees, (geographic_agrees Hin), workload_agrees.
  destruct landmark_agrees as [-> ->].
  rewrite success_agrees.
  rewrite (get_none cp "complexity") by apply (cmp_complexity _ _ _ Hcmp).
  rewrite (get_none cp "urgency") by apply (cmp_urgency _ _ _ Hcmp).
  rewrite (corr_years _ _ Hcorr), (corr_fee _ _ Hcorr), (corr_languages _ _ Hcorr),
    (corr_rating _ _ Hcorr), (corr_reviews _ _ Hcorr).
  assert (Bot.senior_counsel a (get cp "requires_senior_counsel" (PBool false))
          = nothing) as ->.
  { unfold Bot.senior_counsel.
    destruct (cmp_senior _ _ _ Hcmp) as [->|Hy]; [done|].
    rewrite (proj2 (Z.leb_gt _ _) Hy). by rewrite andb_false_r. }
  destruct (cmp_languages _ _ _ Hcmp) as [l ->]. rewrite languages_guard.
  destruct (Bot.specialization_match _ _ _ _) as [c1|]; [|done].
  destruct (Bot.geographic_match _ _ _ _) as [c2|]; [|done].
  destruct (experience_alignment _ _) as [c3|]; [|done].
  cbn. destruct (fee_alignment _ _) as [c6|]; [|done].
  cbn. by rewrite !add_nothing_r.
Qed.

(** C10 (amended).  For a registry entry of the bot and a backend row that
    correspond field by field, the two scorers return the same score and the
    same reasons on every case profile that names a non-empty state, gives
    its lists as lists, uses the keys [estimated_complexity] and
    [urgency_level], and earns neither the senior-counsel nor the
    high-court landmark bonus, provided the advocate has a state list, no
    empty specialization or district and a positive capacity. *)
Theorem scorers_agree u :
  Backend._calculate_match_score p u cp = Bot.calculate_advocate_match_score a cp.
Proof.
  unfold Backend._calculate_match_score, Bot.calculate_advocate_match_score.
  assert (Backend.excluded_by_jurisdiction p cp = Bot.excluded_by_jurisdiction a cp)
    as ->.
  { unfold Backend.excluded_by_jurisdiction, Bot.excluded_by_jurisdiction.
    rewrite (corr_states _ _ Hcorr).
    destruct (cmp_state _ _ _ Hcmp) as (s & -> & Hs).
    pose proof (cmp_states _ _ _ Hcmp).
    destruct (Bot.practicing_states a); [done|].
    cbn. destruct (String.eqb_spec s ""); done. }
  destruct (Bot.excluded_by_jurisdiction a cp) eqn:Hex.
  - by destruct (cmp_state _ _ _ Hcmp) as (s & -> & Hs).
  - rewrite (corr_available _ _ Hcorr).
    destruct (Bot.available_for_new_cases a); [|done]. cbn.
    rewrite clauses_agree; [done|].
    unfold Bot.excluded_by_jurisdiction in Hex. by apply negb_false_iff in Hex.
Qed.
End Equivalence.

Lemma twin_corresponds : corresponds scenario_A_bot twin_profile.
Proof.
  constructor; try reflexivity.
  split; split; cbn; try discriminate; by intros [? ?].
Qed.

Lemma twin_comparable : comparable scenario_A_bot twin_profile scenario_A_bot_case.
Proof.
  constructor; try reflexivity.
  - exists "Delhi". split; [reflexivity|discriminate].
  - discriminate.
  - cbn. by intros [?|[]%elem_of_nil]%elem_of_cons.
  - cbn. by intros [?|[]%elem_of_nil]%elem_of_cons.
  - by exists [].
  - by exists ["Hindi"; "English"].
  - by left.
  - intros Hhc. vm_compute in Hhc. discriminate.
Qed.

Lemma scorers_agree_witness :
  Backend._calculate_match_score twin_profile scenario_A_user scenario_A_bot_case
  = Bot.calculate_advocate_match_score scenario_A_bot scenario_A_bot_case.
Proof.
  exact (scorers_agree scenario_A_bot twin_profile scenario_A_bot_case
           twin_corresponds twin_comparable scenario_A_user).
Defined.

(** C10, counterexample.  For the corresponding pair of Scenario A and a
    case that requires senior counsel, the backend returns 74 and the bot
    returns 79 with one more reason. *)
Lemma scorers_differ_on_senior_counsel :
  Backend._calculate_match_score twin_profile scenario_A_user senior_case
  = Ok (pts 74, twin_reasons)
  ∧ Bot.calculate_advocate_match_score scenario_A_bot senior_case
    = Ok (pts 79, twin_senior_reasons)
  ∧ Backend._calculate_match_score twin_profile scenario_A_user senior_case
    ≠ Bot.calculate_advocate_match_score scenario_A_bot senior_case.
Proof.
  split; [vm_compute; reflexivity|]. split; [vm_compute; reflexivity|].
  vm_compute. discriminate.
Qed.

(** * Further properties of the code *)

(** ** The range of the scores *)

Lemma expertise_loop_bounds se subs bonus r c :
  0 <= bonus ->
  expertise_loop se subs bonus r = Ok c -> 0 <= c.1 <= pts bonus.
Proof.
  intros Hb. unfold expertise_loop.
  destruct (py_iter se) as [items|]; [|done]. cbn.
  destruct (first_expertise items subs); intros [= <-]; unfold pts; cbn; lia.
Qed.

Lemma sub_category_loop_bounds sc subs c :
  sub_category_loop sc subs = Ok c -> 0 <= c.1 <= pts 5.
Proof.
  unfold sub_category_loop.
  destruct (truthy sc); [|intros [= <-]; unfold pts; cbn; lia].
  destruct subs as [|sub subs]; [intros [= <-]; unfold pts; cbn; lia|].
  destruct (py_lower sc) as [l|]; [|done]. cbn [mbind res_bind].
  case_match; intros [= <-]; unfold pts; cbn; lia.
Qed.

Lemma backend_specialization_bounds mt sc se specs subs c :
  Backend.specialization_match mt sc se specs subs = Ok c -> 0 <= c.1 <= pts 30.
Proof.
  unfold Backend.specialization_match.
  destruct (truthy mt && py_in mt specs).
  - destruct (truthy se).
    + destruct (expertise_loop se subs 5 ExpertIn) as [e|] eqn:He; [|done].
      apply expertise_loop_bounds in He; [|lia]. cbn [mbind res_bind].
      destruct (sub_category_loop sc subs) as [s|] eqn:Hs; [|done].
      apply sub_category_loop_bounds in Hs. cbn [mbind res_bind].
      intros [= <-]. unfold add, pts in *. cbn in *. lia.
    + cbn [mbind res_bind].
      destruct (sub_category_loop sc subs) as [s|] eqn:Hs; [|done].
      apply sub_category_loop_bounds in Hs. cbn [mbind res_bind].
      intros [= <-]. unfold add, pts in *. cbn in *. lia.
  - destruct (truthy se).
    + intros He. apply expertise_loop_bounds in He; unfold pts in *; lia.
    + intros [= <-]. unfold pts. cbn. lia.
Qed.

Lemma backend_geographic_bounds p st di cl sts dis c :
  Backend.geographic_match p st di cl sts dis = Ok c -> 0 <= c.1 <= pts 25.
Proof.
  unfold Backend.geographic_match.
  destruct (py_eq_str cl "high_court" && str_truthy (AdvocateProfile.home_court p)).
  - destruct (py_lower st) as [l|]; [|done]. cbn [mbind res_bind].
    repeat case_match; intros [= <-]; unfold add, pts, nothing; cbn; lia.
  - cbn [mbind res_bind].
    repeat case_match; intros [= <-]; unfold add, pts, nothing; cbn; lia.
Qed.

Lemma experience_bounds cx y c :
  experience_alignment cx y = Ok c -> pts 5 <= c.1 <= pts 15.
Proof.
  unfold experience_alignment.
  destruct (complexity_requirements cx) as [m|]; [|done]. cbn [mbind res_bind].
  destruct (m <=? y) eqn:Hle; intros [= <-]; unfold pts; cbn; [|lia].
  apply Z.leb_le in Hle. lia.
Qed.

Lemma backend_landmark_bounds p cl :
  0 <= (Backend.court_level_experience p cl).1 <= pts 3.
Proof.
  unfold Backend.court_level_experience.
  repeat case_match; unfold pts, nothing; cbn; lia.
Qed.

Lemma availability_bounds ratio u :
  pts 2 - pts 5 <= (availability ratio u).1 <= pts 10.
Proof. unfold availability. repeat case_match; unfold pts; cbn; lia. Qed.

Lemma fee_bounds b f c : fee_alignment b f = Ok c -> pts 2 <= c.1 <= pts 10.
Proof.
  unfold fee_alignment.
  destruct (fee_mapping b) as [l|]; [|done]. cbn [mbind res_bind].
  repeat case_match; intros [= <-]; unfold pts; cbn; lia.
Qed.

Lemma language_bounds req langs : 0 <= (language_match req langs).1 <= pts 5.
Proof.
  unfold language_match.
  destruct (nonempty _); unfold pts, nothing; cbn [fst]; lia.
Qed.

Lemma rating_bounds r n : 0 <= (rating_bonus r n).1 <= pts 5.
Proof. unfold rating_bonus. repeat case_match; unfold pts, nothing; cbn; lia. Qed.

Lemma backend_success_bounds p : 0 <= (Backend.success_rate_bonus p).1 <= pts 3.
Proof.
  unfold Backend.success_rate_bonus. repeat case_match; unfold pts, nothing; cbn; lia.
Qed.

Lemma backend_clauses_bounds p cp c :
  Backend.clauses p cp = Ok c -> pts 4 <= c.1 <= pts 106.
Proof.
  unfold Backend.clauses.
  destruct (Backend.specialization_match _ _ _ _ _) as [c1|] eqn:H1; [|done].
  apply backend_specialization_bounds in H1. cbn [mbind res_bind].
  destruct (Backend.geographic_match _ _ _ _ _ _) as [c2|] eqn:H2; [|done].
  apply backend_geographic_bounds in H2. cbn [mbind res_bind].
  destruct (experience_alignment _ _) as [c3|] eqn:H3; [|done].
  apply experience_bounds in H3. cbn [mbind res_bind].
  destruct (fee_alignment _ _) as [c6|] eqn:H6; [|done].
  apply fee_bounds in H6. cbn [mbind res_bind].
  destruct (if truthy _ then _ else _) as [req|]; [|done]. cbn [mbind res_bind].
  intros [= <-].
  pose proof (backend_landmark_bounds p (get cp "court_level" (PStr "district"))).
  pose proof (availability_bounds (Backend.workload_ratio p)
                (get cp "urgency" (get cp "urgency_level" (PStr "normal")))).
  pose proof (language_bounds req (or_list (AdvocateProfile.languages p))).
  pose proof (rating_bounds (Backend.rating_value p) (AdvocateProfile.review_count p)).
  pose proof (backend_success_bounds p).
  unfold add, pts in *. cbn [fst] in *. lia.
Qed.

(** X1.  A score that [_calculate_match_score] returns lies between 0 and
    100.  It is positive exactly when the advocate passes both hard filters
    (jurisdiction and availability), and is then at least 4; a zero score
    comes with exactly one reason. *)
Theorem backend_score_range p u cp s rs :
  Backend._calculate_match_score p u cp = Ok (s, rs) ->
  0 <= s <= pts 100
  ∧ (0 < s <-> Backend.excluded_by_jurisdiction p cp = false
               ∧ bool_truthy (AdvocateProfile.is_available p) = true)
  ∧ (0 < s -> pts 4 <= s)
  ∧ (s = 0 -> List.length rs = 1%nat).
Proof.
  unfold Backend._calculate_match_score.
  destruct (Backend.excluded_by_jurisdiction p cp).
  { intros [= <- <-]. unfold pts. repeat split; try lia; try done; try (by intros [? ?]). }
  destruct (bool_truthy (AdvocateProfile.is_available p)); cbn [negb].
  2:{ intros [= <- <-]. unfold pts. repeat split; try lia; try done; try (by intros [? ?]). }
  destruct (Backend.clauses p cp) as [[s0 rs0]|] eqn:Hc; [|done].
  apply backend_clauses_bounds in Hc. cbn in Hc. cbn [mbind res_bind].
  intros [= <- <-]. unfold pts in *. repeat split; try lia.
Qed.

Lemma backend_score_range_witness : 0 <= pts 74 <= pts 100.
Proof.
  apply (backend_score_range (scenario_A_profile (Some ["South Delhi"])) scenario_A_user
           scenario_A_case (pts 74) scenario_A_reasons).
  vm_compute. reflexivity.
Defined.

Lemma bot_specialization_bounds a mt sc se c :
  Bot.specialization_match a mt sc se = Ok c -> 0 <= c.1 <= pts 30.
Proof.
  unfold Bot.specialization_match.
  destruct (py_in mt (Bot.specializations a)).
  - destruct (expertise_loop se _ 5 ExpertIn) as [e|] eqn:He; [|done].
    apply expertise_loop_bounds in He; [|lia]. cbn [mbind res_bind].
    destruct (sub_category_loop sc _) as [s|] eqn:Hs; [|done].
    apply sub_category_loop_bounds in Hs. cbn [mbind res_bind].
    intros [= <-]. unfold add, pts in *. cbn in *. lia.
  - intros He. apply expertise_loop_bounds in He; unfold pts in *; lia.
Qed.

Lemma bot_geographic_bounds a st di cl c :
  Bot.geographic_match a st di cl = Ok c -> pts 10 <= c.1 <= pts 25.
Proof.
  unfold Bot.geographic_match.
  destruct (py_eq_str cl "high_court").
  - destruct (py_lower st) as [l|]; [|done]. cbn [mbind res_bind].
    repeat case_match; intros [= <-]; unfold add, pts, nothing; cbn; lia.
  - cbn [mbind res_bind].
    repeat case_match; intros [= <-]; unfold add, pts, nothing; cbn; lia.
Qed.

Lemma bot_clauses_bounds a cp c :
  Bot.clauses a cp = Ok c -> pts 14 <= c.1 <= pts 111.
Proof.
  unfold Bot.clauses.
  destruct (Bot.specialization_match _ _ _ _) as [c1|] eqn:H1; [|done].
  apply bot_specialization_bounds in H1. cbn [mbind res_bind].
  destruct (Bot.geographic_match _ _ _ _) as [c2|] eqn:H2; [|done].
  apply bot_geographic_bounds in H2. cbn [mbind res_bind].
  destruct (experience_alignment _ _) as [c3|] eqn:H3; [|done].
  apply experience_bounds in H3. cbn [mbind res_bind].
  destruct (Bot.workload_ratio a) as [ratio|]; [|done]. cbn [mbind res_bind].
  destruct (fee_alignment _ _) as [c6|] eqn:H6; [|done].
  apply fee_bounds in H6. cbn [mbind res_bind].
  destruct (py_iter _) as [req|]; [|done]. cbn [mbind res_bind].
  intros [= <-].
  assert (0 <= (Bot.senior_counsel a
                  (get cp "requires_senior_counsel" (PBool false))).1 <= pts 5).
  { unfold Bot.senior_counsel. case_match; unfold pts, nothing; cbn; lia. }
  assert (0 <= (Bot.court_level_experience a
                  (get cp "court_level" (PStr "district"))).1 <= pts 3).
  { unfold Bot.court_level_experience. case_match; unfold pts, nothing; cbn; lia. }
  pose proof (availability_bounds ratio (get cp "urgency_level" (PStr "normal"))).
  pose proof (language_bounds req (Bot.languages a)).
  pose proof (rating_bounds (Bot.rating a) (Some (Bot.total_reviews a))).
  assert (0 <= (Bot.success_rate_bonus a).1 <= pts 3).
  { unfold Bot.success_rate_bonus. repeat case_match; unfold pts, nothing; cbn; lia. }
  unfold add, pts in *. cbn [fst] in *. lia.
Qed.

(** X2.  A score that the bot's [calculate_advocate_match_score] returns
    lies between 0 and 100.  It is positive exactly when the case's state is
    among the advocate's practicing states and the advocate accepts new
    cases, and is then at least 14; a zero score comes with exactly one
    reason. *)
Theorem bot_score_range a cp s rs :
  Bot.calculate_advocate_match_score a cp = Ok (s, rs) ->
  0 <= s <= pts 100
  ∧ (0 < s <-> py_in (get cp "state" (PStr "")) (Bot.practicing_states a) = true
               ∧ Bot.available_for_new_cases a = true)
  ∧ (0 < s -> pts 14 <= s)
  ∧ (s = 0 -> List.length rs = 1%nat).
Proof.
  unfold Bot.calculate_advocate_match_score, Bot.excluded_by_jurisdiction.
  destruct (py_in _ (Bot.practicing_states a)); cbn [negb].
  2:{ destruct (get cp "state" (PStr "")); try done.
      intros [= <- <-]. unfold pts.
      repeat split; try lia; try done; try (by intros [? ?]). }
  destruct (Bot.available_for_new_cases a); cbn [negb].
  2:{ intros [= <- <-]. unfold pts.
      repeat split; try lia; try done; try (by intros [? ?]). }
  destruct (Bot.clauses a cp) as [[s0 rs0]|] eqn:Hc; [|done].
  apply bot_clauses_bounds in Hc. cbn in Hc. cbn [mbind res_bind].
  intros [= <- <-]. unfold pts in *. repeat split; try lia.
Qed.

Lemma bot_score_range_witness : 0 <= pts 74 <= pts 100.
Proof.
  apply (bot_score_range scenario_A_bot scenario_A_bot_case (pts 74) twin_reasons).
  vm_compute. reflexivity.
Defined.

(** ** Stronger profiles *)

Lemma or_int_some z : or_int (Some z) 0 = z.
Proof. cbn. destruct (Z.eqb_spec z 0); by subst. Qed.

Lemma experience_monotone cx y y' c :
  y <= y' ->
  experience_alignment cx y = Ok c ->
  exists c', experience_alignment cx y' = Ok c' ∧ c.1 <= c'.1.
Proof.
  intros Hy. unfold experience_alignment.
  destruct (complexity_requirements cx) as [m|]; [|done]. cbn [mbind res_bind].
  destruct (m <=? y) eqn:H1; destruct (m <=? y') eqn:H2; intros [= <-];
    eexists; (split; [reflexivity|]); unfold pts; cbn;
    apply Z.leb_le in H1 || apply Z.leb_gt in H1;
    apply Z.leb_le in H2 || apply Z.leb_gt in H2; lia.
Qed.

Lemma Qltb_lt x y : Qltb x y = true <-> (x < y)%Q.
Proof.
  unfold Qltb. rewrite negb_true_iff. split.
  - intros H. apply Qnot_le_lt. intros Hle. apply Qle_bool_iff in Hle. congruence.
  - intros H. destruct (Qle_bool y x) eqn:E; [|done].
    apply Qle_bool_iff in E. exfalso. by eapply Qlt_not_le.
Qed.

Lemma Qltb_mono x x' t : (x <= x')%Q -> Qltb x' t = true -> Qltb x t = true.
Proof. rewrite !Qltb_lt. intros. by eapply Qle_lt_trans. Qed.

Lemma availability_antitone r r' u :
  (r <= r')%Q -> (availability r' u).1 <= (availability r u).1.
Proof.
  intros Hr. unfold availability.
  destruct (Qltb r' (5 # 10)) eqn:H5.
  { by rewrite (Qltb_mono _ _ _ Hr H5). }
  destruct (Qltb r' (7 # 10)) eqn:H7.
  { rewrite (Qltb_mono _ _ _ Hr H7). case_match; unfold pts; cbn; lia. }
  destruct (Qltb r' (9 # 10)) eqn:H9.
  { rewrite (Qltb_mono _ _ _ Hr H9). repeat case_match; unfold pts; cbn; lia. }
  repeat case_match; unfold pts; cbn; lia.
Qed.

Lemma Qgeb_mono t x x' : (x <= x')%Q -> Qgeb x t = true -> Qgeb x' t = true.
Proof.
  unfold Qgeb. rewrite !Qle_bool_iff. intros. by eapply Qle_trans.
Qed.

Lemma rating_monotone r r' n n' :
  (r <= r')%Q -> (rating_bonus r n).1 <= (rating_bonus r' n').1.
Proof.
  intros Hr. unfold rating_bonus.
  destruct (Qgeb r (45 # 10)) eqn:H45.
  { by rewrite (Qgeb_mono _ _ _ Hr H45). }
  destruct (Qgeb r (40 # 10)) eqn:H40.
  { rewrite (Qgeb_mono _ _ _ Hr H40). case_match; unfold pts; cbn; lia. }
  repeat case_match; unfold pts, nothing; cbn; lia.
Qed.

Lemma backend_clauses_compare p p' cp c :
  same_practice p p' ->
  or_int (AdvocateProfile.experience_years p) 0
    <= or_int (AdvocateProfile.experience_years p') 0 ->
  (Backend.workload_ratio p' <= Backend.workload_ratio p)%Q ->
  (Backend.rating_value p <= Backend.rating_value p')%Q ->
  Backend.clauses p cp = Ok c ->
  exists c', Backend.clauses p' cp = Ok c' ∧ c.1 <= c'.1.
Proof.
  intros (Hst & Hdi & Hhc & Hps & Hss & Hlc & Hsr & Hfc & Hla & _) Hy Hw Hr.
  unfold Backend.clauses.
  replace (Backend.geographic_match p') with (Backend.geographic_match p)
    by (unfold Backend.geographic_match; by rewrite Hhc).
  replace (Backend.court_level_experience p') with (Backend.court_level_experience p)
    by (unfold Backend.court_level_experience; by rewrite Hlc).
  replace (Backend.success_rate_bonus p') with (Backend.success_rate_bonus p)
    by (unfold Backend.success_rate_bonus; by rewrite Hsr).
  replace (Backend.advocate_fee p') with (Backend.advocate_fee p)
    by (unfold Backend.advocate_fee; by rewrite Hfc).
  rewrite <- Hst, <- Hdi, <- Hps, <- Hss, <- Hla.
  destruct (Backend.specialization_match _ _ _ _ _) as [c1|]; [|done].
  cbn [mbind res_bind].
  destruct (Backend.geographic_match _ _ _ _ _ _) as [c2|]; [|done].
  cbn [mbind res_bind].
  destruct (experience_alignment _ (or_int (AdvocateProfile.experience_years p) 0))
    as [c3|] eqn:H3; [|done].
  destruct (experience_monotone _ _ _ _ Hy H3) as (c3' & -> & Hc3).
  cbn [mbind res_bind].
  destruct (fee_alignment _ _) as [c6|]; [|done]. cbn [mbind res_bind].
  destruct (if truthy _ then _ else _) as [req|]; [|done]. cbn [mbind res_bind].
  intros [= <-]. eexists. split; [reflexivity|].
  pose proof (availability_antitone _ _
                (get cp "urgency" (get cp "urgency_level" (PStr "normal"))) Hw).
  pose proof (rating_monotone _ _ (AdvocateProfile.review_count p)
                (AdvocateProfile.review_count p') Hr).
  unfold add. cbn [fst]. lia.
Qed.

Lemma backend_score_compare p p' u u' cp s rs :
  same_practice p p' ->
  or_int (AdvocateProfile.experience_years p) 0
    <= or_int (AdvocateProfile.experience_years p') 0 ->
  (Backend.workload_ratio p' <= Backend.workload_ratio p)%Q ->
  (Backend.rating_value p <= Backend.rating_value p')%Q ->
  Backend._calculate_match_score p u cp = Ok (s, rs) ->
  exists s' rs', Backend._calculate_match_score p' u' cp = Ok (s', rs') ∧ s <= s'.
Proof.
  intros Hsame Hy Hw Hr.
  pose proof Hsame as (Hst & _ & _ & _ & _ & _ & _ & _ & _ & Hav).
  unfold Backend._calculate_match_score, Backend.excluded_by_jurisdiction.
  rewrite <- Hst, <- Hav.
  destruct (_ && _ && _).
  { intros [= <- <-]. eexists _, _. split; [reflexivity|lia]. }
  destruct (negb _).
  { intros [= <- <-]. eexists _, _. split; [reflexivity|lia]. }
  destruct (Backend.clauses p cp) as [[s0 rs0]|] eqn:Hc; [|done].
  destruct (backend_clauses_compare _ _ _ _ Hsame Hy Hw Hr Hc) as ([s1 rs1] & -> & Hle).
  cbn [mbind res_bind]. intros [= <- <-]. eexists _, _. split; [reflexivity|].
  cbn [fst] in Hle. lia.
Qed.

(** X3.  Raising an advocate's [experience_years] never lowers the score:
    when the profile scores [s], the same profile with at least as many
    years scores too, and no less than [s]. *)
Theorem more_experience_never_lowers p u cp y' s rs :
  or_int (AdvocateProfile.experience_years p) 0 <= y' ->
  Backend._calculate_match_score p u cp = Ok (s, rs) ->
  exists s' rs',
    Backend._calculate_match_score (AdvocateProfile.set_experience_years (Some y') p) u cp
    = Ok (s', rs')
    ∧ s <= s'.
Proof.
  intros Hy. apply backend_score_compare.
  - by repeat split.
  - cbn [AdvocateProfile.set_experience_years AdvocateProfile.experience_years].
    rewrite or_int_some. done.
  - apply Qle_refl.
  - apply Qle_refl.
Qed.

Lemma more_experience_never_lowers_witness :
  exists s' rs',
    Backend._calculate_match_score
      (AdvocateProfile.set_experience_years (Some 25)
         (scenario_A_profile (Some ["South Delhi"]))) scenario_A_user scenario_A_case
    = Ok (s', rs')
    ∧ pts 74 <= s'.
Proof.
  apply (more_experience_never_lowers (scenario_A_profile (Some ["South Delhi"]))
           scenario_A_user scenario_A_case 25 (pts 74) scenario_A_reasons).
  - vm_compute. discriminate.
  - vm_compute. reflexivity.
Defined.

(** X4.  The load increment that accept applies never raises the
    advocate's score: when the profile with one more case scores [s'], the
    profile before scores too, and no less than [s']. *)
Theorem one_more_case_never_raises p u cp s' rs' :
  Backend._calculate_match_score (one_more_case p) u cp = Ok (s', rs') ->
  exists s rs, Backend._calculate_match_score p u cp = Ok (s, rs) ∧ s' <= s.
Proof.
  apply backend_score_compare.
  - by repeat split.
  - apply Z.le_refl.
  - unfold one_more_case, Backend.workload_ratio.
    cbn [AdvocateProfile.set_current_case_load AdvocateProfile.current_case_load
         AdvocateProfile.max_case_capacity].
    destruct (0 <? or_int (AdvocateProfile.max_case_capacity p) 20) eqn:Hm;
      [|apply Qle_refl].
    apply Z.ltb_lt in Hm.
    apply Qmult_le_compat_r; [|apply Qinv_le_0_compat; rewrite <- (Zle_Qle 0); lia].
    rewrite <- Zle_Qle. set (l := or_int (AdvocateProfile.current_case_load p) 0).
    cbn. destruct (Z.eqb_spec (l + 1) 0); lia.
  - apply Qle_refl.
Qed.

Lemma one_more_case_never_raises_witness :
  exists s rs,
    Backend._calculate_match_score (scenario_A_profile (Some ["South Delhi"]))
      scenario_A_user scenario_A_case = Ok (s, rs)
    ∧ pts 74 <= s.
Proof.
  apply (one_more_case_never_raises (scenario_A_profile (Some ["South Delhi"]))
           scenario_A_user scenario_A_case (pts 74) scenario_A_reasons).
  vm_compute. reflexivity.
Defined.

(** X5.  Raising an advocate's rating never lowers the score: when the
    profile scores [s], the same profile with a rating that is at least the
    rating used before scores too, and no less than [s]. *)
Theorem better_rating_never_lowers p u cp r' s rs :
  (Backend.rating_value p <= r')%Q ->
  Backend._calculate_match_score p u cp = Ok (s, rs) ->
  exists s' rs',
    Backend._calculate_match_score (AdvocateProfile.set_rating (Some r') p) u cp
    = Ok (s', rs')
    ∧ s <= s'.
Proof.
  intros Hr. apply backend_score_compare.
  - by repeat split.
  - apply Z.le_refl.
  - apply Qle_refl.
  - unfold Backend.rating_value at 2.
    cbn [AdvocateProfile.set_rating AdvocateProfile.rating dec_truthy default].
    destruct (Qeq_bool r' 0) eqn:E; cbn [negb]; [|done].
    apply Qeq_bool_eq in E. by rewrite <- E.
Qed.

Lemma better_rating_never_lowers_witness :
  exists s' rs',
    Backend._calculate_match_score
      (AdvocateProfile.set_rating (Some (5 # 1))
         (scenario_A_profile (Some ["South Delhi"]))) scenario_A_user scenario_A_case
    = Ok (s', rs')
    ∧ pts 74 <= s'.
Proof.
  apply (better_rating_never_lowers (scenario_A_profile (Some ["South Delhi"]))
           scenario_A_user scenario_A_case (5 # 1) (pts 74) scenario_A_reasons).
  - vm_compute. discriminate.
  - vm_compute. reflexivity.
Defined.

(** ** All requests: what the other handlers leave alone *)

Lemma send_message_keeps cid u cp nid now d :
  let d' := (run (Client.send_message cid u cp nid now) d).2 in
  advocate_case_requests d' = advocate_case_requests d
  ∧ advocate_profiles d' = advocate_profiles d
  ∧ users d' = users d.
Proof.
  unfold Client.send_message. run_unfold. cbn.
  destruct (conversations d !! cid) as [cv|] eqn:Hcv; cbn; [|done].
  destruct (decide (Conversation.client_id cv = User.id u)); cbn; [|done].
  case_bool_decide; [|done]. cbn.
  destruct cp as [cp|]; cbn; [|done].
  case_bool_decide; cbn; [done|].
  destruct (Conversation.case_id cv) as [k|]; cbn; [|done].
  destruct (cases d !! k); cbn; done.
Qed.

Lemma create_conversation_run u nid d :
  run (Client.create_conversation u nid) d
  = (Ok nid,
     mkdb (users d) (advocate_profiles d) (cases d)
       (<[nid := Conversation.mk nid None (User.id u) Conversation.AI_INTERVIEW None]>
          (conversations d))
       (advocate_case_requests d)
       (messages d ++ [Message.mk nid Message.AI None Message.TEXT])
       (notifications d)).
Proof. reflexivity. Qed.

Lemma get_recommendations_unchanged case_id u d :
  (run (Client.get_recommendations case_id u) d).2 = d.
Proof.
  unfold Client.get_recommendations. run_unfold. cbn.
  destruct (cases d !! case_id) as [c|]; cbn; [|done].
  destruct (decide (Case.client_id c = User.id u)); cbn; [|done].
  destruct (Backend.get_recommendations d _ None); done.
Qed.

Lemma update_availability_keeps b u d :
  let d' := (run (Advocate.update_availability b u) d).2 in
  advocate_case_requests d' = advocate_case_requests d
  ∧ cases d' = cases d
  ∧ conversations d' = conversations d
  ∧ users d' = users d.
Proof.
  unfold Advocate.update_availability. run_unfold. cbn.
  destruct (filter _ (advocate_profiles d)) as [|p [|p' ps]]; done.
Qed.

Lemma send_message_to_client_keeps case_id mt u now d :
  let d' := (run (Advocate.send_message_to_client case_id mt u now) d).2 in
  advocate_case_requests d' = advocate_case_requests d
  ∧ cases d' = cases d
  ∧ advocate_profiles d' = advocate_profiles d
  ∧ users d' = users d.
Proof.
  unfold Advocate.send_message_to_client. run_unfold. cbn.
  destruct (cases d !! case_id) as [c|]; cbn; [|done].
  destruct (decide (Case.advocate_id c = Some (User.id u))); cbn; [|done].
  destruct (Case.conversation_id c) as [k|]; cbn; [|done].
  destruct (conversations d !! k); cbn; done.
Qed.

(** The request table after any request: unchanged, one pending row more
    for a case that had none, or one pending row answered *)
Lemma handle_requests rq d :
  advocate_case_requests (handle rq d) = advocate_case_requests d
  ∨ (exists case_id r,
        advocate_case_requests (handle rq d) = advocate_case_requests d ++ [r]
        ∧ pending_requests case_id d = []
        ∧ is_pending_for case_id r)
  ∨ (exists cr (f : AdvocateCaseRequest.t -> AdvocateCaseRequest.t),
        advocate_case_requests (handle rq d)
        = map (on_row AdvocateCaseRequest.id (AdvocateCaseRequest.id cr) f)
            (advocate_case_requests d)
        ∧ cr ∈ advocate_case_requests d
        ∧ AdvocateCaseRequest.status cr = AdvocateCaseRequest.PENDING
        ∧ (forall r, AdvocateCaseRequest.status (f r) ≠ AdvocateCaseRequest.PENDING)
        ∧ (forall r, AdvocateCaseRequest.id (f r) = AdvocateCaseRequest.id r)).
Proof.
  destruct rq as [case_id adv u nid|rid u now|rid reason u now|cid u cp nid now
                 |u nid|case_id u|b u|case_id mt u now]; cbn [handle].
  - destruct (select_advocate_outcome case_id adv u nid d)
      as [(r & c & -> & Hnone & Hr & _)|[e ->]]; [|by left].
    right; left. by exists case_id, r.
  - destruct (accept_outcome rid u now d)
      as [(v & d' & -> & cr & c & Hf & Hst & _ & Hreq & _)|[e ->]]; [|by left].
    right; right. exists cr, (accepted_request now).
    destruct (find_request_id _ _ _ _ Hf) as (_ & _ & Hin). by repeat split.
  - destruct (reject_outcome rid reason u now d)
      as [(v & d' & -> & cr & c & Hf & Hst & _ & Hreq & _)|[e ->]]; [|by left].
    right; right. exists cr, (rejected_request reason now).
    destruct (find_request_id _ _ _ _ Hf) as (_ & _ & Hin). by repeat split.
  - left. apply send_message_keeps.
  - left. by rewrite create_conversation_run.
  - left. by rewrite get_recommendations_unchanged.
  - left. apply update_availability_keeps.
  - left. apply send_message_to_client_keeps.
Qed.

Lemma handle_preserves rq d :
  at_most_one_pending d -> at_most_one_pending (handle rq d).
Proof.
  intros Hinv cid. specialize (Hinv cid) as Hc. unfold pending_requests in *.
  destruct (handle_requests rq d)
    as [->|[(case_id & r & -> & Hnone & Hr)|(cr & f & -> & _ & _ & Hf & _)]].
  - done.
  - rewrite filter_app, length_app.
    destruct (decide (cid = case_id)) as [->|Hne].
    + unfold pending_requests in Hnone. rewrite Hnone.
      rewrite filter_cons, filter_nil. case_decide; cbn; lia.
    + rewrite filter_cons, filter_nil, decide_False; [cbn; lia|].
      intros [? _]. destruct Hr. congruence.
  - etrans; [|exact Hc].
    apply pending_after_update. intros r. by apply on_row_not_pending.
Qed.

(** X17.  The pending-request invariant is kept by all modelled requests:
    selecting, accepting, rejecting, messages of client and advocate, new
    conversations, recommendations and availability updates, in any order,
    leave at most one pending request per case. *)
Theorem served_at_most_one_pending d0 d :
  at_most_one_pending d0 -> served d0 d -> at_most_one_pending d.
Proof. intros H0 Hs. induction Hs; [done|]. by apply handle_preserves. Qed.

Lemma served_at_most_one_pending_witness :
  at_most_one_pending
    (handle (SendMessageRequest 200 client_user None 500 7)
       (handle (SelectAdvocateRequest 100 10 client_user 300) open_db)).
Proof.
  apply (served_at_most_one_pending open_db).
  - intros case_id. cbn. lia.
  - apply served_step, served_step, served_start.
Defined.

(** X18.  With unique request ids, no modelled request changes or removes
    a request that is already accepted or rejected, and the request table
    never shrinks. *)
Theorem answered_request_kept rq d r :
  NoDup (AdvocateCaseRequest.id <$> advocate_case_requests d) ->
  r ∈ advocate_case_requests d ->
  AdvocateCaseRequest.status r ≠ AdvocateCaseRequest.PENDING ->
  r ∈ advocate_case_requests (handle rq d)
  ∧ (List.length (advocate_case_requests d)
     <= List.length (advocate_case_requests (handle rq d)))%nat.
Proof.
  intros Hnd Hin Hst.
  destruct (handle_requests rq d)
    as [->|[(case_id & r' & -> & _)|(cr & f & -> & Hcr & Hp & _ & _)]].
  - done.
  - split; [apply elem_of_app; by left|]. rewrite length_app. lia.
  - split; [|by rewrite length_map].
    apply list_elem_of_fmap. exists r. split; [|done].
    unfold on_row. case_bool_decide as Hid; [|done]. exfalso.
    apply list_elem_of_lookup in Hin as [i Hi]. apply list_elem_of_lookup in Hcr as [j Hj].
    assert (i = j).
    { eapply NoDup_lookup; [exact Hnd| |]; rewrite list_lookup_fmap.
      - by rewrite Hi.
      - rewrite Hj. cbn. by rewrite Hid. }
    subst. congruence.
Qed.

Lemma answered_request_kept_witness :
  accepted_request 5 sample_request
    ∈ advocate_case_requests
        (handle (RejectRequest 300 (Some "busy") scenario_A_user 9) answered_db)
  ∧ (List.length (advocate_case_requests answered_db)
     <= List.length (advocate_case_requests
                       (handle (RejectRequest 300 (Some "busy") scenario_A_user 9)
                          answered_db)))%nat.
Proof.
  apply (answered_request_kept (RejectRequest 300 (Some "busy") scenario_A_user 9)
           answered_db (accepted_request 5 sample_request)).
  - cbn. apply NoDup_singleton.
  - cbn. left.
  - discriminate.
Defined.

(** ** Sequences of lifecycle requests *)

(** X11.  After a successful [select_advocate], a second one by the same
    client on the same case, for any advocate, raises the 400 error "There
    is already a pending request for this case" and changes nothing. *)
Theorem select_twice_rejected case_id adv u nid d rid d' adv' nid' :
  run (Client.select_advocate case_id adv u nid) d = (Ok rid, d') ->
  run (Client.select_advocate case_id adv' u nid') d' = (Raise already_pending, d').
Proof.
  intros Hrun.
  destruct (select_advocate_outcome case_id adv u nid d)
    as [(r & c & Hok & Hnone & Hpend & _ & Hc & Hcl & Hst)|[e He]]; [|congruence].
  rewrite Hok in Hrun. injection Hrun as _ <-.
  unfold Client.select_advocate. run_unfold. cbn.
  rewrite lookup_alter, decide_True by done. rewrite Hc. cbn.
  rewrite decide_True by done. cbn.
  rewrite filter_app.
  change (filter _ (advocate_case_requests d)) with (pending_requests case_id d).
  rewrite Hnone, filter_cons, filter_nil, decide_True by done. reflexivity.
Qed.

Lemma select_twice_rejected_witness :
  run (Client.select_advocate 100 20 client_user 301)
    (run (Client.select_advocate 100 10 client_user 300) open_db).2
  = (Raise already_pending, (run (Client.select_advocate 100 10 client_user 300) open_db).2).
Proof.
  apply (select_twice_rejected 100 10 client_user 300 open_db 300%N).
  vm_compute. reflexivity.
Defined.

(** ** After an answer *)

Lemma filter_map_commute {A} (P : A -> Prop) `{!forall x, Decision (P x)}
    (g : A -> A) (l : list A) :
  (forall x, P (g x) <-> P x) -> filter P (map g l) = map g (filter P l).
Proof.
  intros Hg. induction l as [|x l IH]; [done|].
  cbn [map]. rewrite !filter_cons, IH.
  destruct (decide (P (g x))) as [Hp|Hp], (decide (P x)) as [Hq|Hq]; try done.
  - exfalso. by apply Hq, Hg.
  - exfalso. by apply Hp, Hg.
Qed.

Lemma find_request_after_update d d' rid u cr
    (f : AdvocateCaseRequest.t -> AdvocateCaseRequest.t) :
  Advocate.find_request d rid u = Ok (Some cr) ->
  (forall r, AdvocateCaseRequest.id (f r) = AdvocateCaseRequest.id r
             ∧ AdvocateCaseRequest.advocate_id (f r) = AdvocateCaseRequest.advocate_id r) ->
  advocate_case_requests d'
  = map (on_row AdvocateCaseRequest.id (AdvocateCaseRequest.id cr) f)
      (advocate_case_requests d) ->
  Advocate.find_request d' rid u = Ok (Some (f cr)).
Proof.
  intros Hf Hkeep Hreq. unfold Advocate.find_request in *. rewrite Hreq.
  rewrite filter_map_commute.
  2:{ intros r. unfold on_row. case_bool_decide; [|done].
      destruct (Hkeep r) as [-> ->]. done. }
  destruct (filter _ (advocate_case_requests d)) as [|r [|r' rs]]; simplify_eq/=.
  unfold on_row. by rewrite bool_decide_true.
Qed.

Lemma answered_raises d rid u cr :
  Advocate.find_request d rid u = Ok (Some cr) ->
  AdvocateCaseRequest.status cr ≠ AdvocateCaseRequest.PENDING ->
  forall now reason,
    run (Advocate.accept_case_request rid u now) d = (Raise already_processed, d)
    ∧ run (Advocate.reject_case_request rid reason u now) d
      = (Raise already_processed, d).
Proof.
  intros Hf Hst now reason.
  unfold Advocate.accept_case_request, Advocate.reject_case_request. run_unfold. cbn.
  rewrite Hf. cbn. by rewrite bool_decide_true.
Qed.

(** X13.  An answer is final: after a successful accept or reject of a
    request, every further accept or reject of it by the same advocate
    raises "This request has already been processed" and changes
    nothing. *)
Theorem answer_is_final d rid u now reason d' :
  (exists v, run (Advocate.accept_case_request rid u now) d = (Ok v, d'))
  ∨ (exists v, run (Advocate.reject_case_request rid reason u now) d = (Ok v, d')) ->
  forall now' reason',
    run (Advocate.accept_case_request rid u now') d' = (Raise already_processed, d')
    ∧ run (Advocate.reject_case_request rid reason' u now') d'
      = (Raise already_processed, d').
Proof.
  intros [[v Hrun]|[v Hrun]].
  - destruct (accept_outcome rid u now d)
      as [(v' & d'' & Hok & cr & c & Hf & _ & _ & Hreq & _)|[e He]]; [|congruence].
    rewrite Hok in Hrun. injection Hrun as _ <-.
    apply (answered_raises d'' rid u (accepted_request now cr)); [|done].
    by eapply find_request_after_update.
  - destruct (reject_outcome rid reason u now d)
      as [(v' & d'' & Hok & cr & c & Hf & _ & _ & Hreq & _)|[e He]]; [|congruence].
    rewrite Hok in Hrun. injection Hrun as _ <-.
    apply (answered_raises d'' rid u (rejected_request reason now cr)); [|done].
    by eapply find_request_after_update.
Qed.

Lemma answer_is_final_witness :
  run (Advocate.accept_case_request 300 scenario_A_user 9)
    (run (Advocate.reject_case_request 300 (Some "busy") scenario_A_user 5)
       requested_db).2
  = (Raise already_processed,
     (run (Advocate.reject_case_request 300 (Some "busy") scenario_A_user 5)
        requested_db).2).
Proof.
  refine (proj1 (answer_is_final requested_db 300 scenario_A_user 5 (Some "busy")
                   _ _ 9 None)).
  right. exists 100%N. vm_compute. reflexivity.
Defined.

(** X12.  After a request was accepted, [select_advocate] by the client of
    its case raises the 400 error "An advocate has already been assigned to
    this case" and changes nothing. *)
Theorem accepted_case_closed_to_selection d rid u now v d' cr c client adv nid :
  run (Advocate.accept_case_request rid u now) d = (Ok v, d') ->
  Advocate.find_request d rid u = Ok (Some cr) ->
  cases d !! AdvocateCaseRequest.case_id cr = Some c ->
  Case.client_id c = User.id client ->
  run (Client.select_advocate (AdvocateCaseRequest.case_id cr) adv client nid) d'
  = (Raise already_assigned, d').
Proof.
  intros Hrun Hf Hc Hcl.
  destruct (accept_outcome rid u now d)
    as [(v' & d'' & Hok & cr' & c' & Hf' & _ & _ & _ & Hcases & _)|[e He]];
    [|congruence].
  rewrite Hok in Hrun. injection Hrun as _ <-. rewrite Hf in Hf'. simplify_eq.
  unfold Client.select_advocate. run_unfold. cbn.
  rewrite Hcases, lookup_alter, decide_True by done. rewrite Hc. cbn.
  rewrite decide_True by done. reflexivity.
Qed.

Lemma accepted_case_closed_to_selection_witness :
  run (Client.select_advocate 100 20 client_user 301)
    (run (Advocate.accept_case_request 300 scenario_A_user 5) requested_db).2
  = (Raise already_assigned,
     (run (Advocate.accept_case_request 300 scenario_A_user 5) requested_db).2).
Proof.
  apply (accepted_case_closed_to_selection requested_db 300 scenario_A_user 5
           (100%N, Some 200%N) _ sample_request sample_case client_user 20 301).
  - vm_compute. reflexivity.
  - reflexivity.
  - reflexivity.
  - reflexivity.
Defined.

(** X14.  An advocate cannot answer a request addressed to someone else:
    when no row with the request id names the calling advocate, accept and
    reject raise the 404 error "Case request not found" and change
    nothing. *)
Theorem foreign_request_not_found d rid reason u now :
  (forall r, r ∈ advocate_case_requests d ->
             AdvocateCaseRequest.id r = rid ->
             AdvocateCaseRequest.advocate_id r ≠ User.id u) ->
  run (Advocate.accept_case_request rid u now) d = (Raise request_not_found, d)
  ∧ run (Advocate.reject_case_request rid reason u now) d
    = (Raise request_not_found, d).
Proof.
  intros Hno.
  assert (Hf : Advocate.find_request d rid u = Ok None).
  { unfold Advocate.find_request.
    destruct (filter _ (advocate_case_requests d)) as [|r rs] eqn:Hfl; [done|].
    assert (Hin : r ∈ filter (fun r => AdvocateCaseRequest.id r = rid
                                       ∧ AdvocateCaseRequest.advocate_id r = User.id u)
                         (advocate_case_requests d)) by (rewrite Hfl; left).
    apply list_elem_of_filter in Hin as [[? ?] ?]. by edestruct Hno. }
  unfold Advocate.accept_case_request, Advocate.reject_case_request. run_unfold. cbn.
  by rewrite Hf.
Qed.

Lemma foreign_request_not_found_witness :
  run (Advocate.accept_case_request 300 closed_user 9) requested_db
  = (Raise request_not_found, requested_db)
  ∧ run (Advocate.reject_case_request 300 None closed_user 9) requested_db
    = (Raise request_not_found, requested_db).
Proof.
  apply (foreign_request_not_found requested_db 300 None closed_user 9).
  intros r [->|[]%elem_of_nil]%elem_of_cons _. vm_compute. discriminate.
Defined.

Lemma reject_run d rid reason u now cr :
  Advocate.find_request d rid u = Ok (Some cr) ->
  AdvocateCaseRequest.status cr = AdvocateCaseRequest.PENDING ->
  run (Advocate.reject_case_request rid reason u now) d
  = match cases d !! AdvocateCaseRequest.case_id cr with
    | Some c => (Ok (Case.id c), rejected_db d cr reason now)
    | None => (Raise NoResultFound, d)
    end.
Proof.
  intros Hf Hst.
  unfold Advocate.reject_case_request. run_unfold. cbn.
  rewrite Hf. cbn. rewrite bool_decide_false by (intros ?; done). cbn.
  destruct (cases d !! AdvocateCaseRequest.case_id cr) as [c|] eqn:Hc; cbn;
    rewrite ?Hc; reflexivity.
Qed.

(** X15.  Rejecting a pending request whose case exists returns the case
    id and changes the database in one piece: the request is rejected with
    the reason and the time, the case is [advocate_rejected] with the same
    reason and keeps its selected and its assigned advocate, the client is
    notified, and profiles, conversations and messages stay as they
    were.  When the case row is missing the handler raises
    [NoResultFound] and nothing is changed. *)
Theorem reject_pending_request d rid reason u now cr :
  Advocate.find_request d rid u = Ok (Some cr) ->
  AdvocateCaseRequest.status cr = AdvocateCaseRequest.PENDING ->
  (forall c, cases d !! AdvocateCaseRequest.case_id cr = Some c ->
     run (Advocate.reject_case_request rid reason u now) d
     = (Ok (Case.id c), rejected_db d cr reason now)
     ∧ exists c', cases (rejected_db d cr reason now) !! AdvocateCaseRequest.case_id cr
                  = Some c'
                  ∧ Case.status c' = Case.ADVOCATE_REJECTED
                  ∧ Case.rejection_reason c' = reason
                  ∧ Case.selected_advocate_id c' = Case.selected_advocate_id c
                  ∧ Case.advocate_id c' = Case.advocate_id c)
  ∧ (cases d !! AdvocateCaseRequest.case_id cr = None ->
     run (Advocate.reject_case_request rid reason u now) d = (Raise NoResultFound, d)).
Proof.
  intros Hf Hst. split.
  - intros c Hc. rewrite (reject_run _ _ _ _ _ _ Hf Hst), Hc. split; [done|].
    cbn. rewrite lookup_alter, decide_True by done. rewrite Hc. cbn. eauto 10.
  - intros Hc. by rewrite (reject_run _ _ _ _ _ _ Hf Hst), Hc.
Qed.

Lemma reject_pending_request_witness :
  run (Advocate.reject_case_request 300 (Some "busy") scenario_A_user 5) requested_db
  = (Ok (Case.id sample_case), rejected_db requested_db sample_request (Some "busy") 5).
Proof.
  refine (proj1 (proj1 (reject_pending_request requested_db 300 (Some "busy")
                          scenario_A_user 5 sample_request _ _) sample_case _)).
  - reflexivity.
  - reflexivity.
  - reflexivity.
Defined.

Lemma get_recommendations_same_directory d d' cp limit :
  advocate_profiles d' = advocate_profiles d ->
  users d' = users d ->
  Backend.get_recommendations d' cp limit = Backend.get_recommendations d cp limit.
Proof.
  intros Hp Hu.
  unfold Backend.get_recommendations, Backend.available_advocates, join_profiles_users.
  by rewrite Hp, Hu.
Qed.

Lemma get_advocate_by_id_same_directory d d' adv :
  advocate_profiles d' = advocate_profiles d ->
  users d' = users d ->
  Backend.get_advocate_by_id d' adv = Backend.get_advocate_by_id d adv.
Proof.
  intros Hp Hu. unfold Backend.get_advocate_by_id, join_profiles_users.
  by rewrite Hp, Hu.
Qed.

Lemma answered_leaves_none d cr (f : AdvocateCaseRequest.t -> AdvocateCaseRequest.t)
    d' :
  at_most_one_pending d ->
  cr ∈ advocate_case_requests d ->
  AdvocateCaseRequest.status cr = AdvocateCaseRequest.PENDING ->
  (forall r, AdvocateCaseRequest.status (f r) ≠ AdvocateCaseRequest.PENDING) ->
  advocate_case_requests d'
  = map (on_row AdvocateCaseRequest.id (AdvocateCaseRequest.id cr) f)
      (advocate_case_requests d) ->
  pending_requests (AdvocateCaseRequest.case_id cr) d' = [].
Proof.
  intros Hinv Hin Hst Hf Hreq. unfold pending_requests. rewrite Hreq.
  destruct (filter _ (map _ _)) as [|x xs] eqn:Hfl; [done|]. exfalso.
  assert (Hx : x ∈ filter (is_pending_for (AdvocateCaseRequest.case_id cr))
                     (map (on_row AdvocateCaseRequest.id (AdvocateCaseRequest.id cr) f)
                        (advocate_case_requests d))) by (rewrite Hfl; left).
  apply list_elem_of_filter in Hx as [Hp Hx].
  apply list_elem_of_fmap in Hx as (r & -> & Hr).
  pose proof (on_row_not_pending _ _ _ _ Hf Hp) as Hpr.
  specialize (Hinv (AdvocateCaseRequest.case_id cr)). unfold pending_requests in Hinv.
  assert (Hr' : r ∈ filter (is_pending_for (AdvocateCaseRequest.case_id cr))
                      (advocate_case_requests d)) by (by apply list_elem_of_filter).
  assert (Hcr : cr ∈ filter (is_pending_for (AdvocateCaseRequest.case_id cr))
                       (advocate_case_requests d)) by (by apply list_elem_of_filter).
  destruct (filter _ (advocate_case_requests d)) as [|y [|z zs]];
    [by apply elem_of_nil in Hr'| |cbn in Hinv; lia].
  apply list_elem_of_singleton in Hr' as ->. apply list_elem_of_singleton in Hcr as ->.
  revert Hp. unfold on_row. rewrite bool_decide_true by done.
  intros [_ Hs]. by apply Hf in Hs.
Qed.

Lemma select_advocate_succeeds case_id adv u nid d c row recs :
  cases d !! case_id = Some c ->
  Case.client_id c = User.id u ->
  Case.status c ≠ Case.ADVOCATE_ASSIGNED ->
  pending_requests case_id d = [] ->
  Backend.get_advocate_by_id d adv = Some row ->
  Backend.get_recommendations d (Client.select_case_profile c) (Some 20) = Ok recs ->
  exists r,
    run (Client.select_advocate case_id adv u nid) d
    = (Ok nid,
       mkdb (users d) (advocate_profiles d)
         (alter (fun c => Case.set_advocate_response (Some Case.PENDING)
                            (Case.set_selected_advocate_id (Some adv)
                               (Case.set_status Case.PENDING_ADVOCATE c)))
            case_id (cases d))
         (conversations d) (advocate_case_requests d ++ [r]) (messages d)
         (notifications d ++ [Notification.mk adv "case_request"]))
    ∧ is_pending_for case_id r
    ∧ AdvocateCaseRequest.advocate_id r = adv.
Proof.
  intros Hc Hcl Hst Hnone Hadv Hrecs.
  unfold Client.select_advocate. run_unfold. simpl. rewrite Hc. simpl.
  rewrite filter_cons, filter_nil, decide_True by done. simpl.
  rewrite bool_decide_false by done.
  fold (is_pending_for case_id).
  change (filter _ (advocate_case_requests d)) with (pending_requests case_id d).
  rewrite Hnone. simpl. rewrite Hadv. simpl. rewrite Hrecs. simpl.
  eexists. split; [reflexivity|]. by repeat split.
Qed.

(** X16.  After a rejection the client can choose again: in a database
    with at most one pending request per case, once the request was
    rejected, [select_advocate] on its case by the case's client, for any
    advocate that [get_advocate_by_id] finds (the one who rejected
    included), succeeds and appends a new pending request. *)
Theorem reselect_after_reject d rid reason u now v d' cr c client adv nid row recs :
  at_most_one_pending d ->
  run (Advocate.reject_case_request rid reason u now) d = (Ok v, d') ->
  Advocate.find_request d rid u = Ok (Some cr) ->
  cases d !! AdvocateCaseRequest.case_id cr = Some c ->
  Case.client_id c = User.id client ->
  Backend.get_advocate_by_id d adv = Some row ->
  Backend.get_recommendations d (Client.select_case_profile c) (Some 20) = Ok recs ->
  exists d'' r,
    run (Client.select_advocate (AdvocateCaseRequest.case_id cr) adv client nid) d'
    = (Ok nid, d'')
    ∧ advocate_case_requests d'' = advocate_case_requests d' ++ [r]
    ∧ is_pending_for (AdvocateCaseRequest.case_id cr) r
    ∧ AdvocateCaseRequest.advocate_id r = adv.
Proof.
  intros Hinv Hrun Hf Hc Hcl Hadv Hrecs.
  destruct (reject_outcome rid reason u now d)
    as [(v' & d0 & Hok & cr' & c' & Hf' & Hst & _ & _)|[e He]]; [|congruence].
  rewrite Hf in Hf'. simplify_eq.
  rewrite (reject_run _ _ _ _ _ _ Hf Hst), Hc in Hrun. injection Hrun as _ <-.
  assert (Hnone : pending_requests (AdvocateCaseRequest.case_id cr')
                    (rejected_db d cr' reason now) = []).
  { destruct (find_request_id _ _ _ _ Hf) as (_ & _ & Hin).
    by apply (answered_leaves_none d cr' (rejected_request reason now)). }
  assert (Hc' : cases (rejected_db d cr' reason now) !! AdvocateCaseRequest.case_id cr'
                = Some (rejected_case reason now c)).
  { cbn. rewrite lookup_alter, decide_True by done. by rewrite Hc. }
  destruct (select_advocate_succeeds (AdvocateCaseRequest.case_id cr') adv client nid
              (rejected_db d cr' reason now) _ row recs Hc') as (r & Hsel & Hr & Hadv').
  - done.
  - done.
  - done.
  - by rewrite (get_advocate_by_id_same_directory d).
  - by rewrite (get_recommendations_same_directory d).
  - eexists _, r. split; [exact Hsel|]. split; [reflexivity|done].
Qed.

Lemma reselect_after_reject_witness :
  exists d'' r,
    run (Client.select_advocate (AdvocateCaseRequest.case_id sample_request) 10
           client_user 301)
      (run (Advocate.reject_case_request 300 (Some "busy") scenario_A_user 5)
         requested_db).2
    = (Ok 301%N, d'')
    ∧ advocate_case_requests d''
      = advocate_case_requests
          (run (Advocate.reject_case_request 300 (Some "busy") scenario_A_user 5)
             requested_db).2 ++ [r]
    ∧ is_pending_for (AdvocateCaseRequest.case_id sample_request) r
    ∧ AdvocateCaseRequest.advocate_id r = 10%N.
Proof.
  eapply (reselect_after_reject requested_db 300 (Some "busy") scenario_A_user 5 100%N
            _ sample_request sample_case client_user 10 301).
  - intros case_id. etrans; [apply length_filter|]. cbn. lia.
  - vm_compute. reflexivity.
  - reflexivity.
  - reflexivity.
  - reflexivity.
  - vm_compute. reflexivity.
  - vm_compute. reflexivity.
Defined.

(** ** The recommendations endpoint *)

Lemma client_recommendations_run case_id u d :
  run (Client.get_recommendations case_id u) d
  = (match cases d !! case_id with
     | Some c =>
         if decide (Case.client_id c = User.id u) then
           recommendations ← Backend.get_recommendations d
                               (Client.recommendation_case_profile c) None;
           Ok (filter (fun r => advocate_id r ∉ Client.rejected_ids d case_id)
                 recommendations)
         else Raise case_not_found
     | None => Raise case_not_found
     end, d).
Proof.
  unfold Client.get_recommendations. run_unfold. simpl.
  destruct (cases d !! case_id) as [c|]; simpl; [|done].
  rewrite filter_cons, filter_nil.
  destruct (decide (Case.client_id c = User.id u)); simpl; [|done].
  destruct (Backend.get_recommendations d _ None); done.
Qed.

(** X8.  The recommendations endpoint changes nothing in the database and
    returns at most five entries.  Each entry belongs to an available
    advocate of an active user, carries the positive score of that advocate
    for the profile of the client's own case, and names no advocate who has
    a rejected request for this case. *)
Theorem client_recommendations_filtered case_id u d recs d' :
  run (Client.get_recommendations case_id u) d = (Ok recs, d') ->
  d' = d
  ∧ (List.length recs <= 5)%nat
  ∧ forall e, e ∈ recs ->
      (forall r, r ∈ advocate_case_requests d ->
                 AdvocateCaseRequest.case_id r = case_id ->
                 AdvocateCaseRequest.advocate_id r = advocate_id e ->
                 AdvocateCaseRequest.status r ≠ AdvocateCaseRequest.REJECTED)
      ∧ exists row c,
          cases d !! case_id = Some c
          ∧ Case.client_id c = User.id u
          ∧ row ∈ Backend.available_advocates d
          ∧ advocate_id e = User.id row.2
          ∧ Backend._calculate_match_score row.1 row.2
              (Client.recommendation_case_profile c)
            = Ok (match_score e, match_reasons e)
          ∧ 0 < match_score e.
Proof.
  rewrite client_recommendations_run.
  destruct (cases d !! case_id) as [c|]; [|done].
  destruct (decide (Case.client_id c = User.id u)) as [Hcl|]; [|done].
  destruct (Backend.get_recommendations d _ None) as [engine|] eqn:Hrecs; [|done].
  cbn. intros [= <- <-]. split; [done|]. split.
  - etrans; [apply length_filter|].
    unfold Backend.get_recommendations in Hrecs.
    destruct (Backend.score_rows _ _) as [scored|]; [|done]. cbn in Hrecs.
    injection Hrecs as <-. unfold slice_to. cbn. rewrite length_take. lia.
  - intros e [Hrej He]%list_elem_of_filter. split.
    + intros r Hr Hcase Hadv Hst. apply Hrej. unfold Client.rejected_ids.
      apply list_elem_of_fmap. exists r. split; [done|].
      by apply list_elem_of_filter.
    + destruct (get_recommendations_elem _ _ _ _ _ Hrecs He) as (row & ? & ? & ? & ?).
      by exists row, c.
Qed.

Lemma client_recommendations_filtered_witness :
  exists recs,
    run (Client.get_recommendations 100 client_user) contested_db
    = (Ok recs, contested_db)
    ∧ (List.length recs <= 5)%nat.
Proof.
  assert (H : exists recs,
             run (Client.get_recommendations 100 client_user) contested_db
             = (Ok recs, contested_db)) by (eexists; vm_compute; reflexivity).
  destruct H as [recs H]. exists recs. split; [exact H|].
  exact (proj1 (proj2 (client_recommendations_filtered 100 client_user contested_db
                         recs contested_db H))).
Defined.

(** X9.  After an advocate has rejected a request, the recommendations
    endpoint no longer lists that advocate for the case of the request,
    whichever user asks. *)
Theorem rejecting_advocate_not_recommended d rid reason u now v d' cr client recs d'' :
  run (Advocate.reject_case_request rid reason u now) d = (Ok v, d') ->
  Advocate.find_request d rid u = Ok (Some cr) ->
  run (Client.get_recommendations (AdvocateCaseRequest.case_id cr) client) d'
  = (Ok recs, d'') ->
  forall e, e ∈ recs -> advocate_id e ≠ User.id u.
Proof.
  intros Hrun Hf Hrecs e He Hadv.
  destruct (reject_outcome rid reason u now d)
    as [(v' & d0 & Hok & cr' & c' & Hf' & Hst & _ & Hreq & _)|[e' He']]; [|congruence].
  rewrite Hf in Hf'. simplify_eq. rewrite Hok in Hrun. injection Hrun as _ <-.
  destruct (find_request_id _ _ _ _ Hf) as (_ & Hu & Hin).
  rewrite client_recommendations_run in Hrecs.
  destruct (cases d0 !! _) as [c|]; [|done].
  destruct (decide _); [|done].
  destruct (Backend.get_recommendations d0 _ None) as [engine|]; [|done].
  cbn in Hrecs. injection Hrecs as <- <-.
  apply list_elem_of_filter in He as [Hrej _]. apply Hrej.
  unfold Client.rejected_ids. rewrite Hreq.
  apply list_elem_of_fmap. exists (rejected_request reason now cr').
  split; [by rewrite Hadv|].
  apply list_elem_of_filter. split; [done|].
  apply list_elem_of_fmap. exists cr'. split; [|done].
  unfold on_row. by rewrite bool_decide_true.
Qed.

Lemma rejecting_advocate_not_recommended_witness :
  Forall (fun e => advocate_id e ≠ User.id low_user)
    [high_entry (pts 70) (FeeCompatible "premium")].
Proof.
  apply Forall_forall.
  apply (rejecting_advocate_not_recommended contested_db 300 (Some "busy")
           low_user 5 100%N
           (rejected_db contested_db contested_request (Some "busy") 5)
           contested_request client_user
           [high_entry (pts 70) (FeeCompatible "premium")]
           (rejected_db contested_db contested_request (Some "busy") 5)).
  - vm_compute. reflexivity.
  - reflexivity.
  - vm_compute. reflexivity.
Defined.

(** ** Availability *)

Lemma elem_of_join_profiles_users d p u :
  (p, u) ∈ join_profiles_users d
  <-> p ∈ advocate_profiles d ∧ u ∈ users d ∧ AdvocateProfile.user_id p = User.id u.
Proof.
  unfold join_profiles_users. rewrite list_elem_of_bind. split.
  - intros (p' & Hin & Hp). apply list_elem_of_bind in Hin as (u' & Hin & Hu).
    case_bool_decide; [|by apply elem_of_nil in Hin].
    apply list_elem_of_singleton in Hin. by simplify_eq.
  - intros (Hp & Hu & Hid). exists p. split; [|done].
    apply list_elem_of_bind. exists u. split; [|done].
    rewrite bool_decide_true by done. left.
Qed.

(** X10.  After [update_availability] has stored [false] for an advocate,
    [get_recommendations] lists that advocate for no case profile and no
    limit. *)
Theorem unavailable_advocate_not_recommended u d b d' cp limit recs :
  run (Advocate.update_availability false u) d = (Ok b, d') ->
  Backend.get_recommendations d' cp limit = Ok recs ->
  forall e, e ∈ recs -> advocate_id e ≠ User.id u.
Proof.
  intros Hrun Hrecs e He Hadv.
  destruct (get_recommendations_elem _ _ _ _ _ Hrecs He) as ([p u'] & Hrow & Hid & _).
  cbn in Hid. apply list_elem_of_filter in Hrow as [[Hav _] Hrow].
  apply elem_of_join_profiles_users in Hrow as (Hp & _ & Huid).
  revert Hrun. unfold Advocate.update_availability. run_unfold. cbn.
  destruct (filter _ (advocate_profiles d)) as [|p0 [|p1 ps]] eqn:Hfl; cbn; try done.
  intros [= <- <-]. cbn in Hp.
  apply list_elem_of_fmap in Hp as (q & -> & Hq).
  case_bool_decide as Hsame; [done|].
  assert (Hin : q ∈ filter (fun p => AdvocateProfile.user_id p = User.id u)
                      (advocate_profiles d)).
  { apply list_elem_of_filter. split; [congruence|done]. }
  rewrite Hfl in Hin. apply list_elem_of_singleton in Hin. by subst.
Qed.

Lemma unavailable_advocate_not_recommended_witness :
  Forall (fun e => advocate_id e ≠ User.id low_user)
    [high_entry (pts 74) (FeeMatches "premium")].
Proof.
  apply Forall_forall.
  apply (unavailable_advocate_not_recommended low_user (tie_db low_rated high_rated)
           false
           (run (Advocate.update_availability false low_user)
              (tie_db low_rated high_rated)).2
           scenario_A_case None [high_entry (pts 74) (FeeMatches "premium")]).
  - vm_compute. reflexivity.
  - vm_compute. reflexivity.
Defined.

(** ** Availability label and directory look-up *)

(** X6.  The availability label and the availability points agree at the
    top and differ below: [_get_availability_status] is "High" exactly when
    the scorer awards the full 10 points with "Excellent availability";
    "Moderate" goes with 4 to 7 points and "Limited" with at most 4. *)
Theorem availability_status_matches_score p urgency :
  (Backend._get_availability_status p = "High"
   <-> availability (Backend.workload_ratio p) urgency = (pts 10, [ExcellentAvailability]))
  ∧ (Backend._get_availability_status p = "Limited" ->
     (availability (Backend.workload_ratio p) urgency).1 <= pts 4)
  ∧ (Backend._get_availability_status p = "Moderate" ->
     pts 4 <= (availability (Backend.workload_ratio p) urgency).1 <= pts 7).
Proof.
  unfold Backend._get_availability_status, availability.
  set (r := Backend.workload_ratio p).
  destruct (Qltb r (5 # 10)) eqn:H5.
  { repeat split; try done. }
  destruct (Qltb r (8 # 10)) eqn:H8.
  - split; [|split]; [| done |].
    + split; [done|]. by repeat case_match.
    + intros _. destruct (Qltb r (7 # 10)); [unfold pts; cbn; lia|].
      rewrite (Qltb_mono r r (9 # 10)); [unfold pts; cbn; lia|apply Qle_refl|].
      apply Qltb_lt. apply Qltb_lt in H8. eapply Qlt_trans; [exact H8|done].
  - assert (H7 : Qltb r (7 # 10) = false).
    { destruct (Qltb r (7 # 10)) eqn:H7; [|done].
      apply Qltb_lt in H7. assert (Qltb r (8 # 10) = true); [|congruence].
      apply Qltb_lt. eapply Qlt_trans; [exact H7|done]. }
    rewrite H7. split; [|split]; [| |done].
    + split; [done|]. by repeat case_match.
    + intros _. repeat case_match; unfold pts; cbn; lia.
Qed.

Lemma availability_status_matches_score_witness :
  pts 4 <= (availability (Backend.workload_ratio (scenario_A_profile None))
              (PStr "normal")).1 <= pts 7.
Proof.
  apply (proj2 (proj2 (availability_status_matches_score (scenario_A_profile None)
                         (PStr "normal")))).
  vm_compute. reflexivity.
Defined.

(** X7.  [get_advocate_by_id] returns a profile and the user it belongs to,
    both stored, the user having the requested id; it returns nothing
    exactly when no stored profile belongs to a stored user with that id.
    It looks neither at [is_available] nor at [is_active]. *)
Theorem get_advocate_by_id_spec d a :
  (forall p u, Backend.get_advocate_by_id d a = Some (p, u) ->
     User.id u = a ∧ AdvocateProfile.user_id p = a
     ∧ p ∈ advocate_profiles d ∧ u ∈ users d)
  ∧ (Backend.get_advocate_by_id d a = None
     <-> forall p u, p ∈ advocate_profiles d -> u ∈ users d ->
                     AdvocateProfile.user_id p = User.id u -> User.id u ≠ a).
Proof.
  unfold Backend.get_advocate_by_id. split.
  - intros p u Hfirst.
    destruct (filter _ (join_profiles_users d)) as [|row rows] eqn:Hfl; [done|].
    cbn in Hfirst. simplify_eq.
    assert (Hin : (p, u) ∈ filter (fun '(p, u) => User.id u = a) (join_profiles_users d))
      by (rewrite Hfl; left).
    apply list_elem_of_filter in Hin as [Hid Hin].
    apply elem_of_join_profiles_users in Hin as (? & ? & ?).
    repeat split; try done. congruence.
  - split.
    + intros Hnone p u Hp Hu Hj Hid.
      assert (Hin : (p, u) ∈ filter (fun '(p, u) => User.id u = a)
                             (join_profiles_users d)).
      { apply list_elem_of_filter. split; [done|].
        by apply elem_of_join_profiles_users. }
      destruct (filter _ (join_profiles_users d)); [by apply elem_of_nil in Hin|done].
    + intros Hno.
      destruct (filter _ (join_profiles_users d)) as [|[p u] rows] eqn:Hfl; [done|].
      exfalso.
      assert (Hin : (p, u) ∈ filter (fun '(p, u) => User.id u = a)
                             (join_profiles_users d)) by (rewrite Hfl; left).
      apply list_elem_of_filter in Hin as [Hid Hin].
      apply elem_of_join_profiles_users in Hin as (? & ? & ?).
      by eapply Hno.
Qed.

Lemma get_advocate_by_id_spec_witness :
  User.id scenario_A_user = 10%N
  ∧ AdvocateProfile.user_id (scenario_A_profile (Some ["South Delhi"])) = 10%N
  ∧ scenario_A_profile (Some ["South Delhi"]) ∈ advocate_profiles open_db
  ∧ scenario_A_user ∈ users open_db.
Proof.
  apply (proj1 (get_advocate_by_id_spec open_db 10)). vm_compute. reflexivity.
Defined.

(** ** Conversations after acceptance *)

Lemma send_message_gate cid u cp nid now d cv :
  conversations d !! cid = Some cv ->
  Conversation.client_id cv = User.id u ->
  ¬ ai_phase (Conversation.phase cv) ->
  run (Client.send_message cid u cp nid now) d = (Raise ai_disabled, d).
Proof.
  intros Hcv Hcl Hph. unfold Client.send_message. run_unfold. simpl.
  rewrite Hcv. simpl. rewrite filter_cons, filter_nil, decide_True by done. simpl.
  by rewrite bool_decide_false.
Qed.

(** X19.  After a request was accepted, [send_message] by the client on
    the conversation of its case raises the 400 error "This conversation is
    now with an advocate. AI responses are disabled." and stores
    nothing. *)
Theorem ai_disabled_after_accept d rid u now v d' cr c cid cv client cp nid now' :
  run (Advocate.accept_case_request rid u now) d = (Ok v, d') ->
  Advocate.find_request d rid u = Ok (Some cr) ->
  cases d !! AdvocateCaseRequest.case_id cr = Some c ->
  Case.conversation_id c = Some cid ->
  conversations d !! cid = Some cv ->
  Conversation.client_id cv = User.id client ->
  run (Client.send_message cid client cp nid now') d' = (Raise ai_disabled, d').
Proof.
  intros Hrun Hf Hc Hcid Hcv Hcl.
  destruct (accept_outcome rid u now d)
    as [(v' & d0 & Hok & cr' & c' & Hf' & _ & Hc' & _ & _ & Hconv & _)|[e He]];
    [|congruence].
  rewrite Hf in Hf'. simplify_eq. rewrite Hok in Hrun. injection Hrun as _ <-.
  rewrite Hcid in Hconv.
  apply (send_message_gate _ _ _ _ _ _ (active_conversation now cv)).
  - rewrite Hconv, lookup_alter, decide_True by done. by rewrite Hcv.
  - done.
  - unfold ai_phase. cbn. intros H. repeat (apply elem_of_cons in H as [H|H]; [done|]).
    by apply elem_of_nil in H.
Qed.

Lemma ai_disabled_after_accept_witness :
  run (Client.send_message 200 client_user (Some urgent_extraction) 500 9)
    (run (Advocate.accept_case_request 300 scenario_A_user 5) requested_db).2
  = (Raise ai_disabled,
     (run (Advocate.accept_case_request 300 scenario_A_user 5) requested_db).2).
Proof.
  apply (ai_disabled_after_accept requested_db 300 scenario_A_user 5
           (100%N, Some 200%N) _ sample_request sample_case 200 sample_conversation
           client_user (Some urgent_extraction) 500 9).
  - vm_compute. reflexivity.
  - reflexivity.
  - reflexivity.
  - reflexivity.
  - reflexivity.
  - reflexivity.
Defined.

(** ** Messages from the advocate *)

(** X20.  [send_message_to_client] is for the assigned advocate only: when
    the case does not exist or its [advocate_id] is not the caller, it
    raises the 404 error "Case not found" and stores nothing. *)
Theorem message_to_client_guard case_id mt u now d :
  (forall c, cases d !! case_id = Some c -> Case.advocate_id c ≠ Some (User.id u)) ->
  run (Advocate.send_message_to_client case_id mt u now) d = (Raise case_not_found, d).
Proof.
  intros Hno. unfold Advocate.send_message_to_client. run_unfold. simpl.
  destruct (cases d !! case_id) as [c|] eqn:Hc; simpl; [|done].
  rewrite filter_cons, filter_nil, decide_False by by apply Hno. done.
Qed.

Lemma message_to_client_guard_witness :
  run (Advocate.send_message_to_client 100 Message.TEXT scenario_A_user 9) requested_db
  = (Raise case_not_found, requested_db).
Proof.
  apply (message_to_client_guard 100 Message.TEXT scenario_A_user 9 requested_db).
  intros c [= <-]. discriminate.
Defined.





(** ** Conversation phases *)

Lemma send_message_conversation cid u cp nid now d k cv :
  conversations d !! k = Some cv ->
  exists cv',
    conversations (run (Client.send_message cid u cp nid now) d).2 !! k = Some cv'
    ∧ Conversation.phase cv' = Conversation.phase cv
    ∧ Conversation.client_id cv' = Conversation.client_id cv.
Proof.
  intros Hk. unfold Client.send_message. run_unfold. cbn.
  destruct (conversations d !! cid) as [cv0|] eqn:Hcv; cbn; [|eauto].
  destruct (decide (Conversation.client_id cv0 = User.id u)); cbn; [|eauto].
  case_bool_decide; [|eauto]. cbn.
  destruct cp as [cp|]; cbn.
  2:{ rewrite lookup_alter. case_decide; subst; rewrite Hk; cbn; eauto. }
  case_bool_decide; cbn.
  { rewrite lookup_alter. case_decide; subst; rewrite Hk; cbn; eauto. }
  destruct (Conversation.case_id cv0) as [k0|]; cbn.
  - destruct (cases d !! k0); cbn;
      rewrite lookup_alter; case_decide; subst; rewrite Hk; cbn; eauto.
  - rewrite !lookup_alter. case_decide; subst; rewrite Hk; cbn;
      rewrite ?decide_True by done; cbn; eauto.
Qed.

(** X23.  No modelled request removes a conversation or changes its client,
    and the only phase change is to [advocate_active], provided a new
    conversation gets a key of its own; so a conversation that an advocate
    has taken over never returns to the assistant. *)
Theorem phase_only_moves_to_advocate rq d k cv :
  conversations d !! k = Some cv ->
  (forall u nid, rq = CreateConversationRequest u nid -> nid ≠ k) ->
  exists cv',
    conversations (handle rq d) !! k = Some cv'
    ∧ Conversation.client_id cv' = Conversation.client_id cv
    ∧ (Conversation.phase cv' = Conversation.phase cv
       ∨ Conversation.phase cv' = Conversation.ADVOCATE_ACTIVE).
Proof.
  intros Hk Hfresh.
  destruct rq as [case_id adv u nid|rid u now|rid reason u now|cid u cp nid now
                 |u nid|case_id u|b u|case_id mt u now]; cbn [handle].
  - destruct (select_advocate_outcome case_id adv u nid d)
      as [(r & c & -> & _)|[e ->]]; cbn; eauto.
  - destruct (accept_outcome rid u now d)
      as [(v & d' & -> & cr & c & _ & _ & _ & _ & _ & Hconv & _)|[e ->]];
      cbn; [|eauto].
    rewrite Hconv. destruct (Case.conversation_id c) as [cid|]; [|eauto].
    rewrite lookup_alter. case_decide; subst; rewrite Hk; cbn; eauto.
  - destruct (reject_outcome rid reason u now d)
      as [(v & d' & -> & cr & c & _ & _ & _ & _ & _ & Hconv & _)|[e ->]];
      cbn; [|eauto].
    rewrite Hconv. eauto.
  - destruct (send_message_conversation cid u cp nid now d k cv Hk)
      as (cv' & ? & ? & ?). eauto.
  - rewrite create_conversation_run. cbn.
    rewrite lookup_insert_ne by (by eapply Hfresh). eauto.
  - rewrite get_recommendations_unchanged. eauto.
  - destruct (update_availability_keeps b u d) as (_ & _ & -> & _). eauto.
  - unfold Advocate.send_message_to_client. run_unfold. cbn.
    destruct (cases d !! case_id) as [c|]; cbn; [|eauto].
    destruct (decide (Case.advocate_id c = Some (User.id u))); cbn; [|eauto].
    destruct (Case.conversation_id c) as [k0|]; cbn; [|eauto].
    destruct (conversations d !! k0) eqn:Hk0; cbn; rewrite ?Hk0; run_unfold; cbn;
      [|eauto].
    rewrite lookup_alter. case_decide; subst; rewrite Hk; cbn; eauto.
Qed.

Lemma phase_only_moves_to_advocate_witness :
  exists cv',
    conversations
      (handle (SendMessageRequest 200 client_user (Some urgent_extraction) 500 9)
         answered_db) !! 200%N = Some cv'
    ∧ Conversation.client_id cv' = Conversation.client_id sample_conversation
    ∧ (Conversation.phase cv' = Conversation.phase sample_conversation
       ∨ Conversation.phase cv' = Conversation.ADVOCATE_ACTIVE).
Proof.
  apply (phase_only_moves_to_advocate
           (SendMessageRequest 200 client_user (Some urgent_extraction) 500 9)
           answered_db 200 sample_conversation).
  - reflexivity.
  - discriminate.
Defined.

(** ** The connection manager *)

Section Connections.
Import ConnectionManager.

Lemma remove_first_app_fresh ws l : ws ∉ l -> remove_first ws (l ++ [ws]) = l.
Proof.
  induction l as [|x l IH]; intros Hni; cbn.
  - by rewrite bool_decide_true.
  - apply not_elem_of_cons in Hni as [Hne Hni].
    rewrite bool_decide_false by done. by rewrite IH.
Qed.

Lemma elem_of_remove_first ws x l : x ∈ remove_first ws l -> x ∈ l.
Proof.
  induction l as [|y l IH]; cbn; [done|].
  case_bool_decide; [by right|].
  intros [->|?]%elem_of_cons; [left|right; auto].
Qed.

Lemma elem_of_remove_first_ne ws x l : x ≠ ws -> x ∈ l -> x ∈ remove_first ws l.
Proof.
  intros Hne. induction l as [|y l IH]; cbn; [done|].
  intros [->|Hin]%elem_of_cons.
  - rewrite bool_decide_false by done. left.
  - case_bool_decide; [done|]. right. auto.
Qed.

Lemma remove_first_NoDup ws l : NoDup l -> ws ∉ remove_first ws l.
Proof.
  induction 1 as [|y l Hy Hnd IH]; cbn; [apply not_elem_of_nil|].
  case_bool_decide; [by subst|].
  apply not_elem_of_cons. split; [done|apply IH].
Qed.

Lemma connect_no_empty ws c u m : no_empty_entry m -> no_empty_entry (connect ws c u m).
Proof.
  intros [Hac Huc]. split; cbn.
  - intros k l. destruct (active_connections m !! c) as [l0|] eqn:Hc.
    + rewrite lookup_alter. case_decide; [|apply Hac]. subst. rewrite Hc. cbn.
      intros [= <-]. by destruct l0.
    + rewrite lookup_alter. case_decide; subst.
      * rewrite lookup_insert_eq. cbn. by intros [= <-].
      * rewrite lookup_insert_ne by done. apply Hac.
  - intros k s. destruct (user_connections m !! u) as [s0|] eqn:Hu.
    + rewrite lookup_alter. case_decide; [|apply Huc]. subst. rewrite Hu. cbn.
      intros [= <-] He. apply (not_elem_of_empty (C := gset N) ws). rewrite <- He.
      apply elem_of_union. right. by apply elem_of_singleton.
    + rewrite lookup_alter. case_decide; subst.
      * rewrite lookup_insert_eq. cbn. intros [= <-] He.
        apply (not_elem_of_empty (C := gset N) ws). rewrite <- He.
        apply elem_of_union. right. by apply elem_of_singleton.
      * rewrite lookup_insert_ne by done. apply Huc.
Qed.

Lemma disconnect_no_empty ws c u m :
  no_empty_entry m -> no_empty_entry (disconnect ws c u m).
Proof.
  intros [Hac Huc]. split; cbn.
  - intros k l. destruct (active_connections m !! c) as [l0|] eqn:Hc; [|apply Hac].
    destruct (if bool_decide (ws ∈ l0) then remove_first ws l0 else l0)
      as [|x xs] eqn:Hl.
    + rewrite lookup_delete. destruct (decide (c = k)); [done|apply Hac].
    + rewrite lookup_insert. destruct (decide (c = k)); [by intros [= <-]|apply Hac].
  - intros k s. destruct (user_connections m !! u) as [s0|] eqn:Hu; [|apply Huc].
    case_bool_decide as Hs.
    + rewrite lookup_delete. destruct (decide (u = k)); [done|apply Huc].
    + rewrite lookup_insert. destruct (decide (u = k)); [by intros [= <-]|apply Huc].
Qed.

(** X24.  [connect] and [disconnect] keep both registers of the connection
    manager free of empty entries: no conversation is left with an empty
    list and no user with an empty set. *)
Theorem manager_keeps_no_empty_entry ws c u m :
  no_empty_entry m ->
  no_empty_entry (connect ws c u m) ∧ no_empty_entry (disconnect ws c u m).
Proof. intros H. split; [by apply connect_no_empty|by apply disconnect_no_empty]. Qed.

Lemma manager_keeps_no_empty_entry_witness :
  no_empty_entry (connect 5 "c1" "u2" (mk ∅ ∅))
  ∧ no_empty_entry (disconnect 5 "c1" "u2" (mk ∅ ∅)).
Proof. apply (manager_keeps_no_empty_entry 5 "c1" "u2" (mk ∅ ∅)). by split. Defined.

(** X25.  Connecting a socket that is new to its conversation and user and
    disconnecting it again restores the connection manager, provided no
    entry was empty before. *)
Theorem connect_disconnect_round_trip ws c u m :
  no_empty_entry m ->
  ws ∉ broadcast_to_conversation c m ->
  ws ∉ send_to_user u m ->
  disconnect ws c u (connect ws c u m) = m.
Proof.
  intros [Hac Huc] Hl Hs. destruct m as [ac uc].
  unfold broadcast_to_conversation, send_to_user in *. cbn in *.
  unfold disconnect, connect. cbn. f_equal.
  - destruct (ac !! c) as [l|] eqn:Hc; cbn in Hl.
    + rewrite lookup_alter, decide_True by done. rewrite Hc. cbn.
      rewrite bool_decide_true by (apply elem_of_app; right; left).
      rewrite remove_first_app_fresh by done.
      destruct l as [|x l]; [by destruct (Hac c [])|].
      apply map_eq. intros k. rewrite lookup_insert. case_decide; [by subst|].
      rewrite lookup_alter, decide_False by done. done.
    + rewrite lookup_alter, decide_True by done. rewrite lookup_insert_eq. cbn.
      rewrite bool_decide_true by left. cbn. rewrite bool_decide_true by done.
      apply map_eq. intros k. rewrite lookup_delete. case_decide; [by subst|].
      rewrite lookup_alter, decide_False by done. by rewrite lookup_insert_ne.
  - destruct (uc !! u) as [s|] eqn:Hu; cbn in Hs.
    + rewrite lookup_alter, decide_True by done. rewrite Hu. cbn.
      assert (Heq : (s ∪ {[ws]}) ∖ {[ws]} = s).
      { apply set_eq. intros x.
        rewrite elem_of_difference, elem_of_union, elem_of_singleton.
        split; [by intros [[?|?] ?]|]. intros Hx. split; [by left|]. by intros ->. }
      rewrite Heq.
      rewrite bool_decide_false by (by apply (Huc u)).
      apply map_eq. intros k. rewrite lookup_insert. case_decide; [by subst|].
      rewrite lookup_alter, decide_False by done. done.
    + rewrite lookup_alter, decide_True by done. rewrite lookup_insert_eq. cbn.
      assert (Heq : ((∅ : gset N) ∪ {[ws]}) ∖ {[ws]} = ∅).
      { apply set_eq. intros x.
        rewrite elem_of_difference, elem_of_union, elem_of_singleton, elem_of_empty.
        split; [by intros [[?|?] ?]|done]. }
      rewrite Heq.
      rewrite bool_decide_true by done.
      apply map_eq. intros k. rewrite lookup_delete. case_decide; [by subst|].
      rewrite lookup_alter, decide_False by done. by rewrite lookup_insert_ne.
Qed.

Lemma connect_disconnect_round_trip_witness :
  disconnect 7 "c1" "u1" (connect 7 "c1" "u1" (connect 5 "c1" "u2" (mk ∅ ∅)))
  = connect 5 "c1" "u2" (mk ∅ ∅).
Proof.
  apply (connect_disconnect_round_trip 7 "c1" "u1" (connect 5 "c1" "u2" (mk ∅ ∅))).
  - apply connect_no_empty. by split.
  - vm_compute. by intros [?|[]%elem_of_nil]%elem_of_cons.
  - vm_compute. done.
Defined.

(** X26.  After [connect] the socket is among the targets of
    [broadcast_to_conversation] for its conversation and of [send_to_user]
    for its user; the earlier targets of the conversation stay, and other
    conversations and users are not affected. *)
Theorem connect_delivers ws c u m :
  ws ∈ broadcast_to_conversation c (connect ws c u m)
  ∧ ws ∈ send_to_user u (connect ws c u m)
  ∧ (forall ws', ws' ∈ broadcast_to_conversation c m ->
                 ws' ∈ broadcast_to_conversation c (connect ws c u m))
  ∧ (forall c', c' ≠ c ->
                broadcast_to_conversation c' (connect ws c u m)
                = broadcast_to_conversation c' m)
  ∧ (forall u', u' ≠ u -> send_to_user u' (connect ws c u m) = send_to_user u' m).
Proof.
  unfold broadcast_to_conversation, send_to_user, connect. cbn.
  repeat split.
  - rewrite lookup_alter, decide_True by done.
    destruct (active_connections m !! c) as [l|] eqn:Hc.
    + rewrite Hc. cbn. apply elem_of_app. right. left.
    + rewrite lookup_insert_eq. cbn. left.
  - rewrite lookup_alter, decide_True by done.
    destruct (user_connections m !! u) as [s|] eqn:Hu.
    + rewrite Hu. cbn. apply elem_of_union. right. by apply elem_of_singleton.
    + rewrite lookup_insert_eq. cbn. apply elem_of_union. right.
      by apply elem_of_singleton.
  - intros ws'. rewrite lookup_alter, decide_True by done.
    destruct (active_connections m !! c) as [l|] eqn:Hc.
    + rewrite Hc. cbn. intros ?. apply elem_of_app. by left.
    + cbn. by intros ?%elem_of_nil.
  - intros c' Hne. rewrite lookup_alter, decide_False by done.
    destruct (active_connections m !! c); [done|]. by rewrite lookup_insert_ne.
  - intros u' Hne. rewrite lookup_alter, decide_False by done.
    destruct (user_connections m !! u); [done|]. by rewrite lookup_insert_ne.
Qed.

Lemma connect_delivers_witness :
  broadcast_to_conversation "c2" (connect 7 "c1" "u1" (connect 5 "c2" "u2" (mk ∅ ∅)))
  = broadcast_to_conversation "c2" (connect 5 "c2" "u2" (mk ∅ ∅)).
Proof.
  apply (proj1 (proj2 (proj2 (proj2
           (connect_delivers 7 "c1" "u1" (connect 5 "c2" "u2" (mk ∅ ∅))))))).
  discriminate.
Defined.

(** X27.  After [disconnect] the socket is no target of [send_to_user] for
    its user, and none of [broadcast_to_conversation] for its conversation
    when it was listed there once; all other sockets of the conversation
    and of the user remain targets. *)
Theorem disconnect_stops_delivery ws c u m :
  (ws ∉ send_to_user u (disconnect ws c u m))
  ∧ (NoDup (broadcast_to_conversation c m) ->
     (ws ∉ broadcast_to_conversation c (disconnect ws c u m)))
  ∧ (forall ws', ws' ≠ ws ->
       (ws' ∈ broadcast_to_conversation c (disconnect ws c u m)
        <-> ws' ∈ broadcast_to_conversation c m)
       ∧ (ws' ∈ send_to_user u (disconnect ws c u m) <-> ws' ∈ send_to_user u m)).
Proof.
  unfold broadcast_to_conversation, send_to_user, disconnect. cbn.
  assert (Hlist : forall l, default [] ((match
              (if bool_decide (ws ∈ l) then remove_first ws l else l) with
            | [] => delete c (active_connections m)
            | _ :: _ => <[c := (if bool_decide (ws ∈ l) then remove_first ws l else l)]>
                          (active_connections m)
            end) !! c)
          = if bool_decide (ws ∈ l) then remove_first ws l else l).
  { intros l. destruct (if bool_decide (ws ∈ l) then remove_first ws l else l) eqn:Hl.
    - by rewrite lookup_delete_eq.
    - by rewrite lookup_insert_eq. }
  assert (Hset : forall s : gset N,
             default ∅ ((if bool_decide (s ∖ {[ws]} = ∅)
                         then delete u (user_connections m)
                         else <[u := s ∖ {[ws]}]> (user_connections m)) !! u)
             = s ∖ {[ws]}).
  { intros s. case_bool_decide as He.
    - by rewrite lookup_delete_eq, He.
    - by rewrite lookup_insert_eq. }
  split; [|split].
  - destruct (user_connections m !! u) as [s|] eqn:Hu.
    + rewrite Hset. rewrite elem_of_difference, elem_of_singleton. by intros [_ ?].
    + rewrite Hu. cbn. apply not_elem_of_empty.
  - destruct (active_connections m !! c) as [l|] eqn:Hc; cbn.
    + intros Hnd. rewrite Hlist. case_bool_decide; [by apply remove_first_NoDup|done].
    + intros _. rewrite Hc. cbn. apply not_elem_of_nil.
  - intros ws' Hne. split.
    + destruct (active_connections m !! c) as [l|] eqn:Hc; cbn; [|by rewrite Hc].
      rewrite Hlist. case_bool_decide; [|done]. split.
      * apply elem_of_remove_first.
      * by apply elem_of_remove_first_ne.
    + destruct (user_connections m !! u) as [s|] eqn:Hu; cbn; [|by rewrite Hu].
      rewrite Hset. rewrite elem_of_difference, elem_of_singleton. split.
      * by intros [? _].
      * done.
Qed.

Lemma disconnect_stops_delivery_witness :
  7%N ∉ broadcast_to_conversation "c1"
          (disconnect 7 "c1" "u1" (connect 7 "c1" "u1" (connect 5 "c1" "u2" (mk ∅ ∅)))).
Proof.
  apply (proj1 (proj2 (disconnect_stops_delivery 7 "c1" "u1"
                         (connect 7 "c1" "u1" (connect 5 "c1" "u2" (mk ∅ ∅)))))).
  vm_compute. repeat constructor.
  - by intros [?|[]%elem_of_nil]%elem_of_cons.
  - by intros []%elem_of_nil.
Defined.

(** X30.  The clean-up of the notification socket only discards the socket
    from the user's set: the user's key stays, and when the user has no
    other socket it stays with an empty set, which [disconnect] would have
    deleted. *)
Theorem notification_cleanup_leaves_entry ws u m :
  send_to_user u (unregister_notifications ws u (register_notifications ws u m))
  = send_to_user u m ∖ {[ws]}
  ∧ is_Some (user_connections
               (unregister_notifications ws u (register_notifications ws u m)) !! u)
  ∧ (send_to_user u m ⊆ {[ws]} ->
     ¬ no_empty_entry (unregister_notifications ws u (register_notifications ws u m))).
Proof.
  unfold send_to_user, unregister_notifications, register_notifications. cbn.
  assert (Hcut : forall s : gset N, (s ∪ {[ws]}) ∖ {[ws]} = s ∖ {[ws]}).
  { intros s. apply set_eq. intros x.
    rewrite !elem_of_difference, elem_of_union, elem_of_singleton.
    split; [by intros [[?|?] ?]|]. intros [? ?]. split; [by left|done]. }
  rewrite !lookup_alter, !decide_True by done.
  destruct (user_connections m !! u) as [s|] eqn:Hu.
  - rewrite Hu. cbn. rewrite Hcut. split; [done|]. split; [done|].
    intros Hsub [_ Huc]. apply (Huc u (s ∖ {[ws]})).
    + cbn. rewrite !lookup_alter, !decide_True by done. rewrite Hu. cbn.
      by rewrite Hcut.
    + apply set_eq. intros x. rewrite elem_of_difference, elem_of_empty.
      split; [|done]. intros [Hx Hne]. apply Hne. by apply Hsub.
  - rewrite lookup_insert_eq. cbn. rewrite Hcut. split; [done|]. split; [done|].
    intros _ [_ Huc]. apply (Huc u (∅ ∖ {[ws]})).
    + cbn. rewrite !lookup_alter, !decide_True by done. rewrite lookup_insert_eq.
      cbn. by rewrite Hcut.
    + apply set_eq. intros x. rewrite elem_of_difference, elem_of_empty.
      split; [by intros [? ?]|done].
Qed.

Lemma notification_cleanup_leaves_entry_witness :
  ¬ no_empty_entry
      (unregister_notifications 7 "u1" (register_notifications 7 "u1" (mk ∅ ∅))).
Proof.
  apply (proj2 (proj2 (notification_cleanup_leaves_entry 7 "u1" (mk ∅ ∅)))).
  unfold send_to_user. cbn. rewrite lookup_empty. cbn.
  intros x Hx. by apply elem_of_empty in Hx.
Defined.

End Connections.

(** ** The messages sent to the assistant *)

Section Messages.
Import AIService.

Lemma last_20_length {A} (h : list A) :
  List.length (last_20 h) = (List.length h `min` 20)%nat.
Proof. unfold last_20. rewrite length_drop. lia. Qed.

Lemma last_20_app {A} (old recent : list A) :
  (20 <= List.length recent)%nat -> last_20 (old ++ recent) = last_20 recent.
Proof.
  intros Hlen. unfold last_20. rewrite length_app.
  replace (List.length old + List.length recent - 20)%nat
    with (List.length old + (List.length recent - 20))%nat by lia.
  by rewrite drop_app_add'.
Qed.

Lemma last_20_snoc {A} (h : list A) x :
  exists pre, last_20 (h ++ [x]) = pre ++ [x].
Proof.
  unfold last_20. rewrite length_app. cbn.
  destruct (decide (List.length h + 1 - 20 <= List.length h)%nat) as [Hle|Hgt]; [|lia].
  rewrite drop_app_le by done. eauto.
Qed.

(** X28.  [_build_messages] returns the last twenty history entries, or all
    when there are fewer, followed by the new message as a [user] message:
    the length is min(len(history), 20) + 1, every role is [user] or
    [assistant], entries older than the last twenty do not matter, and the
    [i]-th message is the [i]-th of the last twenty history entries, with
    its content and with the role [user] when its sender is the client and
    [assistant] otherwise. *)
Theorem build_messages_window history new_message :
  List.length (_build_messages history new_message)
  = (List.length history `min` 20 + 1)%nat
  ∧ last (_build_messages history new_message) = Some (mk "user" (PStr new_message))
  ∧ (forall msg, msg ∈ _build_messages history new_message ->
                 role msg = "user" ∨ role msg = "assistant")
  ∧ (forall old recent,
        history = old ++ recent -> (20 <= List.length recent)%nat ->
        _build_messages history new_message = _build_messages recent new_message)
  ∧ (forall i entry,
        (i < List.length history `min` 20)%nat ->
        history !! (List.length history - List.length history `min` 20 + i)%nat
        = Some entry ->
        _build_messages history new_message !! i
        = Some (mk (if py_eq_str (get entry "sender_type" PNone) "client"
                    then "user" else "assistant")
                   (get entry "content" (PStr "")))).
Proof.
  unfold _build_messages. repeat split.
  - rewrite length_app, length_map, last_20_length. cbn. lia.
  - by rewrite last_snoc.
  - intros msg [Hin|Hin]%elem_of_app.
    + apply list_elem_of_fmap in Hin as (e & -> & _). cbn. case_match; auto.
    + apply list_elem_of_singleton in Hin as ->. by left.
  - intros old recent -> Hlen. by rewrite last_20_app.
  - intros i entry Hi Hentry.
    rewrite lookup_app_l by (rewrite length_map, last_20_length; lia).
    change (map ?f ?l) with (f <$> l). rewrite list_lookup_fmap.
    unfold last_20. rewrite lookup_drop.
    replace (List.length history - 20 + i)%nat
      with (List.length history - List.length history `min` 20 + i)%nat by lia.
    by rewrite Hentry.
Qed.

Lemma build_messages_window_witness :
  _build_messages (replicate 3 (client_entry "old") ++ replicate 20 (client_entry "hi"))
    "new"
  = _build_messages (replicate 20 (client_entry "hi")) "new".
Proof.
  apply (proj1 (proj2 (proj2 (proj2 (build_messages_window
           (replicate 3 (client_entry "old") ++ replicate 20 (client_entry "hi"))
           "new")))) (replicate 3 (client_entry "old"))).
  - reflexivity.
  - cbn. lia.
Defined.

(** X29.  When the history already ends with the client's new message, as
    the history that [send_message] reads back after saving the message
    does, [_build_messages] ends with that message twice, both as [user]
    messages. *)
Theorem saved_message_is_sent_twice history content :
  exists pre,
    _build_messages (history ++ [client_entry content]) content
    = pre ++ [mk "user" (PStr content); mk "user" (PStr content)].
Proof.
  unfold _build_messages.
  destruct (last_20_snoc history (client_entry content)) as [pre ->].
  exists (map (fun msg => mk (if py_eq_str (get msg "sender_type" PNone) "client"
                              then "user" else "assistant")
                            (get msg "content" (PStr ""))) pre).
  rewrite map_app, <- app_assoc. f_equal.
Qed.

End Messages.
